(** * Store provisioning platform: the controller and the request layer

    A shallow embedding of [src/controller/operator.py] (module [Operator])
    and of [src/apps/api/main.py] (module [Api]), followed by the properties
    of the reconciliation engine that the specification states about them.

    The cluster is an explicit state ([World]): the custom objects of the
    platform namespace, the namespaces with their labels, the secrets and the
    provisioning semaphore.  Everything the code cannot decide by itself is
    read from the environment part of the state: the outcome of each API
    call (a schedule of injected failures), of each installer run, the wall
    clock and the random source.  Every attempted call is appended to a
    trace, so that "no cluster call" is a statement about that trace. *)

From Stdlib Require Import Ascii QArith Sorted.
From stdpp Require Import base option list gmap strings fin_maps pretty.

(** ** Python list slices and truthiness *)

Module Py.

(** [l[start:]], negative indices counted from the end and clamped *)
Definition slice_from {A} (start : Z) (l : list A) : list A :=
  let len := Z.of_nat (length l) in
  let i := if (start <? 0)%Z then Z.max 0 (start + len) else Z.min start len in
  drop (Z.to_nat i) l.

(** [l[:stop]] *)
Definition slice_to {A} (stop : Z) (l : list A) : list A :=
  let len := Z.of_nat (length l) in
  let j := if (stop <? 0)%Z then Z.max 0 (stop + len) else Z.min stop len in
  take (Z.to_nat j) l.

(** [bool(s)] for a string *)
Definition truthy (s : string) : bool := negb (String.eqb s "").

(** [bool(o)] for an [Optional[str]] *)
Definition truthy_opt (o : option string) : bool :=
  match o with Some s => truthy s | None => false end.

(** [o or d] for an [Optional[str]] *)
Definition or_else (o : option string) (d : string) : string :=
  match o with Some s => if truthy s then s else d | None => d end.

End Py.

(** ** Data shared by the controller and the request layer *)

(** One record of [status.events] *)
Record StoreEvent := {
  ev_type : string;
  ev_message : string;
  ev_timestamp : string;
}.

(** The JSON values that occur in [status] *)
Inductive value :=
| VStr (s : string)
| VInt (n : Z)
| VEvents (l : list StoreEvent).

#[global] Instance StoreEvent_eq_dec : EqDecision StoreEvent.
Proof. solve_decision. Defined.
#[global] Instance value_eq_dec : EqDecision value.
Proof. solve_decision. Defined.

Record StoreSpec := {
  sp_engine : option string;
  sp_storeId : option string;
  sp_requestedBy_ip : option string;
  sp_requestedBy_userAgent : option string;
}.

Record ObjectMeta := {
  m_name : string;
  m_finalizers : list string;
  m_generation : option Z;
  m_deletionTimestamp : option string;
  m_creationTimestamp : option string;
}.

(** A Store custom object of the platform namespace *)
Record StoreObj := {
  o_metadata : ObjectMeta;
  o_spec : StoreSpec;
  o_status : gmap string value;
}.

Definition with_status (st : gmap string value) (o : StoreObj) : StoreObj :=
  {| o_metadata := o_metadata o; o_spec := o_spec o; o_status := st |}.

Definition with_finalizers (fs : list string) (o : StoreObj) : StoreObj :=
  {| o_metadata :=
       {| m_name := m_name (o_metadata o);
          m_finalizers := fs;
          m_generation := m_generation (o_metadata o);
          m_deletionTimestamp := m_deletionTimestamp (o_metadata o);
          m_creationTimestamp := m_creationTimestamp (o_metadata o) |};
     o_spec := o_spec o;
     o_status := o_status o |}.

(** Exceptions, all subclasses of Python's [Exception].  [ApiException]
    carries the HTTP status, [e.reason] and the text that [str(e)] gives. *)
Inductive exn :=
| ApiException (status : Z) (reason text : string)
| RuntimeError (msg : string)
| TimeoutExpired (text : string)
| ValueError (msg : string)
| PermanentError (msg : string)
| TemporaryError (msg : string) (delay : Z)
| HTTPException (status_code : Z) (detail : string)
| OtherError (text : string).

#[global] Instance exn_eq_dec : EqDecision exn.
Proof. solve_decision. Defined.

(** [str(e)] *)
Definition str (e : exn) : string :=
  match e with
  | ApiException _ _ t => t
  | RuntimeError m => m
  | TimeoutExpired t => t
  | ValueError m => m
  | PermanentError m => m
  | TemporaryError m _ => m
  | HTTPException _ d => d
  | OtherError t => t
  end.

Inductive result (A : Type) :=
| Ok (a : A)
| Err (e : exn).
Arguments Ok {A} a.
Arguments Err {A} e.

(** What the environment can do to an API call: reject it with an HTTP
    status, or fail below HTTP (connection refused, TLS, time-out). *)
Inductive fault :=
| ApiFault (status : Z) (reason text : string)
| TransportFault (text : string).

Definition exn_of_fault (f : fault) : exn :=
  match f with
  | ApiFault s r t => ApiException s r t
  | TransportFault t => OtherError t
  end.

(** ** State and exceptions

    A computation over a state [S] ends in a value or in a raised exception,
    and in both cases leaves a state behind. *)

Definition M (S A : Type) : Type := S → result A * S.

Definition ret {S A} (a : A) : M S A := fun w => (Ok a, w).
Definition raise {S A} (e : exn) : M S A := fun w => (Err e, w).

Definition bind {S A B} (m : M S A) (k : A → M S B) : M S B := fun w =>
  match m w with
  | (Ok a, w') => k a w'
  | (Err e, w') => (Err e, w')
  end.

(** [try: m  except <clause>: ...]: the handler answers [None] for an
    exception its clause does not match, which then propagates. *)
Definition try_except {S A} (m : M S A) (h : exn → option (M S A)) : M S A := fun w =>
  match m w with
  | (Ok a, w') => (Ok a, w')
  | (Err e, w') =>
      match h e with
      | Some k => k w'
      | None => (Err e, w')
      end
  end.

(** [try: m  finally: f]: [f] always runs; an exception of [f] replaces
    the outcome of [m]. *)
Definition try_finally {S A} (m : M S A) (f : M S unit) : M S A := fun w =>
  match m w with
  | (r, w') =>
      match f w' with
      | (Ok _, w'') => (r, w'')
      | (Err e, w'') => (Err e, w'')
      end
  end.

Declare Scope op_scope.
Delimit Scope op_scope with op.
Notation "x <- m ;; k" := (bind m (fun x => k))
  (at level 100, m at next level, right associativity) : op_scope.
Notation "m ;; k" := (bind m (fun _ => k))
  (at level 100, right associativity) : op_scope.
Open Scope op_scope.

(** [except ApiException as e:] with a body that depends on [e.status] *)
Definition on_api_exception {S A} (body : Z → exn → M S A) (e : exn) : option (M S A) :=
  match e with
  | ApiException status _ _ => Some (body status e)
  | _ => None
  end.

(** [except Exception:] *)
Definition on_exception {S A} (body : exn → M S A) (e : exn) : option (M S A) :=
  Some (body e).

(** [keeps R m]: the state [m] leaves behind is related by [R] to the one
    it started from, whatever the outcome. *)
Definition keeps {S A} (R : relation S) (m : M S A) : Prop :=
  ∀ w, R w (m w).2.

(** [throws P m]: only exceptions that satisfy [P] leave [m]. *)
Definition throws {S A} (P : exn → Prop) (m : M S A) : Prop :=
  ∀ w e, (m w).1 = Err e → P e.

(** The API server's own refusals *)
Definition not_found {S A} : M S A :=
  raise (ApiException 404 "Not Found" "(404) Reason: Not Found").
Definition conflict {S A} : M S A :=
  raise (ApiException 409 "Conflict" "(409) Reason: Conflict").

(** [e.reason] *)
Definition reason (e : exn) : string :=
  match e with
  | ApiException _ r _ => r
  | _ => ""
  end.

(** ** The controller: [src/controller/operator.py] *)

Module Operator.

(** The module-level constants read from the process environment *)
Record Config := {
  PLATFORM_NAMESPACE : string;
  BASE_DOMAIN : string;
  URL_SCHEME : string;
  INGRESS_CLASS : string;
  STORE_NS_PREFIX : string;
  STORAGE_CLASS : string;
  MAX_PROVISION_SECONDS : Z;
  MAX_CONCURRENT_PROVISIONS : Z;
  MAX_STATUS_EVENTS : Z;
  HELM_BIN : string;
  CHART_WOOCOMMERCE : string;
  CHART_MEDUSA : string;
  ADMIN_SECRET_NAME : string;
}.

(** The values the source falls back to when a variable is unset *)
Definition default_config : Config := {|
  PLATFORM_NAMESPACE := "store-platform";
  BASE_DOMAIN := "127.0.0.1.nip.io";
  URL_SCHEME := "http";
  INGRESS_CLASS := "nginx";
  STORE_NS_PREFIX := "store-";
  STORAGE_CLASS := "";
  MAX_PROVISION_SECONDS := 900;
  MAX_CONCURRENT_PROVISIONS := 2;
  MAX_STATUS_EVENTS := 20;
  HELM_BIN := "helm";
  CHART_WOOCOMMERCE := "/charts/woocommerce";
  CHART_MEDUSA := "/charts/medusa";
  ADMIN_SECRET_NAME := "store-admin";
|}.

Definition FINALIZER : string := "stores.urumi.ai/finalizer".
Definition STORE_MANAGED_LABEL : string := "urumi.ai/managed-store".
Definition STORE_ID_LABEL : string := "urumi.ai/storeId".

(** Every call that leaves the process, with the arguments that matter *)
Inductive call :=
| GetStore (name : string)
| PatchStoreStatus (name : string) (status : gmap string value)
| PatchStoreFinalizers (name : string) (finalizers : list string)
| ReadNamespace (ns : string)
| PatchNamespace (ns : string) (labels : gmap string string)
| CreateNamespace (ns : string) (labels : gmap string string)
| DeleteNamespace (ns : string)
| CreateResourceQuota (ns : string)
| PatchResourceQuota (ns : string)
| CreateLimitRange (ns : string)
| PatchLimitRange (ns : string)
| CreateNetworkPolicy (ns name : string)
| PatchNetworkPolicy (ns name : string)
| ReadSecret (name ns : string)
| CreateSecret (ns name : string) (string_data : gmap string string)
| PatchSecret (name ns : string) (string_data : gmap string string)
| RunHelm (cmd : list string) (timeout : Z)
| SemaphoreAcquire (timeout : Z)
| SemaphoreRelease.

(** What one run of the installer subprocess gives back: it exits (the two
    outputs are the captured streams after [strip()]), it runs out of time,
    or it cannot be started at all. *)
Inductive helm_outcome :=
| HelmExit (returncode : Z) (stdout stderr : string)
| HelmTimeout (text : string)
| HelmNotStarted (text : string).

(** The cluster, the process-wide semaphore and the environment *)
Record World := {
  w_stores : gmap string StoreObj;
  w_namespaces : gmap string (gmap string string);
  w_secrets : gmap (string * string) (gmap string string);
  w_gate : nat;
  w_clock : list string;
  w_rng : list nat;
  w_faults : list (option fault);
  w_helm : list helm_outcome;
  w_trace : list call;
}.

Definition set_stores (f : gmap string StoreObj → gmap string StoreObj) (w : World) : World :=
  {| w_stores := f (w_stores w); w_namespaces := w_namespaces w;
     w_secrets := w_secrets w; w_gate := w_gate w; w_clock := w_clock w;
     w_rng := w_rng w; w_faults := w_faults w; w_helm := w_helm w;
     w_trace := w_trace w |}.

Definition set_namespaces
    (f : gmap string (gmap string string) → gmap string (gmap string string))
    (w : World) : World :=
  {| w_stores := w_stores w; w_namespaces := f (w_namespaces w);
     w_secrets := w_secrets w; w_gate := w_gate w; w_clock := w_clock w;
     w_rng := w_rng w; w_faults := w_faults w; w_helm := w_helm w;
     w_trace := w_trace w |}.

Definition set_secrets
    (f : gmap (string * string) (gmap string string) →
         gmap (string * string) (gmap string string))
    (w : World) : World :=
  {| w_stores := w_stores w; w_namespaces := w_namespaces w;
     w_secrets := f (w_secrets w); w_gate := w_gate w; w_clock := w_clock w;
     w_rng := w_rng w; w_faults := w_faults w; w_helm := w_helm w;
     w_trace := w_trace w |}.

Definition set_gate (f : nat → nat) (w : World) : World :=
  {| w_stores := w_stores w; w_namespaces := w_namespaces w;
     w_secrets := w_secrets w; w_gate := f (w_gate w); w_clock := w_clock w;
     w_rng := w_rng w; w_faults := w_faults w; w_helm := w_helm w;
     w_trace := w_trace w |}.

Definition set_clock (f : list string → list string) (w : World) : World :=
  {| w_stores := w_stores w; w_namespaces := w_namespaces w;
     w_secrets := w_secrets w; w_gate := w_gate w; w_clock := f (w_clock w);
     w_rng := w_rng w; w_faults := w_faults w; w_helm := w_helm w;
     w_trace := w_trace w |}.

Definition set_rng (f : list nat → list nat) (w : World) : World :=
  {| w_stores := w_stores w; w_namespaces := w_namespaces w;
     w_secrets := w_secrets w; w_gate := w_gate w; w_clock := w_clock w;
     w_rng := f (w_rng w); w_faults := w_faults w; w_helm := w_helm w;
     w_trace := w_trace w |}.

Definition set_faults (f : list (option fault) → list (option fault)) (w : World) : World :=
  {| w_stores := w_stores w; w_namespaces := w_namespaces w;
     w_secrets := w_secrets w; w_gate := w_gate w; w_clock := w_clock w;
     w_rng := w_rng w; w_faults := f (w_faults w); w_helm := w_helm w;
     w_trace := w_trace w |}.

Definition set_helm (f : list helm_outcome → list helm_outcome) (w : World) : World :=
  {| w_stores := w_stores w; w_namespaces := w_namespaces w;
     w_secrets := w_secrets w; w_gate := w_gate w; w_clock := w_clock w;
     w_rng := w_rng w; w_faults := w_faults w; w_helm := f (w_helm w);
     w_trace := w_trace w |}.

Definition set_trace (f : list call → list call) (w : World) : World :=
  {| w_stores := w_stores w; w_namespaces := w_namespaces w;
     w_secrets := w_secrets w; w_gate := w_gate w; w_clock := w_clock w;
     w_rng := w_rng w; w_faults := w_faults w; w_helm := w_helm w;
     w_trace := f (w_trace w) |}.

Abbreviation M := (M World).

(** An API request: it is recorded, and the environment decides whether
    it reaches the server.  What the server then answers depends on the
    cluster state and is written out in each wrapper below. *)
Definition api (c : call) : M unit := fun w =>
  let w' := set_trace (fun t => t ++ [c]) (set_faults tail w) in
  match head (w_faults w) with
  | Some (Some f) => (Err (exn_of_fault f), w')
  | _ => (Ok tt, w')
  end.

(** [now_iso()] *)
Definition now_iso : M string := fun w =>
  (Ok (default "" (head (w_clock w))), set_clock tail w).

Section WithConfig.

Context (cfg : Config).

(** *** Engine handlers *)

Record EngineHandler := {
  name : string;
  chart_path : string;
}.

Definition build_release_name (self : EngineHandler) (store_id : string) : string :=
  name self +:+ "-" +:+ store_id.

Definition build_helm_args (self : EngineHandler)
    (store_id namespace host admin_user admin_password : string) : list string :=
  let timeout := "--timeout=" +:+ pretty (MAX_PROVISION_SECONDS cfg) +:+ "s" in
  if String.eqb (name self) "woocommerce" then
    [ "upgrade"; "--install"; build_release_name self store_id; chart_path self;
      "-n"; namespace; "--wait"; timeout;
      "--set"; "wordpress.ingress.enabled=true";
      "--set-string"; "wordpress.ingress.ingressClassName=" +:+ INGRESS_CLASS cfg;
      "--set-string"; "wordpress.ingress.hostname=" +:+ host;
      "--set-string"; "wordpress.service.type=ClusterIP";
      "--set-string"; "wordpress.wordpressUsername=" +:+ admin_user;
      "--set-string"; "wordpress.wordpressPassword=" +:+ admin_password;
      "--set-string"; "wordpress.wordpressEmail=admin@" +:+ host;
      "--set-string"; "wordpress.wordpressBlogName=" +:+ store_id;
      "--set-string"; "wordpress.wordpressPlugins=woocommerce" ]
    ++ (if Py.truthy (STORAGE_CLASS cfg) then
          [ "--set-string";
            "wordpress.persistence.storageClass=" +:+ STORAGE_CLASS cfg;
            "--set-string";
            "wordpress.mariadb.primary.persistence.storageClass=" +:+ STORAGE_CLASS cfg ]
        else [])
  else
    [ "upgrade"; "--install"; build_release_name self store_id; chart_path self;
      "-n"; namespace; "--wait"; timeout;
      "--set-string"; "ingress.className=" +:+ INGRESS_CLASS cfg;
      "--set-string"; "ingress.hostname=" +:+ host ].

Definition post_ready_checks (self : EngineHandler) (store_id namespace : string) : M unit :=
  ret tt.

Definition woocommerce_handler : EngineHandler :=
  {| name := "woocommerce"; chart_path := CHART_WOOCOMMERCE cfg |}.
Definition medusa_handler : EngineHandler :=
  {| name := "medusa"; chart_path := CHART_MEDUSA cfg |}.

Definition ENGINE_HANDLERS : gmap string EngineHandler :=
  <["woocommerce" := woocommerce_handler]> (<["medusa" := medusa_handler]> ∅).

(** *** The installer *)

(** [subprocess.run] on the installer: the run is recorded and its
    outcome is the next one the environment holds (a clean exit when it
    holds none). *)
Definition subprocess_run (cmd : list string) (timeout : Z) : M helm_outcome := fun w =>
  (Ok (default (HelmExit 0 "" "") (head (w_helm w))),
   set_trace (fun t => t ++ [RunHelm cmd timeout]) (set_helm tail w)).

Definition run_helm (args : list string) (timeout : option Z) : M string :=
  let cmd := HELM_BIN cfg :: args in
  let t := match timeout with
           | Some t => if (t =? 0)%Z then (MAX_PROVISION_SECONDS cfg + 60)%Z else t
           | None => (MAX_PROVISION_SECONDS cfg + 60)%Z
           end in
  proc <- subprocess_run cmd t ;;
  match proc with
  | HelmTimeout text => raise (TimeoutExpired text)
  | HelmNotStarted text => raise (OtherError text)
  | HelmExit returncode stdout stderr =>
      if negb (returncode =? 0)%Z then
        let details :=
          if Py.truthy stderr then stderr
          else if Py.truthy stdout then stdout
          else "unknown error" in
        raise (RuntimeError ("helm failed: " +:+ details))
      else ret stdout
  end.

Definition store_namespace (store_id : string) : string :=
  STORE_NS_PREFIX cfg +:+ store_id.

Definition store_host (store_id : string) : string :=
  store_id +:+ "." +:+ BASE_DOMAIN cfg.

Definition store_url (store_id : string) : string :=
  URL_SCHEME cfg +:+ "://" +:+ store_host store_id.

(** [secrets.choice(alphabet)] and [rand_password] *)
Definition alphabet : list Ascii.ascii :=
  String.list_ascii_of_string
    "abcdefghijklmnopqrstuvwxyzABCDEFGHIJKLMNOPQRSTUVWXYZ0123456789".

Definition secrets_choice : M Ascii.ascii := fun w =>
  (Ok (nth (default 0 (head (w_rng w)) mod length alphabet) alphabet "a"%char),
   set_rng tail w).

Fixpoint rand_chars (n : nat) : M (list Ascii.ascii) :=
  match n with
  | 0 => ret []
  | S n' => c <- secrets_choice ;; cs <- rand_chars n' ;; ret (c :: cs)
  end.

Definition rand_password (n : nat) : M string :=
  cs <- rand_chars n ;; ret (String.string_of_list_ascii cs).

(** *** The Store custom object *)

Definition get_store (name : string) : M StoreObj :=
  api (GetStore name) ;;
  fun w => match w_stores w !! name with
           | Some obj => (Ok obj, w)
           | None => not_found w
           end.

(** The server side of a status patch: a merge patch, so the keys of
    the body replace the stored ones and the other stored keys stay. *)
Definition patch_namespaced_custom_object_status
    (name : string) (status : gmap string value) : M unit :=
  api (PatchStoreStatus name status) ;;
  fun w => match w_stores w !! name with
           | Some obj =>
               (Ok tt, set_stores
                         (<[name := with_status (status ∪ o_status obj) obj]>) w)
           | None => not_found w
           end.

Definition _safe_patch_store_status (name : string) (status : gmap string value) : M unit :=
  try_except
    (patch_namespaced_custom_object_status name status)
    (on_api_exception (fun status e =>
       if (status =? 404)%Z then ret tt else raise e)).

Definition set_field (current : gmap string value) (kv : string * option value)
    : gmap string value :=
  match kv.2 with
  | None => delete kv.1 current
  | Some v => <[kv.1 := v]> current
  end.

Definition events_of (current : gmap string value) : list StoreEvent :=
  match current !! "events" with
  | Some (VEvents l) => l
  | _ => []
  end.

Definition patch_store_status (name : string)
    (phase event_type event_message : option string)
    (set_fields : list (string * option value))
    (drop_fields : list string) : M unit :=
  obj <- get_store name ;;
  let current := o_status obj in
  let current :=
    if Py.truthy_opt phase then <["phase" := VStr (default "" phase)]> current
    else current in
  let current := fold_left set_field set_fields current in
  let current := fold_left (fun c field_name => delete field_name c) drop_fields current in
  current <- match current !! "createdAt" with
             | None => t <- now_iso ;; ret (<["createdAt" := VStr t]> current)
             | Some _ => ret current
             end ;;
  t <- now_iso ;;
  let current := <["updatedAt" := VStr t]> current in
  let events := events_of current in
  events <- (if Py.truthy_opt event_type then
               ts <- now_iso ;;
               let events :=
                 events ++ [ {| ev_type := default "" event_type;
                                ev_message := Py.or_else event_message "";
                                ev_timestamp := ts |} ] in
               ret (Py.slice_from (- MAX_STATUS_EVENTS cfg) events)
             else ret events) ;;
  let current := <["events" := VEvents events]> current in
  _safe_patch_store_status name current.

(** The server side of a metadata patch that sends [finalizers] *)
Definition patch_namespaced_custom_object
    (name : string) (finalizers : list string) : M unit :=
  api (PatchStoreFinalizers name finalizers) ;;
  fun w => match w_stores w !! name with
           | Some obj => (Ok tt, set_stores (<[name := with_finalizers finalizers obj]>) w)
           | None => not_found w
           end.

Definition add_finalizer (name : string) : M unit :=
  obj <- get_store name ;;
  let finalizers := m_finalizers (o_metadata obj) in
  if bool_decide (FINALIZER ∈ finalizers) then ret tt
  else patch_namespaced_custom_object name (finalizers ++ [FINALIZER]).

Definition remove_finalizer (name : string) : M unit :=
  found <- try_except
             (obj <- get_store name ;; ret (Some obj))
             (on_api_exception (fun status e =>
                if (status =? 404)%Z then ret None else raise e)) ;;
  match found with
  | None => ret tt
  | Some obj =>
      let finalizers := m_finalizers (o_metadata obj) in
      if negb (bool_decide (FINALIZER ∈ finalizers)) then ret tt
      else patch_namespaced_custom_object name
             (filter (fun f => f ≠ FINALIZER) finalizers)
  end.

(** *** Namespaces *)

Definition read_namespace (ns : string) : M (gmap string string) :=
  api (ReadNamespace ns) ;;
  fun w => match w_namespaces w !! ns with
           | Some labels => (Ok labels, w)
           | None => not_found w
           end.

Definition patch_namespace (ns : string) (labels : gmap string string) : M unit :=
  api (PatchNamespace ns labels) ;;
  fun w => match w_namespaces w !! ns with
           | Some old => (Ok tt, set_namespaces (<[ns := labels ∪ old]>) w)
           | None => not_found w
           end.

Definition create_namespace (ns : string) (labels : gmap string string) : M unit :=
  api (CreateNamespace ns labels) ;;
  fun w => match w_namespaces w !! ns with
           | Some _ => conflict w
           | None => (Ok tt, set_namespaces (<[ns := labels]>) w)
           end.

(** Deleting a namespace takes what it contains with it. *)
Definition delete_namespace (ns : string) : M unit :=
  api (DeleteNamespace ns) ;;
  fun w => match w_namespaces w !! ns with
           | Some _ =>
               (Ok tt, set_secrets (filter (fun kv => kv.1.1 ≠ ns))
                         (set_namespaces (delete ns) w))
           | None => not_found w
           end.

Definition ownership_labels (store_id : string) : gmap string string :=
  <[STORE_MANAGED_LABEL := "true"]> (<[STORE_ID_LABEL := store_id]> ∅).

Definition labels_differ (labels current_labels : gmap string string) : bool :=
  existsb (fun kv => negb (bool_decide (current_labels !! kv.1 = Some kv.2)))
          (map_to_list labels).

Definition ensure_namespace (ns store_id : string) : M unit :=
  let labels := ownership_labels store_id in
  returned <- try_except
                (current_labels <- read_namespace ns ;;
                 (if labels_differ labels current_labels
                  then patch_namespace ns (labels ∪ current_labels)
                  else ret tt) ;;
                 ret true)
                (on_api_exception (fun status e =>
                   if negb (status =? 404)%Z then raise e else ret false)) ;;
  if (returned : bool) then ret tt else create_namespace ns labels.

(** Quotas, limit ranges and network policies are not read back by the
    controller: whether a create meets an existing object is the
    environment's answer to that call. *)
Definition create_or_patch (create patch : call) : M unit :=
  try_except (api create)
    (on_api_exception (fun status e =>
       if negb (status =? 409)%Z then raise e else api patch)).

Definition apply_resourcequota (ns : string) : M unit :=
  create_or_patch (CreateResourceQuota ns) (PatchResourceQuota ns).

Definition apply_limitrange (ns : string) : M unit :=
  create_or_patch (CreateLimitRange ns) (PatchLimitRange ns).

Definition apply_networkpolicy_default_deny (ns : string) : M unit :=
  create_or_patch (CreateNetworkPolicy ns "default-deny")
                  (PatchNetworkPolicy ns "default-deny").

Definition apply_networkpolicy_allow_required (ns : string) : M unit :=
  create_or_patch (CreateNetworkPolicy ns "allow-required")
                  (PatchNetworkPolicy ns "allow-required").

Definition ensure_namespace_resources (ns : string) : M unit :=
  apply_resourcequota ns ;;
  apply_limitrange ns ;;
  try_except
    (apply_networkpolicy_default_deny ns ;;
     apply_networkpolicy_allow_required ns)
    (on_exception (fun _ => ret tt)).

(** *** The admin secret *)

(** Secrets are kept as the decoded text of their [data]. *)
Definition read_namespaced_secret (name ns : string) : M (gmap string string) :=
  api (ReadSecret name ns) ;;
  fun w => match w_secrets w !! (ns, name) with
           | Some data => (Ok data, w)
           | None => not_found w
           end.

Definition create_namespaced_secret (ns name : string)
    (string_data : gmap string string) : M unit :=
  api (CreateSecret ns name string_data) ;;
  fun w => match w_namespaces w !! ns with
           | None => not_found w
           | Some _ =>
               match w_secrets w !! (ns, name) with
               | Some _ => conflict w
               | None => (Ok tt, set_secrets (<[(ns, name) := string_data]>) w)
               end
           end.

Definition patch_namespaced_secret (name ns : string)
    (string_data : gmap string string) : M unit :=
  api (PatchSecret name ns string_data) ;;
  fun w => match w_secrets w !! (ns, name) with
           | Some data => (Ok tt, set_secrets (<[(ns, name) := string_data ∪ data]>) w)
           | None => not_found w
           end.

Definition ensure_admin_secret (ns store_id : string) : M (string * string) :=
  found <- try_except
             (data <- read_namespaced_secret (ADMIN_SECRET_NAME cfg) ns ;;
              match data !! "username", data !! "password" with
              | Some username, Some password =>
                  if Py.truthy username && Py.truthy password
                  then ret (Some (username, password))
                  else ret None
              | _, _ => ret None
              end)
             (on_api_exception (fun status e =>
                if negb (status =? 404)%Z then raise e else ret None)) ;;
  match found with
  | Some creds => ret creds
  | None =>
      let username := "admin" in
      password <- rand_password 20 ;;
      let string_data : gmap string string :=
        <["username" := username]>
          (<["password" := password]> (<["storeId" := store_id]> ∅)) in
      try_except
        (create_namespaced_secret ns (ADMIN_SECRET_NAME cfg) string_data)
        (on_api_exception (fun status e =>
           if negb (status =? 409)%Z then raise e
           else patch_namespaced_secret (ADMIN_SECRET_NAME cfg) ns string_data)) ;;
      ret (username, password)
  end.

Definition _namespace_is_owned (ns store_id : string) : M bool :=
  if negb (String.prefix (STORE_NS_PREFIX cfg) ns) then ret false
  else
    found <- try_except
               (labels <- read_namespace ns ;; ret (Some labels))
               (on_api_exception (fun status e =>
                  if (status =? 404)%Z then ret None else raise e)) ;;
    match found with
    | None => ret false
    | Some labels =>
        ret (bool_decide (labels !! STORE_MANAGED_LABEL = Some "true")
             && bool_decide (labels !! STORE_ID_LABEL = Some store_id))
    end.

(** *** The provisioning semaphore *)

(** [_provision_semaphore.acquire(timeout=...)] for one reconciliation
    run on its own: a free permit is taken at once, and with none free
    the wait runs out. *)
Definition semaphore_acquire (timeout : Z) : M bool := fun w =>
  let w' := set_trace (fun t => t ++ [SemaphoreAcquire timeout]) w in
  match w_gate w with
  | 0 => (Ok false, w')
  | S _ => (Ok true, set_gate pred w')
  end.

(** [_provision_semaphore.release()] of a [BoundedSemaphore] *)
Definition semaphore_release : M unit := fun w =>
  let w' := set_trace (fun t => t ++ [SemaphoreRelease]) w in
  if (MAX_CONCURRENT_PROVISIONS cfg <=? Z.of_nat (w_gate w))%Z
  then (Err (ValueError "Semaphore released too many times"), w')
  else (Ok tt, set_gate S w').

(** *** Reconciliation *)

(** The body of the [try] statement of [reconcile_store] *)
Definition reconcile_store_guarded (name store_id store_ns host release : string)
    (generation : Z) (handler : EngineHandler) : M (list (string * string)) :=
  patch_store_status name None (Some "NamespaceReady")
    (Some ("Ensuring namespace " +:+ store_ns))
    [("namespace", Some (VStr store_ns))] [] ;;
  ensure_namespace store_ns store_id ;;
  ensure_namespace_resources store_ns ;;
  creds <- ensure_admin_secret store_ns store_id ;;
  patch_store_status name None (Some "HelmInstallStarted")
    (Some ("Installing/upgrading release " +:+ release)) [] [] ;;
  let helm_args := build_helm_args handler store_id store_ns host creds.1 creds.2 in
  run_helm helm_args (Some (MAX_PROVISION_SECONDS cfg + 60)%Z) ;;
  post_ready_checks handler store_id store_ns ;;
  ready_at <- now_iso ;;
  patch_store_status name (Some "Ready") (Some "Ready")
    (Some ("Store ready at " +:+ store_url store_id))
    [("url", Some (VStr (store_url store_id)));
     ("readyAt", Some (VStr ready_at));
     ("releaseName", Some (VStr release));
     ("namespace", Some (VStr store_ns));
     ("observedGeneration", Some (VInt generation));
     ("lastError", None)]
    ["adminPassword"; "adminUser"] ;;
  ret [("namespace", store_ns); ("host", host); ("releaseName", release)].

(** Its [except Exception as e] clause *)
Definition reconcile_store_failed (name store_ns release : string)
    (generation : Z) (e : exn) : M (list (string * string)) :=
  patch_store_status name (Some "Failed") (Some "Failed") (Some (str e))
    [("lastError", Some (VStr (str e)));
     ("releaseName", Some (VStr release));
     ("namespace", Some (VStr store_ns));
     ("observedGeneration", Some (VInt generation))]
    ["adminPassword"; "adminUser"] ;;
  raise e.

(** The whole [try ... except ... finally] statement *)
Definition reconcile_store_gated (name store_id store_ns host release : string)
    (generation : Z) (handler : EngineHandler) : M (list (string * string)) :=
  try_finally
    (try_except
       (reconcile_store_guarded name store_id store_ns host release generation handler)
       (on_exception (reconcile_store_failed name store_ns release generation)))
    semaphore_release.

Definition unsupported_engine (engine : string) : string :=
  "Unsupported engine '" +:+ engine +:+ "'".

Definition reconcile_store (name namespace : string)
    (spec : StoreSpec) (meta : ObjectMeta) : M (list (string * string)) :=
  if negb (String.eqb namespace (PLATFORM_NAMESPACE cfg)) then ret []
  else
    let engine := default "woocommerce" (sp_engine spec) in
    match ENGINE_HANDLERS !! engine with
    | None =>
        patch_store_status name (Some "Failed") (Some "Failed")
          (Some (unsupported_engine engine))
          [("lastError", Some (VStr (unsupported_engine engine)))] [] ;;
        raise (PermanentError (unsupported_engine engine))
    | Some handler =>
        let store_id := default name (sp_storeId spec) in
        let store_ns := store_namespace store_id in
        let host := store_host store_id in
        let release := build_release_name handler store_id in
        let generation := default 0%Z (m_generation meta) in
        add_finalizer name ;;
        patch_store_status name (Some "Provisioning") (Some "ProvisioningStarted")
          (Some ("Starting reconcile for " +:+ engine))
          [("url", Some (VStr (store_url store_id)));
           ("namespace", Some (VStr store_ns));
           ("releaseName", Some (VStr release));
           ("observedGeneration", Some (VInt generation));
           ("lastError", None)]
          ["adminPassword"; "adminUser"] ;;
        acquired <- semaphore_acquire (MAX_PROVISION_SECONDS cfg) ;;
        if negb acquired then
          patch_store_status name (Some "Failed") (Some "Failed")
            (Some "Provisioning lock timeout")
            [("lastError", Some (VStr "Provisioning lock timeout"))] [] ;;
          raise (TemporaryError "Provisioning lock timeout" 15)
        else
          reconcile_store_gated name store_id store_ns host release generation handler
    end.

(** *** The handlers the watch framework calls *)

Definition on_create (spec : StoreSpec) (name namespace : string) (meta : ObjectMeta)
    : M (list (string * string)) :=
  reconcile_store name namespace spec meta.

Definition on_resume (spec : StoreSpec) (status : gmap string value)
    (name namespace : string) (meta : ObjectMeta)
    : M (option (list (string * string))) :=
  if negb (String.eqb namespace (PLATFORM_NAMESPACE cfg)) then ret None
  else if Py.truthy_opt (m_deletionTimestamp meta) then ret None
  else
    let current_status := status in
    if bool_decide (current_status !! "phase" = Some (VStr "Ready"))
       && bool_decide (current_status !! "observedGeneration"
                       = Some (VInt (default 0%Z (m_generation meta))))
    then ret None
    else r <- reconcile_store name namespace spec meta ;; ret (Some r).

Definition on_delete (spec : StoreSpec) (name namespace : string) : M unit :=
  if negb (String.eqb namespace (PLATFORM_NAMESPACE cfg)) then ret tt
  else
    let engine := default "woocommerce" (sp_engine spec) in
    let store_id := default name (sp_storeId spec) in
    let handler := default woocommerce_handler (ENGINE_HANDLERS !! engine) in
    let store_ns := store_namespace store_id in
    let release := build_release_name handler store_id in
    try_finally
      (patch_store_status name (Some "Deleting") (Some "Deleting")
         (Some ("Deleting " +:+ release))
         [("namespace", Some (VStr store_ns)); ("releaseName", Some (VStr release))] [] ;;
       try_except
         (run_helm ["uninstall"; release; "-n"; store_ns] (Some 300%Z) ;; ret tt)
         (on_exception (fun _ => ret tt)) ;;
       owned <- _namespace_is_owned store_ns store_id ;;
       (if (owned : bool) then
          try_except (delete_namespace store_ns)
            (on_api_exception (fun status e =>
               if negb (status =? 404)%Z then raise e else ret tt))
        else ret tt) ;;
       patch_store_status name (Some "Deleted") (Some "Deleted")
         (Some ("Deleted resources for " +:+ store_id)) [] [])
      (try_except (remove_finalizer name) (on_exception (fun _ => ret tt))).

End WithConfig.

(** *** Vocabulary for the properties below *)

Definition is_semaphore_op (c : call) : bool :=
  match c with
  | SemaphoreAcquire _ | SemaphoreRelease => true
  | _ => false
  end.

Definition is_namespace_op (c : call) : bool :=
  match c with
  | ReadNamespace _ | PatchNamespace _ _ | CreateNamespace _ _ | DeleteNamespace _
  | CreateResourceQuota _ | PatchResourceQuota _
  | CreateLimitRange _ | PatchLimitRange _
  | CreateNetworkPolicy _ _ | PatchNetworkPolicy _ _ => true
  | _ => false
  end.

Definition is_secret_op (c : call) : bool :=
  match c with
  | ReadSecret _ _ | CreateSecret _ _ _ | PatchSecret _ _ _ => true
  | _ => false
  end.

Definition is_installer_op (c : call) : bool :=
  match c with
  | RunHelm _ _ => true
  | _ => false
  end.

Definition no_semaphore_op (l : list call) : Prop :=
  Forall (λ c, is_semaphore_op c = false) l.

(** The steps that leave the semaphore alone: its value is the same and
    the calls made in between are not semaphore operations. *)
Definition quiet_gate (w w' : World) : Prop :=
  w_gate w' = w_gate w ∧
  ∃ l, w_trace w' = w_trace w ++ l ∧ no_semaphore_op l.

(** The environment fails none of the next [n] API calls. *)
Definition calm (n : nat) (w : World) : Prop :=
  Forall (λ o, o = None) (take n (w_faults w)).

(** What [patch_store_status] has in [current] once [phase], [set_fields]
    and [drop_fields] are applied, before the timestamps and the events. *)
Definition staged_status (old : gmap string value) (phase : option string)
    (set_fields : list (string * option value)) (drop_fields : list string)
    : gmap string value :=
  fold_left (fun c field_name => delete field_name c) drop_fields
    (fold_left set_field set_fields
       (if Py.truthy_opt phase then <["phase" := VStr (default "" phase)]> old else old)).

(** The record that [patch_store_status] appends to [status.events] *)
Definition new_event (event_type event_message : option string) (ts : string) : StoreEvent :=
  {| ev_type := default "" event_type;
     ev_message := Py.or_else event_message "";
     ev_timestamp := ts |}.

(** The calls of [add_finalizer] on an object with the given finalizers,
    and the object it leaves *)
Definition add_finalizer_calls (name : string) (finalizers : list string) : list call :=
  GetStore name ::
  (if bool_decide (FINALIZER ∈ finalizers) then []
   else [PatchStoreFinalizers name (finalizers ++ [FINALIZER])]).

Definition ensure_finalizer (obj : StoreObj) : StoreObj :=
  if bool_decide (FINALIZER ∈ m_finalizers (o_metadata obj)) then obj
  else with_finalizers (m_finalizers (o_metadata obj) ++ [FINALIZER]) obj.

(** The operations on a tenant: its namespace, its secret, the installer *)
Definition is_tenant_op (c : call) : bool :=
  is_namespace_op c || is_secret_op c || is_installer_op c.

(** The steps that leave the namespaces as they are *)
Definition same_namespaces (w w' : World) : Prop :=
  w_namespaces w' = w_namespaces w.

(** The ownership proof: both labels, with this [storeId] *)
Definition owned_by (store_id : string) (labels : gmap string string) : Prop :=
  labels !! STORE_MANAGED_LABEL = Some "true" ∧ labels !! STORE_ID_LABEL = Some store_id.

(** What [_namespace_is_owned] answers when the read is served *)
Definition passes_ownership_check (store_id : string)
    (found : option (gmap string string)) : bool :=
  match found with
  | Some labels =>
      bool_decide (labels !! STORE_MANAGED_LABEL = Some "true")
      && bool_decide (labels !! STORE_ID_LABEL = Some store_id)
  | None => false
  end.

(** The object [remove_finalizer] leaves *)
Definition strip_finalizer (obj : StoreObj) : StoreObj :=
  if bool_decide (FINALIZER ∈ m_finalizers (o_metadata obj))
  then with_finalizers (filter (λ f, f ≠ FINALIZER) (m_finalizers (o_metadata obj))) obj
  else obj.

(** The [n] most recent records of a history *)
Definition most_recent {A} (n : nat) (l : list A) : list A :=
  drop (length l - n) l.

(** The pair [ensure_admin_secret] finds in a stored secret, if it finds one *)
Definition stored_credentials (secret : option (gmap string string))
    : option (string * string) :=
  match secret with
  | Some data =>
      match data !! "username", data !! "password" with
      | Some username, Some password =>
          if Py.truthy username && Py.truthy password
          then Some (username, password) else None
      | _, _ => None
      end
  | None => None
  end.

(** The calls that write a secret *)
Definition is_secret_write (c : call) : bool :=
  match c with
  | CreateSecret _ _ _ | PatchSecret _ _ _ => true
  | _ => false
  end.

(** The exception of the unsupported-engine path *)
Definition is_permanent (e : exn) : bool :=
  match e with
  | PermanentError _ => true
  | _ => false
  end.

(** Every exception but that one *)
Definition transient (e : exn) : Prop := is_permanent e = false.

(** The parts of the world a write to a Store object leaves alone *)
Definition same_but_stores (w w' : World) : Prop :=
  w_namespaces w' = w_namespaces w ∧ w_secrets w' = w_secrets w ∧
  w_gate w' = w_gate w ∧ w_rng w' = w_rng w ∧ w_helm w' = w_helm w.

(** The characters [rand_password] draws from: ASCII letters and digits *)
Definition is_alnum (c : Ascii.ascii) : bool :=
  let n := Ascii.nat_of_ascii c in
  ((48 <=? n) && (n <=? 57)) || ((65 <=? n) && (n <=? 90)) || ((97 <=? n) && (n <=? 122)).

(** The environment fails no API call at all. *)
Definition served (w : World) : Prop := Forall (λ o, o = None) (w_faults w).

(** The steps that only make calls: the cluster, the semaphore and the
    other sources of the environment are as before. *)
Definition same_cluster (w w' : World) : Prop :=
  w_stores w' = w_stores w ∧ w_namespaces w' = w_namespaces w ∧
  w_secrets w' = w_secrets w ∧ w_gate w' = w_gate w ∧
  w_clock w' = w_clock w ∧ w_rng w' = w_rng w ∧ w_helm w' = w_helm w.

(** The steps on a tenant's namespace that leave the Store objects, the
    namespaces, the semaphore, the installer's outcomes and the clock
    alone, extend the trace, and keep a served API served *)
Definition tenant_step (w w' : World) : Prop :=
  w_stores w' = w_stores w ∧ w_namespaces w' = w_namespaces w ∧
  w_gate w' = w_gate w ∧ w_helm w' = w_helm w ∧ w_clock w' = w_clock w ∧
  (served w → served w') ∧
  ∃ calls, w_trace w' = w_trace w ++ calls.

(** The steps that write nothing but the status of Store objects: the
    metadata and the spec of every Store, the namespaces, the secrets, the
    semaphore and the sources of the installer and of the passwords are as
    before. *)
Definition status_step (w w' : World) : Prop :=
  w_namespaces w' = w_namespaces w ∧ w_secrets w' = w_secrets w ∧
  w_gate w' = w_gate w ∧ w_helm w' = w_helm w ∧ w_rng w' = w_rng w ∧
  (∀ n, o_metadata <$> w_stores w' !! n = o_metadata <$> w_stores w !! n) ∧
  (∀ n, o_spec <$> w_stores w' !! n = o_spec <$> w_stores w !! n).

(** The steps whose calls all satisfy [P] *)
Definition makes_calls (P : call → Prop) (w w' : World) : Prop :=
  ∃ calls, w_trace w' = w_trace w ++ calls ∧ Forall P calls.

(** A wait for the semaphore is bounded by [MAX_PROVISION_SECONDS]. *)
Definition bounded_wait (cfg : Config) (c : call) : Prop :=
  match c with
  | SemaphoreAcquire timeout => timeout = MAX_PROVISION_SECONDS cfg
  | _ => True
  end.

(** A run of the installer installs the release of [handler] for
    [store_id], with the arguments of that handler and the time-out of
    [reconcile_store]. *)
Definition installs_with (cfg : Config) (handler : EngineHandler)
    (store_id : string) (c : call) : Prop :=
  match c with
  | RunHelm cmd timeout =>
      ∃ admin_user admin_password,
        cmd = HELM_BIN cfg
              :: build_helm_args cfg handler store_id (store_namespace cfg store_id)
                   (store_host cfg store_id) admin_user admin_password
        ∧ timeout = (MAX_PROVISION_SECONDS cfg + 60)%Z
  | _ => True
  end.

(** A run of the installer uninstalls that release, as [on_delete] does. *)
Definition uninstalls_with (cfg : Config) (handler : EngineHandler)
    (store_id : string) (c : call) : Prop :=
  match c with
  | RunHelm cmd timeout =>
      cmd = [HELM_BIN cfg; "uninstall"; build_release_name handler store_id;
             "-n"; store_namespace cfg store_id]
      ∧ timeout = 300%Z
  | _ => True
  end.

(** The steps that stay away from the tenant: the namespaces, the
    secrets, the installer's queue and the semaphore are as before, and no
    call is an operation on a namespace, on a secret or a run of the
    installer. *)
Definition away_from_tenant (w w' : World) : Prop :=
  w_namespaces w' = w_namespaces w ∧ w_secrets w' = w_secrets w ∧
  w_helm w' = w_helm w ∧ w_gate w' = w_gate w ∧
  makes_calls (λ c, is_tenant_op c = false) w w'.

(** The status write of the [except] clause of [reconcile_store] *)
Definition failure_write (cfg : Config) (name store_ns release : string)
    (generation : Z) (e : exn) : M unit :=
  patch_store_status cfg name (Some "Failed") (Some "Failed") (Some (str e))
    [("lastError", Some (VStr (str e)));
     ("releaseName", Some (VStr release));
     ("namespace", Some (VStr store_ns));
     ("observedGeneration", Some (VInt generation))]
    ["adminPassword"; "adminUser"].

End Operator.

(** ** The request layer: [src/apps/api/main.py] *)

Module Api.

Record Config := {
  APP_NAMESPACE : string;
  MAX_ACTIVE_STORES : Z;
  MAX_STORES_PER_IP : Z;
  CREATE_RATE_LIMIT : Z;
  RATE_WINDOW_SECONDS : Z;
  EVENTS_LIMIT : Z;
}.

Definition default_config : Config := {|
  APP_NAMESPACE := "store-platform";
  MAX_ACTIVE_STORES := 5;
  MAX_STORES_PER_IP := 3;
  CREATE_RATE_LIMIT := 5;
  RATE_WINDOW_SECONDS := 60;
  EVENTS_LIMIT := 20;
|}.

(** What happens to one request to the cluster: the environment may fail
    it, and another client may create or delete a Store just before it
    is served. *)
Inductive interference :=
| Quiet
| Fails (f : fault)
| RacingCreate (obj : StoreObj)
| RacingDelete (name : string).

(** The Store objects of the cluster, the rate-limit buckets of the
    process, and the environment: the readings of [time.time()], the
    creation timestamps the server hands out, and the interference. *)
Record World := {
  a_stores : gmap string StoreObj;
  _ip_create_requests : gmap string (list Q);
  a_time : list Q;
  a_server_time : list string;
  a_env : list interference;
}.

Abbreviation M := (M World).

Definition api : M unit := fun w =>
  let env := tail (a_env w) in
  let w' stores :=
    {| a_stores := stores; _ip_create_requests := _ip_create_requests w;
       a_time := a_time w; a_server_time := a_server_time w; a_env := env |} in
  match head (a_env w) with
  | Some (Fails f) => (Err (exn_of_fault f), w' (a_stores w))
  | Some (RacingCreate obj) =>
      (Ok tt, w' (<[m_name (o_metadata obj) := obj]> (a_stores w)))
  | Some (RacingDelete name) => (Ok tt, w' (delete name (a_stores w)))
  | _ => (Ok tt, w' (a_stores w))
  end.

(** The validated body of [POST /stores] *)
Record StoreCreateReq := {
  engine : string;
  storeId : string;
}.

Definition storeId_char (c : ascii) : bool :=
  let n := nat_of_ascii c in
  ((97 <=? n) && (n <=? 122)) || ((48 <=? n) && (n <=? 57)) || (n =? 45).

(** Validation of the two fields as the model class declares them; an
    absent [engine] takes the declared default. *)
Definition parse_StoreCreateReq (engine : option string) (storeId : string)
    : option StoreCreateReq :=
  let engine := default "woocommerce" engine in
  if (String.eqb engine "woocommerce" || String.eqb engine "medusa")
     && (3 <=? String.length storeId) && (String.length storeId <=? 32)
     && forallb storeId_char (String.list_ascii_of_string storeId)
  then Some {| engine := engine; storeId := storeId |}
  else None.

Record StoreResp := {
  r_storeId : string;
  r_engine : string;
  r_phase : string;
  r_url : option string;
  r_createdAt : option string;
  r_updatedAt : option string;
  r_lastError : option string;
  r_namespace : option string;
  r_releaseName : option string;
  r_events : list StoreEvent;
}.

(** The part of the HTTP request the handlers read *)
Record Request := {
  x_forwarded_for : option string;
  client_host : option string;
  user_agent : option string;
}.

(** [s.split(",")[0]] *)
Fixpoint before_comma (s : string) : string :=
  match s with
  | EmptyString => EmptyString
  | String c r => if Ascii.eqb c "," then EmptyString else String c (before_comma r)
  end.

(** [c.isspace()] for the code points below 256 *)
Definition isspace (c : ascii) : bool :=
  let n := nat_of_ascii c in
  ((9 <=? n) && (n <=? 13)) || ((28 <=? n) && (n <=? 32)) || (n =? 133) || (n =? 160).

Fixpoint lstrip (s : string) : string :=
  match s with
  | EmptyString => EmptyString
  | String c r => if isspace c then lstrip r else s
  end.

Fixpoint rstrip (s : string) : string :=
  match s with
  | EmptyString => EmptyString
  | String c r =>
      match rstrip r with
      | EmptyString => if isspace c then EmptyString else String c EmptyString
      | r' => String c r'
      end
  end.

Definition strip (s : string) : string := rstrip (lstrip s).

Definition _client_ip (request : Request) : string :=
  if Py.truthy_opt (x_forwarded_for request)
  then strip (before_comma (default "" (x_forwarded_for request)))
  else if Py.truthy_opt (client_host request) then default "" (client_host request)
  else "unknown".

(** [s.split(",")] *)
Fixpoint split_comma (s : string) : list string :=
  match s with
  | EmptyString => [EmptyString]
  | String c r =>
      if Ascii.eqb c "," then EmptyString :: split_comma r
      else match split_comma r with
           | [] => [String c EmptyString]
           | first :: others => String c first :: others
           end
  end.

(** The module-level [CORS_ALLOW_ORIGINS], from the value of the variable of
    that name ([None] when it is unset), and the [allow_origins] argument
    handed to the middleware *)
Definition CORS_ALLOW_ORIGINS (env : option string) : list string :=
  strip <$> filter (fun origin => Py.truthy (strip origin) = true)
              (split_comma (default "*" env)).

Definition allow_origins (env : option string) : list string :=
  match CORS_ALLOW_ORIGINS env with
  | [] => ["*"]
  | origins => origins
  end.

Record StoreEventsResp := {
  e_storeId : string;
  e_events : list StoreEvent;
}.

(** The dictionary [delete_store] answers with *)
Record DeleteResp := {
  d_deleted : bool;
  d_storeId : string;
  d_reason : option string;
}.

Definition with_deletionTimestamp (t : option string) (o : StoreObj) : StoreObj :=
  {| o_metadata :=
       {| m_name := m_name (o_metadata o);
          m_finalizers := m_finalizers (o_metadata o);
          m_generation := m_generation (o_metadata o);
          m_deletionTimestamp := t;
          m_creationTimestamp := m_creationTimestamp (o_metadata o) |};
     o_spec := o_spec o;
     o_status := o_status o |}.

Section WithConfig.

Context (cfg : Config).

(** [time.time()] *)
Definition time : M Q := fun w =>
  (Ok (default 0%Q (head (a_time w))),
   {| a_stores := a_stores w; _ip_create_requests := _ip_create_requests w;
      a_time := tail (a_time w); a_server_time := a_server_time w;
      a_env := a_env w |}).

Definition set_bucket (ip : string) (bucket : list Q) : M unit := fun w =>
  (Ok tt,
   {| a_stores := a_stores w;
      _ip_create_requests := <[ip := bucket]> (_ip_create_requests w);
      a_time := a_time w; a_server_time := a_server_time w; a_env := a_env w |}).

(** The [while bucket and (now - bucket[0]) > RATE_WINDOW_SECONDS] loop *)
Fixpoint expire (now : Q) (bucket : list Q) : list Q :=
  match bucket with
  | [] => []
  | t :: rest =>
      if negb (Qle_bool (now - t)%Q (inject_Z (RATE_WINDOW_SECONDS cfg)))
      then expire now rest
      else bucket
  end.

Definition _check_create_rate_limit (ip : string) : M unit :=
  now <- time ;;
  bucket <- (fun w => (Ok (default [] (_ip_create_requests w !! ip)), w)) ;;
  let bucket := expire now bucket in
  set_bucket ip bucket ;;
  if (CREATE_RATE_LIMIT cfg <=? Z.of_nat (length bucket))%Z then
    raise (HTTPException 429
             ("Rate limit exceeded for " +:+ ip +:+ ": "
              +:+ pretty (CREATE_RATE_LIMIT cfg) +:+ " creates/"
              +:+ pretty (RATE_WINDOW_SECONDS cfg) +:+ "s"))
  else set_bucket ip (bucket ++ [now]).

Definition k8s_error {A} (e : exn) : M A :=
  raise (HTTPException 500 ("K8s error: " +:+ reason e)).

Definition _list_store_objects : M (list StoreObj) :=
  try_except
    (api ;; fun w => (Ok (snd <$> map_to_list (a_stores w)), w))
    (on_api_exception (fun _ e => k8s_error e)).

(** The fields of [status] are typed by the resource definition. *)
Definition get_str (status : gmap string value) (key : string) : option string :=
  match status !! key with
  | Some (VStr s) => Some s
  | _ => None
  end.

Definition or_opt (a b : option string) : option string :=
  if Py.truthy_opt a then a else b.

Definition _to_store_resp (item : StoreObj) : StoreResp :=
  let spec := o_spec item in
  let status := o_status item in
  let events :=
    Py.slice_to (EVENTS_LIMIT cfg)
      (match status !! "events" with Some (VEvents l) => l | _ => [] end) in
  {| r_storeId := Py.or_else (sp_storeId spec) (m_name (o_metadata item));
     r_engine := default "" (sp_engine spec);
     r_phase := default "Provisioning" (get_str status "phase");
     r_url := get_str status "url";
     r_createdAt := or_opt (get_str status "createdAt")
                      (m_creationTimestamp (o_metadata item));
     r_updatedAt := get_str status "updatedAt";
     r_lastError := get_str status "lastError";
     r_namespace := get_str status "namespace";
     r_releaseName := get_str status "releaseName";
     r_events := events |}.

Definition _get_store_or_none (store_id : string) : M (option StoreObj) :=
  try_except
    (api ;;
     fun w => match a_stores w !! store_id with
              | Some obj => (Ok (Some obj), w)
              | None => not_found w
              end)
    (on_api_exception (fun status e =>
       if (status =? 404)%Z then ret None else k8s_error e)).

Definition _enforce_store_quotas (items : list StoreObj) (caller_ip : string) : M unit :=
  let active :=
    filter (fun it => Py.truthy_opt (m_deletionTimestamp (o_metadata it)) = false) items in
  if (MAX_ACTIVE_STORES cfg <=? Z.of_nat (length active))%Z then
    raise (HTTPException 409
             ("Global store quota reached (" +:+ pretty (MAX_ACTIVE_STORES cfg) +:+ ")"))
  else
    let same_ip :=
      length (filter (fun it => sp_requestedBy_ip (o_spec it) = Some caller_ip) active) in
    if (MAX_STORES_PER_IP cfg <=? Z.of_nat same_ip)%Z then
      raise (HTTPException 409
               ("Per-IP store quota reached (" +:+ pretty (MAX_STORES_PER_IP cfg)
                +:+ ") for " +:+ caller_ip))
    else ret tt.

(** The server side of the create: refused when the name is taken,
    otherwise the object is stored with a creation timestamp. *)
Definition create_namespaced_custom_object (name : string) (spec : StoreSpec) : M StoreObj :=
  api ;;
  fun w => match a_stores w !! name with
           | Some _ => conflict w
           | None =>
               let obj :=
                 {| o_metadata :=
                      {| m_name := name; m_finalizers := []; m_generation := Some 1%Z;
                         m_deletionTimestamp := None;
                         m_creationTimestamp := head (a_server_time w) |};
                    o_spec := spec;
                    o_status := ∅ |} in
               (Ok obj,
                {| a_stores := <[name := obj]> (a_stores w);
                   _ip_create_requests := _ip_create_requests w;
                   a_time := a_time w;
                   a_server_time := tail (a_server_time w);
                   a_env := a_env w |})
           end.

Definition already_exists (store_id : string) (existing_engine : option string) : string :=
  "StoreId '" +:+ store_id +:+ "' already exists with engine '"
  +:+ default "None" existing_engine +:+ "'".

Definition create_store (req : StoreCreateReq) (request : Request) : M StoreResp :=
  let caller_ip := _client_ip request in
  _check_create_rate_limit caller_ip ;;
  existing <- _get_store_or_none (storeId req) ;;
  match existing with
  | Some existing =>
      let existing_engine := sp_engine (o_spec existing) in
      if negb (bool_decide (existing_engine = Some (engine req))) then
        raise (HTTPException 409 (already_exists (storeId req) existing_engine))
      else ret (_to_store_resp existing)
  | None =>
      items <- _list_store_objects ;;
      _enforce_store_quotas items caller_ip ;;
      let spec := {| sp_engine := Some (engine req);
                     sp_storeId := Some (storeId req);
                     sp_requestedBy_ip := Some caller_ip;
                     sp_requestedBy_userAgent :=
                       Some (default "unknown" (user_agent request)) |} in
      try_except
        (obj <- create_namespaced_custom_object (storeId req) spec ;;
         ret (_to_store_resp obj))
        (on_api_exception (fun status e =>
           if (status =? 409)%Z then
             existing_after_race <- _get_store_or_none (storeId req) ;;
             match existing_after_race with
             | Some existing_after_race =>
                 let existing_engine := sp_engine (o_spec existing_after_race) in
                 if negb (bool_decide (existing_engine = Some (engine req))) then
                   raise (HTTPException 409
                            (already_exists (storeId req) existing_engine))
                 else ret (_to_store_resp existing_after_race)
             | None => raise (HTTPException 409 "StoreId already exists")
             end
           else k8s_error e))
  end.

(** The key [list_stores] sorts by, and the sort: [list.sort] is stable,
    with [reverse=True] too, so records with equal keys stay in the order
    in which the list had them. *)
Definition created_key (s : StoreResp) : string := Py.or_else (r_createdAt s) "".

Fixpoint insert_newest_first (s : StoreResp) (sorted : list StoreResp) : list StoreResp :=
  match sorted with
  | [] => [s]
  | t :: rest =>
      if String.ltb (created_key s) (created_key t)
      then t :: insert_newest_first s rest
      else s :: sorted
  end.

Definition sort_newest_first (stores : list StoreResp) : list StoreResp :=
  foldr insert_newest_first [] stores.

Definition list_stores : M (list StoreResp) :=
  items <- _list_store_objects ;;
  ret (sort_newest_first (_to_store_resp <$> items)).

Definition get_store (store_id : string) : M StoreResp :=
  obj <- _get_store_or_none store_id ;;
  match obj with
  | None => raise (HTTPException 404 "Not found")
  | Some obj => ret (_to_store_resp obj)
  end.

Definition get_store_events (store_id : string) : M StoreEventsResp :=
  obj <- _get_store_or_none store_id ;;
  match obj with
  | None => raise (HTTPException 404 "Not found")
  | Some obj =>
      let resp := _to_store_resp obj in
      ret {| e_storeId := store_id; e_events := r_events resp |}
  end.

(** The server side of the delete: an object that carries finalizers is
    marked with a deletion timestamp and stays until they are gone; one
    without is removed. *)
Definition delete_namespaced_custom_object (name : string) : M unit :=
  api ;;
  fun w => match a_stores w !! name with
           | None => not_found w
           | Some obj =>
               match m_finalizers (o_metadata obj), m_deletionTimestamp (o_metadata obj) with
               | [], _ =>
                   (Ok tt,
                    {| a_stores := delete name (a_stores w);
                       _ip_create_requests := _ip_create_requests w;
                       a_time := a_time w; a_server_time := a_server_time w;
                       a_env := a_env w |})
               | _ :: _, Some _ => (Ok tt, w)
               | _ :: _, None =>
                   (Ok tt,
                    {| a_stores :=
                         <[name := with_deletionTimestamp (head (a_server_time w)) obj]>
                           (a_stores w);
                       _ip_create_requests := _ip_create_requests w;
                       a_time := a_time w;
                       a_server_time := tail (a_server_time w);
                       a_env := a_env w |})
               end
           end.

Definition delete_store (store_id : string) : M DeleteResp :=
  try_except
    (delete_namespaced_custom_object store_id ;;
     ret {| d_deleted := true; d_storeId := store_id; d_reason := None |})
    (on_api_exception (fun status e =>
       if (status =? 404)%Z
       then ret {| d_deleted := false; d_storeId := store_id;
                   d_reason := Some "NotFound" |}
       else k8s_error e)).

End WithConfig.

(** *** Vocabulary for the properties below *)

(** The creates of one caller that still count at the next request *)
Definition counted (cfg : Config) (ip : string) (w : World) : list Q :=
  expire cfg (default 0%Q (head (a_time w)))
    (default [] (_ip_create_requests w !! ip)).

(** The caller is below the rate limit. *)
Definition within_rate_limit (cfg : Config) (ip : string) (w : World) : Prop :=
  (Z.of_nat (length (counted cfg ip w)) < CREATE_RATE_LIMIT cfg)%Z.

(** The quotas admit one more Store for the caller. *)
Definition within_quotas (cfg : Config) (items : list StoreObj) (ip : string) : Prop :=
  ∀ w, _enforce_store_quotas cfg items ip w = (Ok tt, w).

(** The answer of [create_store] for a Store that exists already *)
Definition idempotent_answer (cfg : Config) (req : StoreCreateReq)
    (existing : StoreObj) : result StoreResp :=
  if bool_decide (sp_engine (o_spec existing) = Some (engine req))
  then Ok (_to_store_resp cfg existing)
  else Err (HTTPException 409
              (already_exists (storeId req) (sp_engine (o_spec existing)))).

(** The recorded creates of a caller *)
Definition bucket_of (ip : string) (w : World) : list Q :=
  default [] (_ip_create_requests w !! ip).

(** A create at time [t] still counts at time [now]. *)
Definition fresh (cfg : Config) (now t : Q) : Prop :=
  (now - t <= inject_Z (RATE_WINDOW_SECONDS cfg))%Q.

(** The Stores that count toward the quotas, and those a caller asked for *)
Definition active_stores (items : list StoreObj) : list StoreObj :=
  filter (λ it, Py.truthy_opt (m_deletionTimestamp (o_metadata it)) = false) items.

Definition requested_by (ip : string) (items : list StoreObj) : list StoreObj :=
  filter (λ it, sp_requestedBy_ip (o_spec it) = Some ip) items.

(** A list of representations with the newest first: each record is
    followed by one created at the same instant or earlier. *)
Definition newest_first (stores : list StoreResp) : Prop :=
  Sorted (λ a b, String.leb (created_key b) (created_key a) = true) stores.

(** The next request to the cluster is served as the cluster stands. *)
Definition quiet_next (w : World) : Prop :=
  head (a_env w) = None ∨ head (a_env w) = Some Quiet.

(** The world after one request to the cluster that changed nothing *)
Definition after_request (w : World) : World :=
  {| a_stores := a_stores w; _ip_create_requests := _ip_create_requests w;
     a_time := a_time w; a_server_time := a_server_time w;
     a_env := tail (a_env w) |}.

(** The spec [create_store] writes for a request *)
Definition requested_spec (req : StoreCreateReq) (request : Request) : StoreSpec :=
  {| sp_engine := Some (engine req);
     sp_storeId := Some (storeId req);
     sp_requestedBy_ip := Some (_client_ip request);
     sp_requestedBy_userAgent := Some (default "unknown" (user_agent request)) |}.

(** What the cluster client raises: an [ApiException], or an error below
    HTTP *)
Definition cluster_error (e : exn) : Prop :=
  match e with
  | ApiException _ _ _ | OtherError _ => True
  | _ => False
  end.

(** What a handler of the request layer lets out: an [HTTPException] with
    one of its four status codes, or an error below HTTP that the cluster
    client raised *)
Definition handler_error (e : exn) : Prop :=
  match e with
  | HTTPException code _ => code ∈ [404; 409; 429; 500]%Z
  | OtherError _ => True
  | _ => False
  end.

End Api.

(** ** A worked example

    One Store, [acme], in the platform namespace of a cluster configured
    with the defaults; the runs at the end of the file start from here. *)

Section Acme.

Import Operator.

Definition acme_spec (engine : option string) : StoreSpec :=
  {| sp_engine := engine; sp_storeId := Some "acme";
     sp_requestedBy_ip := Some "10.0.0.7";
     sp_requestedBy_userAgent := Some "curl" |}.

Definition acme_meta (finalizers : list string) : ObjectMeta :=
  {| m_name := "acme"; m_finalizers := finalizers; m_generation := Some 3%Z;
     m_deletionTimestamp := None; m_creationTimestamp := Some "2024-05-01T10:00:00Z" |}.

Definition acme (engine : option string) (finalizers : list string)
    (status : gmap string value) : StoreObj :=
  {| o_metadata := acme_meta finalizers; o_spec := acme_spec engine; o_status := status |}.

(** A cluster that holds [obj] under the name [acme] *)
Definition cluster (obj : StoreObj) (namespaces : gmap string (gmap string string))
    (secrets : gmap (string * string) (gmap string string)) (gate : nat)
    (faults : list (option fault)) (helm : list helm_outcome) : World :=
  {| w_stores := {[ "acme" := obj ]}; w_namespaces := namespaces; w_secrets := secrets;
     w_gate := gate; w_clock := []; w_rng := []; w_faults := faults; w_helm := helm;
     w_trace := [] |}.

Definition provisioning : gmap string value := {[ "phase" := VStr "Provisioning" ]}.

Definition tampered_labels : gmap string string :=
  {[ STORE_MANAGED_LABEL := "true"; STORE_ID_LABEL := "someone-else" ]}.

Definition acme_labels : gmap string string :=
  {[ STORE_MANAGED_LABEL := "true"; STORE_ID_LABEL := "acme" ]}.

Definition gone : fault := ApiFault 404 "Not Found" "(404) Reason: Not Found".

Definition issued : gmap string string :=
  {[ "username" := "admin"; "password" := "s3cretS3cretS3cret00"; "storeId" := "acme" ]}.

Definition some_events (n : nat) : list StoreEvent :=
  replicate n {| ev_type := "NamespaceReady"; ev_message := "again"; ev_timestamp := "t" |}.

Definition zero_capacity : Config :=
  {| PLATFORM_NAMESPACE := "store-platform"; BASE_DOMAIN := "127.0.0.1.nip.io";
     URL_SCHEME := "http"; INGRESS_CLASS := "nginx"; STORE_NS_PREFIX := "store-";
     STORAGE_CLASS := ""; MAX_PROVISION_SECONDS := 900; MAX_CONCURRENT_PROVISIONS := 2;
     MAX_STATUS_EVENTS := 0; HELM_BIN := "helm";
     CHART_WOOCOMMERCE := "/charts/woocommerce"; CHART_MEDUSA := "/charts/medusa";
     ADMIN_SECRET_NAME := "store-admin" |}.

Definition internal_error : fault :=
  ApiFault 500 "Internal Server Error" "(500) Reason: Internal Server Error".

Definition unavailable : fault :=
  ApiFault 503 "Service Unavailable" "(503) Reason: Service Unavailable".

Definition create_acme (engine : string) : Api.StoreCreateReq :=
  {| Api.engine := engine; Api.storeId := "acme" |}.

Definition from_10_0_0_7 : Api.Request :=
  {| Api.x_forwarded_for := None; Api.client_host := Some "10.0.0.7";
     Api.user_agent := Some "curl" |}.

(** The request layer at time 6, the caller having created Stores at the
    given times *)
Definition request_layer (earlier : list Q) : Api.World :=
  {| Api.a_stores := {[ "acme" := acme (Some "medusa") [FINALIZER] provisioning ]};
     Api._ip_create_requests := {[ "10.0.0.7" := earlier ]};
     Api.a_time := [6%Q]; Api.a_server_time := []; Api.a_env := [] |}.

(** The status of a Store whose last provisioning failed *)
Definition failed_once : gmap string value :=
  {[ "phase" := VStr "Failed"; "lastError" := VStr "helm failed: timed out";
     "createdAt" := VStr "2024-05-01T10:00:02Z" ]}.

Definition create_bravo : Api.StoreCreateReq :=
  {| Api.engine := "woocommerce"; Api.storeId := "bravo" |}.

(** The request layer with nothing in the way of its next four requests *)
Definition quiet_layer : Api.World :=
  {| Api.a_stores := {[ "acme" := acme (Some "medusa") [FINALIZER] provisioning ]};
     Api._ip_create_requests := {[ "10.0.0.7" := [1%Q] ]};
     Api.a_time := [6%Q]; Api.a_server_time := ["2024-05-02T08:00:00Z"];
     Api.a_env := [Api.Quiet; Api.Quiet; Api.Quiet; Api.Quiet] |}.

(** A Store [bravo] that another client creates *)
Definition bravo (engine : string) : StoreObj :=
  {| o_metadata :=
       {| m_name := "bravo"; m_finalizers := []; m_generation := Some 1%Z;
          m_deletionTimestamp := None;
          m_creationTimestamp := Some "2024-05-02T08:00:00Z" |};
     o_spec :=
       {| sp_engine := Some engine; sp_storeId := Some "bravo";
          sp_requestedBy_ip := Some "10.0.0.9";
          sp_requestedBy_userAgent := Some "curl" |};
     o_status := ∅ |}.

(** The request layer when that client's create arrives between the
    caller's list request and the caller's own create *)
Definition racing_layer (engine : string) : Api.World :=
  {| Api.a_stores := {[ "acme" := acme (Some "medusa") [FINALIZER] provisioning ]};
     Api._ip_create_requests := {[ "10.0.0.7" := [1%Q] ]};
     Api.a_time := [6%Q]; Api.a_server_time := ["2024-05-02T08:00:01Z"];
     Api.a_env := [Api.Quiet; Api.Quiet; Api.RacingCreate (bravo engine); Api.Quiet] |}.

(** A configuration with a negative capacity for the event history *)
Definition negative_capacity : Config :=
  {| PLATFORM_NAMESPACE := "store-platform"; BASE_DOMAIN := "127.0.0.1.nip.io";
     URL_SCHEME := "http"; INGRESS_CLASS := "nginx"; STORE_NS_PREFIX := "store-";
     STORAGE_CLASS := ""; MAX_PROVISION_SECONDS := 900; MAX_CONCURRENT_PROVISIONS := 2;
     MAX_STATUS_EVENTS := -1; HELM_BIN := "helm";
     CHART_WOOCOMMERCE := "/charts/woocommerce"; CHART_MEDUSA := "/charts/medusa";
     ADMIN_SECRET_NAME := "store-admin" |}.

End Acme.

(** * Properties *)

(** ** Running a computation step by step *)

Section Steps.

Context {S : Type}.

Lemma bind_ok {A B} (m : M S A) (k : A → M S B) w a w' :
  m w = (Ok a, w') → bind m k w = k a w'.
Proof. intros H. unfold bind. by rewrite H. Qed.

Lemma bind_err {A B} (m : M S A) (k : A → M S B) w e w' :
  m w = (Err e, w') → bind m k w = (Err e, w').
Proof. intros H. unfold bind. by rewrite H. Qed.

Lemma try_except_ok {A} (m : M S A) h w a w' :
  m w = (Ok a, w') → try_except m h w = (Ok a, w').
Proof. intros H. unfold try_except. by rewrite H. Qed.

Lemma try_except_caught {A} (m : M S A) h w e w' k :
  m w = (Err e, w') → h e = Some k → try_except m h w = k w'.
Proof. intros H Hh. unfold try_except. by rewrite H, Hh. Qed.

Lemma try_except_missed {A} (m : M S A) h w e w' :
  m w = (Err e, w') → h e = None → try_except m h w = (Err e, w').
Proof. intros H Hh. unfold try_except. by rewrite H, Hh. Qed.

Context (R : relation S) `{!PreOrder R}.

Lemma keeps_ret {A} (a : A) : keeps R (ret a).
Proof. intros w. simpl. reflexivity. Qed.

Lemma keeps_raise {A} e : keeps R (@raise S A e).
Proof. intros w. simpl. reflexivity. Qed.

Lemma keeps_bind {A B} (m : M S A) (k : A → M S B) :
  keeps R m → (∀ a, keeps R (k a)) → keeps R (bind m k).
Proof.
  intros Hm Hk w. unfold bind. specialize (Hm w).
  destruct (m w) as [[a|e] w1]; simpl in *; [|done].
  etrans; [exact Hm | apply Hk].
Qed.

Lemma keeps_try_except {A} (m : M S A) h :
  keeps R m → (∀ e k, h e = Some k → keeps R k) → keeps R (try_except m h).
Proof.
  intros Hm Hh w. unfold try_except. specialize (Hm w).
  destruct (m w) as [[a|e] w1]; simpl in *; [done|].
  destruct (h e) as [k|] eqn:E; [|done].
  etrans; [exact Hm | by eapply Hh].
Qed.

Lemma keeps_on_api_exception {A} (m : M S A) body :
  keeps R m → (∀ s e, keeps R (body s e)) →
  keeps R (try_except m (on_api_exception body)).
Proof.
  intros Hm Hb. apply keeps_try_except; [done|].
  intros [] k [= <-]; apply Hb.
Qed.

Lemma keeps_on_exception {A} (m : M S A) body :
  keeps R m → (∀ e, keeps R (body e)) →
  keeps R (try_except m (on_exception body)).
Proof.
  intros Hm Hb. apply keeps_try_except; [done|].
  intros e k [= <-]; apply Hb.
Qed.

Lemma keeps_try_finally {A} (m : M S A) f :
  keeps R m → keeps R f → keeps R (try_finally m f).
Proof.
  intros Hm Hf w. unfold try_finally. specialize (Hm w).
  destruct (m w) as [r w1]; simpl in *. specialize (Hf w1).
  destruct (f w1) as [[[]|e] w2]; simpl in *; by etrans.
Qed.

End Steps.

Section Throws.

Context {S : Type} (P : exn → Prop).

Lemma throws_ret {A} (a : A) : throws P (@ret S A a).
Proof. by intros w e. Qed.

Lemma throws_raise {A} e : P e → throws P (@raise S A e).
Proof. by intros He w e' [= <-]. Qed.

Lemma throws_bind {A B} (m : M S A) (k : A → M S B) :
  throws P m → (∀ a, throws P (k a)) → throws P (bind m k).
Proof.
  intros Hm Hk w e. unfold bind. specialize (Hm w).
  destruct (m w) as [[a|e'] w1]; simpl in *; [apply Hk|].
  intros [= <-]. by apply Hm.
Qed.

Lemma throws_try_except {A} (m : M S A) h :
  throws P m → (∀ e k, h e = Some k → throws P k) → throws P (try_except m h).
Proof.
  intros Hm Hh w e. unfold try_except. specialize (Hm w).
  destruct (m w) as [[a|e'] w1]; simpl in *; [done|].
  destruct (h e') as [k|] eqn:E; [by eapply Hh|].
  intros [= <-]. by apply Hm.
Qed.

Lemma throws_on_api_exception {A} (m : M S A) body :
  throws P m → (∀ s e, P e → throws P (body s e)) →
  throws P (try_except m (on_api_exception body)).
Proof.
  intros Hm Hb w e. unfold try_except. pose proof (Hm w) as Hw.
  destruct (m w) as [[a|e'] w1]; simpl in *; [done|].
  destruct e'; simpl; try (intros [= <-]; by apply Hw).
  apply Hb. by apply Hw.
Qed.

Lemma throws_on_exception {A} (m : M S A) body :
  throws P m → (∀ e, P e → throws P (body e)) →
  throws P (try_except m (on_exception body)).
Proof.
  intros Hm Hb w e. unfold try_except. pose proof (Hm w) as Hw.
  destruct (m w) as [[a|e'] w1]; simpl in *; [done|]. apply Hb. by apply Hw.
Qed.

Lemma throws_try_finally {A} (m : M S A) f :
  throws P m → throws P f → throws P (try_finally m f).
Proof.
  intros Hm Hf w e. unfold try_finally. specialize (Hm w).
  destruct (m w) as [r w1]; simpl in *. specialize (Hf w1).
  destruct (f w1) as [[[]|e'] w2]; simpl in *.
  - intros ->. by apply Hm.
  - intros [= <-]. by apply Hf.
Qed.

Lemma throws_translated {A} (Q : exn → Prop) (m : M S A) body :
  throws Q m →
  (∀ s r t, throws P (body s (ApiException s r t))) →
  (∀ e, Q e → (∀ s r t, e ≠ ApiException s r t) → P e) →
  throws P (try_except m (on_api_exception body)).
Proof.
  intros Hm Hb Hrest w e. unfold try_except. pose proof (Hm w) as Hw.
  destruct (m w) as [[a|e'] w1]; simpl in *; [done|].
  destruct e'; simpl; try (intros [= <-]; apply Hrest; [by apply Hw | done]).
  apply Hb.
Qed.

End Throws.

(** ** The controller *)

Import Operator.

Ltac keeps_structure :=
  lazymatch goal with
  | |- keeps _ (bind _ _) => apply keeps_bind; [tc_solve | | intros ?]
  | |- keeps _ (ret _) => apply keeps_ret; tc_solve
  | |- keeps _ (raise _) => apply keeps_raise; tc_solve
  | |- keeps _ not_found => apply keeps_raise; tc_solve
  | |- keeps _ conflict => apply keeps_raise; tc_solve
  | |- keeps _ (try_except _ (on_api_exception _)) =>
      apply keeps_on_api_exception; [tc_solve | | intros ? ?]
  | |- keeps _ (try_except _ (on_exception _)) =>
      apply keeps_on_exception; [tc_solve | | intros ?]
  | |- keeps _ (try_finally _ _) => apply keeps_try_finally; [tc_solve | |]
  | |- keeps _ (if ?b then _ else _) => destruct b
  | |- keeps _ (match ?x with _ => _ end) => destruct x
  end.

Ltac world_proj :=
  cbn [w_stores w_namespaces w_secrets w_gate w_clock w_rng w_faults w_helm w_trace
       set_stores set_namespaces set_secrets set_gate set_clock set_rng set_faults
       set_helm set_trace fst snd].

Ltac world_step :=
  cbn [w_stores w_namespaces w_secrets w_gate w_clock w_rng w_faults w_helm w_trace
       set_stores set_namespaces set_secrets set_gate set_clock set_rng set_faults
       set_helm set_trace fst snd on_api_exception on_exception exn_of_fault
       negb Z.eqb Pos.eqb conflict not_found raise ret].

Section GateUntouched.

Context (cfg : Config).

#[local] Instance quiet_gate_preorder : PreOrder quiet_gate.
Proof.
  split.
  - intros w. split; [done|]. exists []. rewrite app_nil_r. split; [done|constructor].
  - intros w1 w2 w3 [Hg1 (l1 & Ht1 & Hl1)] [Hg2 (l2 & Ht2 & Hl2)].
    split; [congruence|]. exists (l1 ++ l2).
    rewrite Ht2, Ht1, app_assoc. split; [done|]. by apply Forall_app.
Qed.

Lemma quiet_gate_same w w' :
  w_gate w' = w_gate w → w_trace w' = w_trace w → quiet_gate w w'.
Proof.
  intros Hg Ht. split; [done|]. exists []. rewrite app_nil_r. split; [done|constructor].
Qed.

Lemma quiet_gate_call c w w' :
  w_gate w' = w_gate w → w_trace w' = w_trace w ++ [c] →
  is_semaphore_op c = false → quiet_gate w w'.
Proof.
  intros Hg Ht Hc. split; [done|]. exists [c]. split; [done|].
  by repeat constructor.
Qed.

Ltac quiet_leaf :=
  let w := fresh "w" in
  intros w; unfold not_found, conflict, raise; cbn;
  repeat case_match; cbn;
  first [ by apply quiet_gate_same | by eapply quiet_gate_call ].

Create HintDb quiet discriminated.

Ltac quiet := repeat first [ keeps_structure | solve [eauto with quiet] | quiet_leaf ].

Lemma quiet_api c : is_semaphore_op c = false → keeps quiet_gate (api c).
Proof. intros Hc w. unfold api. cbn. repeat case_match; cbn; by eapply quiet_gate_call. Qed.
#[local] Hint Resolve quiet_api : quiet.

Lemma quiet_now_iso : keeps quiet_gate now_iso.
Proof. quiet. Qed.
#[local] Hint Resolve quiet_now_iso : quiet.

Lemma quiet_get_store name : keeps quiet_gate (get_store name).
Proof. unfold get_store. quiet. Qed.
#[local] Hint Resolve quiet_get_store : quiet.

Lemma quiet_patch_store_status name phase ety emsg sets drops :
  keeps quiet_gate (patch_store_status cfg name phase ety emsg sets drops).
Proof.
  unfold patch_store_status, _safe_patch_store_status,
    patch_namespaced_custom_object_status. quiet.
Qed.
#[local] Hint Resolve quiet_patch_store_status : quiet.

Lemma quiet_rand_chars n : keeps quiet_gate (rand_chars n).
Proof. induction n; simpl; unfold secrets_choice; quiet. Qed.
#[local] Hint Resolve quiet_rand_chars : quiet.

Lemma quiet_run_helm args t : keeps quiet_gate (run_helm cfg args t).
Proof. unfold run_helm, subprocess_run. quiet. Qed.
#[local] Hint Resolve quiet_run_helm : quiet.

Lemma quiet_add_finalizer name : keeps quiet_gate (add_finalizer name).
Proof. unfold add_finalizer, patch_namespaced_custom_object. quiet. Qed.
#[local] Hint Resolve quiet_add_finalizer : quiet.

Lemma quiet_ensure_namespace ns store_id : keeps quiet_gate (ensure_namespace ns store_id).
Proof.
  unfold ensure_namespace, read_namespace, patch_namespace, create_namespace. quiet.
Qed.
#[local] Hint Resolve quiet_ensure_namespace : quiet.

Lemma quiet_create_or_patch c p :
  is_semaphore_op c = false → is_semaphore_op p = false →
  keeps quiet_gate (create_or_patch c p).
Proof. intros. unfold create_or_patch. quiet. Qed.
#[local] Hint Resolve quiet_create_or_patch : quiet.

Lemma quiet_ensure_namespace_resources ns :
  keeps quiet_gate (ensure_namespace_resources ns).
Proof.
  unfold ensure_namespace_resources, apply_resourcequota, apply_limitrange,
    apply_networkpolicy_default_deny, apply_networkpolicy_allow_required. quiet.
Qed.
#[local] Hint Resolve quiet_ensure_namespace_resources : quiet.

Lemma quiet_ensure_admin_secret ns store_id :
  keeps quiet_gate (ensure_admin_secret cfg ns store_id).
Proof.
  unfold ensure_admin_secret, read_namespaced_secret, create_namespaced_secret,
    patch_namespaced_secret, rand_password. quiet.
Qed.
#[local] Hint Resolve quiet_ensure_admin_secret : quiet.

Lemma quiet_reconcile_store_guarded name store_id store_ns host release generation handler :
  keeps quiet_gate
    (reconcile_store_guarded cfg name store_id store_ns host release generation handler).
Proof. unfold reconcile_store_guarded, post_ready_checks. quiet. Qed.

Lemma quiet_reconcile_store_failed name store_ns release generation e :
  keeps quiet_gate (reconcile_store_failed cfg name store_ns release generation e).
Proof. unfold reconcile_store_failed. quiet. Qed.

(** C5. Under every schedule of failures, a [reconcile_store] call leaves
    the number of free permits as it found it.  Its calls are of three
    shapes: no semaphore operation at all (the call ended before the gate);
    one acquire with [MAX_PROVISION_SECONDS] that found no permit, and no
    release; or one acquire followed, after calls that are no semaphore
    operations, by exactly one release as the very last call. *)
Theorem gate_released_on_every_path name namespace spec meta w :
  (Z.of_nat (w_gate w) ≤ MAX_CONCURRENT_PROVISIONS cfg)%Z →
  let w' := (reconcile_store cfg name namespace spec meta w).2 in
  w_gate w' = w_gate w ∧
  ∃ l, w_trace w' = w_trace w ++ l ∧
    (no_semaphore_op l
     ∨ (w_gate w = 0 ∧ ∃ pre post,
          l = pre ++ SemaphoreAcquire (MAX_PROVISION_SECONDS cfg) :: post
          ∧ no_semaphore_op pre ∧ no_semaphore_op post)
     ∨ (0 < w_gate w ∧ ∃ pre mid,
          l = pre ++ SemaphoreAcquire (MAX_PROVISION_SECONDS cfg) :: mid ++ [SemaphoreRelease]
          ∧ no_semaphore_op pre ∧ no_semaphore_op mid)).
Proof.
  intros Hbound. cbv zeta.
  destruct (reconcile_store cfg name namespace spec meta w) as [r w'] eqn:Hrun.
  simpl. revert Hrun. unfold reconcile_store.
  destruct (negb _).
  { intros [= _ <-]. split; [done|]. exists []. rewrite app_nil_r.
    split; [done|]. left. constructor. }
  destruct (ENGINE_HANDLERS cfg !! _) as [handler|].
  2:{ intros Hrun.
      match type of Hrun with ?m w = _ =>
        assert (keeps quiet_gate m) as Hk by quiet; specialize (Hk w) end.
      rewrite Hrun in Hk. destruct Hk as [Hg (l & Hl & Hn)].
      split; [done|]. exists l. split; [done|]. by left. }
  cbv zeta. unfold bind at 1.
  pose proof (quiet_add_finalizer name w) as Hq1.
  destruct (add_finalizer name w) as [[[]|e1] w1]; simpl in Hq1.
  2:{ intros [= _ <-]. destruct Hq1 as [Hg (l & Hl & Hn)].
      split; [done|]. exists l. split; [done|]. by left. }
  unfold bind at 1.
  match goal with |- context [patch_store_status cfg name ?a ?b ?c ?d ?e w1] =>
    pose proof (quiet_patch_store_status name a b c d e w1) as Hq2;
    destruct (patch_store_status cfg name a b c d e w1) as [[[]|e2] w2] end;
    simpl in Hq2.
  2:{ intros [= _ <-]. destruct (transitivity Hq1 Hq2) as [Hg (l & Hl & Hn)].
      split; [done|]. exists l. split; [done|]. by left. }
  pose proof (transitivity Hq1 Hq2) as [Hg (pre & Hpre & Hnpre)]. clear Hq1 Hq2.
  unfold bind at 1, semaphore_acquire. rewrite Hg.
  destruct (w_gate w) as [|g] eqn:Hgate; simpl.
  - (* the wait runs out *)
    unfold bind at 1.
    match goal with |- context [patch_store_status cfg name ?a ?b ?c ?d ?e ?w3] =>
      pose proof (quiet_patch_store_status name a b c d e w3) as Hq3;
      destruct (patch_store_status cfg name a b c d e w3) as [[[]|e3] w4] end;
      simpl in Hq3; destruct Hq3 as [Hg3 (post & Hpost & Hnpost)];
      cbn in Hg3, Hpost;
      intros [= _ <-]; (split; [congruence|]);
      exists (pre ++ SemaphoreAcquire (MAX_PROVISION_SECONDS cfg) :: post);
      (split; [rewrite Hpost, Hpre, <- !app_assoc; done|]);
      right; left; (split; [done|]); by exists pre, post.
  - (* a permit is taken *)
    unfold reconcile_store_gated, try_finally.
    match goal with |- context [try_except ?m ?h ?w3] =>
      assert (keeps quiet_gate (try_except m h)) as Hq3
        by (pose proof quiet_reconcile_store_guarded;
            pose proof quiet_reconcile_store_failed; quiet);
      specialize (Hq3 w3);
      destruct (try_except m h w3) as [r3 w4] end.
    simpl in Hq3. destruct Hq3 as [Hg3 (mid & Hmid & Hnmid)].
    cbn in Hg3, Hmid. rewrite Hg in Hg3. simpl in Hg3.
    unfold semaphore_release. rewrite Hg3.
    destruct (Z.leb_spec (MAX_CONCURRENT_PROVISIONS cfg) (Z.of_nat g)) as [Hle|Hlt]; [lia|].
    intros [= _ <-]. simpl. split; [congruence|].
    exists (pre ++ SemaphoreAcquire (MAX_PROVISION_SECONDS cfg) :: mid ++ [SemaphoreRelease]).
    split.
    { rewrite Hmid. simpl. rewrite Hpre, <- !app_assoc. done. }
    right; right. split; [lia|]. by exists pre, mid.
Qed.

End GateUntouched.

(** ** The calls of a computation *)

#[global] Instance makes_calls_preorder (P : call → Prop) : PreOrder (makes_calls P).
Proof.
  split.
  - intros w. exists []. by rewrite app_nil_r.
  - intros w1 w2 w3 (l1 & H1 & F1) (l2 & H2 & F2). exists (l1 ++ l2).
    rewrite H2, H1, app_assoc. split; [done|]. by apply Forall_app.
Qed.

Lemma makes_calls_same (P : call → Prop) w w' :
  w_trace w' = w_trace w → makes_calls P w w'.
Proof. intros H. exists []. by rewrite app_nil_r. Qed.

Lemma makes_calls_one (P : call → Prop) c w w' :
  w_trace w' = w_trace w ++ [c] → P c → makes_calls P w w'.
Proof. intros H Hc. exists [c]. split; [done|]. by constructor. Qed.

Ltac calls_leaf :=
  let w := fresh "w" in
  intros w;
  unfold api, now_iso, secrets_choice, subprocess_run, semaphore_acquire, semaphore_release,
    not_found, conflict, raise, ret;
  cbn; repeat case_match; cbn;
  first [ by apply makes_calls_same
        | eapply makes_calls_one; [reflexivity | done]
        | eapply makes_calls_one; [reflexivity | cbn; by eexists _, _] ].

Ltac calls := repeat first [ keeps_structure | assumption | calls_leaf ].

Lemma calls_rand_chars (P : call → Prop) n : keeps (makes_calls P) (rand_chars n).
Proof.
  induction n as [|n IH]; simpl; [calls|].
  apply keeps_bind; [tc_solve | calls_leaf | intros ?].
  apply keeps_bind; [tc_solve | exact IH | intros ?]. calls.
Qed.

(** ** Runs in which the API serves the next calls *)

Ltac staged_lookup :=
  unfold events_of, staged_status, set_field; simpl; by simplify_map_eq.

Lemma last_slice_from {A} (n : Z) (l : list A) x :
  (0 ≤ n)%Z → last (Py.slice_from (- n) (l ++ [x])) = Some x.
Proof.
  intros Hn. unfold Py.slice_from. rewrite length_app. simpl.
  set (i := if (- n <? 0)%Z then _ else _).
  assert (Z.to_nat i ≤ length l) as Hi.
  { subst i. destruct (Z.ltb_spec (- n) 0); lia. }
  rewrite drop_app_le by done. apply last_snoc.
Qed.

Section FaultFree.

Context (cfg : Config).

Lemma calm_weaken n m w : n ≤ m → calm m w → calm n w.
Proof.
  unfold calm. intros Hle H. rewrite <- (Nat.min_l n m), <- take_take by lia.
  by apply Forall_take.
Qed.

Lemma calm_drop k n w w' :
  w_faults w' = drop k (w_faults w) → calm (k + n) w → calm n w'.
Proof.
  unfold calm. intros -> H. rewrite take_drop_commute.
  by apply Forall_drop.
Qed.

Lemma calm_head n w : calm (S n) w → head (w_faults w) = None ∨ head (w_faults w) = Some None.
Proof.
  unfold calm. destruct (w_faults w) as [|o fs]; simpl; [by left|].
  intros H. apply Forall_cons in H as [-> _]. by right.
Qed.

Lemma api_run c n w :
  calm (S n) w →
  api c w = (Ok tt, set_trace (λ t, t ++ [c]) (set_faults tail w)).
Proof.
  intros H. unfold api. by destruct (calm_head _ _ H) as [-> | ->].
Qed.

Lemma get_store_run name obj n w :
  calm (S n) w → w_stores w !! name = Some obj →
  get_store name w = (Ok obj, set_trace (λ t, t ++ [GetStore name]) (set_faults tail w)).
Proof.
  intros Hc Hobj. unfold get_store.
  erewrite bind_ok by (by eapply api_run). cbn. by rewrite Hobj.
Qed.

Lemma events_of_insert_other k v (m : gmap string value) :
  k ≠ "events" → events_of (<[k := v]> m) = events_of m.
Proof. intros Hk. unfold events_of. by rewrite lookup_insert_ne. Qed.

Lemma events_of_insert l (m : gmap string value) :
  events_of (<["events" := VEvents l]> m) = l.
Proof. unfold events_of. by rewrite lookup_insert_eq. Qed.

Lemma events_of_union (body old : gmap string value) l :
  body !! "events" = Some (VEvents l) → events_of (body ∪ old) = l.
Proof. intros H. unfold events_of. by rewrite (lookup_union_Some_l _ _ _ _ H). Qed.

Lemma safe_patch_run name obj body n w :
  calm (S n) w → w_stores w !! name = Some obj →
  _safe_patch_store_status name body w =
    (Ok tt,
     set_stores (<[name := with_status (body ∪ o_status obj) obj]>)
       (set_trace (λ t, t ++ [PatchStoreStatus name body]) (set_faults tail w))).
Proof.
  intros Hc Hobj. unfold _safe_patch_store_status, patch_namespaced_custom_object_status.
  apply try_except_ok. erewrite bind_ok by (by eapply api_run). cbn. by rewrite Hobj.
Qed.

Lemma calm_frame n w w' : w_faults w' = w_faults w → calm n w → calm n w'.
Proof. unfold calm. by intros ->. Qed.

Lemma patch_store_status_run name obj phase ety emsg sets drops n w :
  calm (2 + n) w → w_stores w !! name = Some obj →
  ∃ body ts w',
    patch_store_status cfg name phase ety emsg sets drops w = (Ok tt, w') ∧
    w_stores w' = <[name := with_status (body ∪ o_status obj) obj]> (w_stores w) ∧
    same_but_stores w w' ∧
    w_faults w' = drop 2 (w_faults w) ∧
    w_trace w' = w_trace w ++ [GetStore name; PatchStoreStatus name body] ∧
    (∀ k, k ≠ "createdAt" → k ≠ "updatedAt" → k ≠ "events" →
          body !! k = staged_status (o_status obj) phase sets drops !! k) ∧
    body !! "events" =
      Some (VEvents
        (if Py.truthy_opt ety
         then Py.slice_from (- MAX_STATUS_EVENTS cfg)
                (events_of (staged_status (o_status obj) phase sets drops)
                 ++ [new_event ety emsg ts])
         else events_of (staged_status (o_status obj) phase sets drops))).
Proof.
  intros Hc Hobj. unfold patch_store_status.
  erewrite bind_ok by (by eapply get_store_run).
  fold (staged_status (o_status obj) phase sets drops).
  set (staged := staged_status (o_status obj) phase sets drops).
  set (w1 := set_trace _ _).
  assert (calm (S n) w1) as Hc1 by (by eapply (calm_drop 1); [|exact Hc]).
  assert (w_stores w1 !! name = Some obj) as Hobj1 by done.
  destruct (staged !! "createdAt") eqn:Hcr; destruct (Py.truthy_opt ety) eqn:Hety;
    unfold bind, now_iso, ret; cbn beta iota;
    (erewrite safe_patch_run;
      [ | eapply calm_frame; [|exact Hc1]; reflexivity | exact Hobj1 ]);
    eexists _, _, _; (split; [reflexivity|]); cbn;
    (split; [reflexivity|]); (split; [done|]);
    (split; [by destruct (w_faults w) as [|? [|? ?]]|]);
    (split; [by rewrite <- app_assoc|]);
    (split; [intros k ? ? ?; by rewrite !lookup_insert_ne by done|]);
    rewrite lookup_insert_eq, ?events_of_insert_other by done; reflexivity.
  Unshelve. all: exact "".
Qed.


Lemma status_step_insert name obj st w w' :
  w_stores w !! name = Some obj →
  w_stores w' = <[name := with_status st obj]> (w_stores w) →
  w_namespaces w' = w_namespaces w → w_secrets w' = w_secrets w →
  w_gate w' = w_gate w → w_helm w' = w_helm w → w_rng w' = w_rng w →
  status_step w w'.
Proof.
  intros Hobj Hst ? ? ? ? ?. repeat split; try done.
  - intros n. rewrite Hst. destruct (decide (n = name)) as [->|Hne].
    + by rewrite lookup_insert_eq, Hobj.
    + by rewrite lookup_insert_ne.
  - intros n. rewrite Hst. destruct (decide (n = name)) as [->|Hne].
    + by rewrite lookup_insert_eq, Hobj.
    + by rewrite lookup_insert_ne.
Qed.

Lemma status_step_same w w' :
  w_stores w' = w_stores w →
  w_namespaces w' = w_namespaces w → w_secrets w' = w_secrets w →
  w_gate w' = w_gate w → w_helm w' = w_helm w → w_rng w' = w_rng w →
  status_step w w'.
Proof. intros Hst ? ? ? ? ?. repeat split; try done; intros n; by rewrite Hst. Qed.

Lemma patch_store_status_any name phase ety emsg sets drops w :
  let run := patch_store_status cfg name phase ety emsg sets drops w in
  status_step w run.2 ∧
  (w_trace run.2 = w_trace w ++ [GetStore name] ∨
   ∃ body, w_trace run.2 = w_trace w ++ [GetStore name; PatchStoreStatus name body]) ∧
  (∀ e, run.1 = Err e →
        w_stores run.2 = w_stores w ∧
        ((∃ f, e = exn_of_fault f) ∨ e = ApiException 404 "Not Found" "(404) Reason: Not Found")).
Proof.
  intros run. subst run.
  destruct (patch_store_status cfg name phase ety emsg sets drops w) as [r w'] eqn:Hrun.
  cbn [fst snd]. revert Hrun.
  unfold patch_store_status, get_store.
  unfold bind at 1. unfold bind at 1. unfold api at 1.
  set (w1 := set_trace (λ t, t ++ [GetStore name]) (set_faults tail w)).
  destruct (head (w_faults w)) as [[f|]|] eqn:Hh.
  { intros [= <- <-]. split; [by apply status_step_same|]. split; [by left|].
    intros e [= <-]. split; [done|]. left. by exists f. }
  all: cbn [fst snd].
  all: subst w1; world_proj.
  all: destruct (w_stores w !! name) as [obj|] eqn:Hobj.
  2,4: intros [= <- <-]; (split; [by apply status_step_same|]); (split; [by left|]);
       intros e [= <-]; (split; [done|]); by right.
  all: set (staged := fold_left _ drops _).
  all: match goal with |- context [bind ?m ?k ?w1] =>
         assert (∃ cur wc, m w1 = (Ok cur, wc) ∧ w_stores wc = w_stores w ∧
                   w_namespaces wc = w_namespaces w ∧ w_secrets wc = w_secrets w ∧
                   w_gate wc = w_gate w ∧ w_helm wc = w_helm w ∧ w_rng wc = w_rng w ∧
                   w_trace wc = w_trace w ++ [GetStore name] ∧
                   w_faults wc = tail (w_faults w)) as (cur & wc & Hm & Hwc)
           by (destruct (staged !! "createdAt"); unfold bind, now_iso, ret; cbn;
               eexists _, _; (split; [reflexivity|]); done);
         unfold bind at 1; rewrite Hm
       end.
  all: unfold bind at 1, now_iso at 1; cbn [fst snd].
  all: match goal with |- context [bind ?m ?k ?wx] =>
         assert (∃ evs wd, m wx = (Ok evs, wd) ∧ w_stores wd = w_stores w ∧
                   w_namespaces wd = w_namespaces w ∧ w_secrets wd = w_secrets w ∧
                   w_gate wd = w_gate w ∧ w_helm wd = w_helm w ∧ w_rng wd = w_rng w ∧
                   w_trace wd = w_trace w ++ [GetStore name] ∧
                   w_faults wd = tail (w_faults w))
           as (evs & wd & Hevs & Hwd)
           by (destruct Hwc as (? & ? & ? & ? & ? & ? & ? & ?);
               destruct (Py.truthy_opt ety); unfold bind, now_iso, ret; cbn;
               eexists _, _; (split; [reflexivity|]); done);
         unfold bind at 1; rewrite Hevs
       end.
  all: clear Hwc Hm Hevs; destruct Hwd as (Hs & Hn & Hsec & Hg & Hhelm & Hrng & Htr & Hf).
  all: unfold _safe_patch_store_status, try_except, patch_namespaced_custom_object_status,
         bind, api.
  all: destruct (head (w_faults wd)) as [[[s r0 t|t]|]|] eqn:Hh2; cbn;
       rewrite ?Hs, ?Hobj; cbn.
  all: try destruct (s =? 404)%Z; cbn.
  all: intros [= <- <-].
  all: (split; [first [ apply status_step_same; cbn; by rewrite ?Hs
                      | eapply status_step_insert; cbn; try done; by rewrite ?Hs ]|]).
  all: (split; [right; eexists; cbn; rewrite Htr, <- app_assoc; reflexivity|]).
  all: try (intros e [= <-]; (split; [by cbn|]); left;
            first [by exists (ApiFault s r0 t) | by exists (TransportFault t)]).
  all: try done.
Qed.

Lemma truthy_append a b : Py.truthy a = true → Py.truthy (a +:+ b) = true.
Proof. by destruct a. Qed.

(** C2, as amended.  A reconciliation in the platform namespace of a Store
    whose [spec.engine] is present and not registered.  Under every schedule
    of failures [reconcile_store] raises; the only calls it makes are the
    read of the Store and, when that is answered, the patch of its status;
    the metadata (with the finalizers) and the spec of every Store, the
    namespaces, the secrets, the semaphore and the installer's queue are as
    before; and unless it raises [PermanentError], no Store is changed at
    all.  When the Store exists and the API serves the two calls, it raises
    [PermanentError] with the message that names the engine, the stored
    phase is Failed and [lastError] is that message; the stored history is
    the slice the code takes of the old history followed by a Failed event,
    which is the last record stored when [MAX_STATUS_EVENTS] is not
    negative. *)
Theorem unsupported_engine_fails_permanently name spec meta engine w :
  sp_engine spec = Some engine →
  ENGINE_HANDLERS cfg !! engine = None →
  let run := reconcile_store cfg name (PLATFORM_NAMESPACE cfg) spec meta w in
  let failure := PermanentError (unsupported_engine engine) in
  let failed_event ts :=
    {| ev_type := "Failed"; ev_message := unsupported_engine engine; ev_timestamp := ts |} in
  (∃ e, run.1 = Err e) ∧
  (w_trace run.2 = w_trace w ++ [GetStore name] ∨
   ∃ body, w_trace run.2 = w_trace w ++ [GetStore name; PatchStoreStatus name body]) ∧
  (∀ n, o_metadata <$> w_stores run.2 !! n = o_metadata <$> w_stores w !! n) ∧
  (∀ n, o_spec <$> w_stores run.2 !! n = o_spec <$> w_stores w !! n) ∧
  w_namespaces run.2 = w_namespaces w ∧
  w_secrets run.2 = w_secrets w ∧
  w_gate run.2 = w_gate w ∧
  w_helm run.2 = w_helm w ∧
  (run.1 ≠ Err failure → w_stores run.2 = w_stores w) ∧
  (∀ obj,
     w_stores w !! name = Some obj →
     calm 2 w →
     ∃ obj' body ts,
       run.1 = Err failure ∧
       w_trace run.2 = w_trace w ++ [GetStore name; PatchStoreStatus name body] ∧
       w_stores run.2 = <[name := obj']> (w_stores w) ∧
       o_metadata obj' = o_metadata obj ∧
       o_spec obj' = o_spec obj ∧
       o_status obj' !! "phase" = Some (VStr "Failed") ∧
       o_status obj' !! "lastError" = Some (VStr (unsupported_engine engine)) ∧
       events_of (o_status obj') =
         Py.slice_from (- MAX_STATUS_EVENTS cfg)
           (events_of (o_status obj) ++ [failed_event ts]) ∧
       ((0 ≤ MAX_STATUS_EVENTS cfg)%Z →
        last (events_of (o_status obj')) = Some (failed_event ts))).
Proof.
  intros Heng Hnone run failure failed_event.
  set (write := patch_store_status cfg name (Some "Failed") (Some "Failed")
                  (Some (unsupported_engine engine))
                  [("lastError", Some (VStr (unsupported_engine engine)))] []).
  assert (run = bind write (λ _, raise failure) w) as Hrun0.
  { subst run. unfold reconcile_store.
    rewrite String.eqb_refl, Heng. simpl. by rewrite Hnone. }
  clearbody run. subst run.
  destruct (patch_store_status_any name (Some "Failed") (Some "Failed")
              (Some (unsupported_engine engine))
              [("lastError", Some (VStr (unsupported_engine engine)))] [] w)
    as ((Hns & Hsec & Hg & Hhelm & _ & Hmeta & Hspec) & Htr & Herr).
  fold write in Hns, Hsec, Hg, Hhelm, Hmeta, Hspec, Htr, Herr.
  assert ((bind write (λ _, @raise World (list (string * string)) failure) w).2
          = (write w).2) as H2
    by (unfold bind, raise; by destruct (write w) as [[[]|e] w']).
  assert ((bind write (λ _, @raise World (list (string * string)) failure) w).1 =
          match (write w).1 return result (list (string * string)) with
          | Ok _ => Err failure
          | Err e => Err e
          end) as H1
    by (unfold bind, raise; by destruct (write w) as [[[]|e] w']).
  rewrite H2, H1.
  split. { destruct (write w).1; eauto. }
  split; [done|]. split; [done|]. split; [done|]. split; [done|]. split; [done|].
  split; [done|]. split; [done|].
  split.
  { destruct (write w).1 as [[]|e] eqn:Hr; [done|]. intros _. by apply (Herr e). }
  intros obj Hobj Hcalm.
  destruct (patch_store_status_run name obj (Some "Failed") (Some "Failed")
              (Some (unsupported_engine engine))
              [("lastError", Some (VStr (unsupported_engine engine)))] [] 0 w
              Hcalm Hobj)
    as (body & ts & w' & Hrun & Hst & _ & _ & Htr' & Hbody & Hev).
  fold write in Hrun. rewrite Hrun. simpl.
  exists (with_status (body ∪ o_status obj) obj), body, ts.
  assert (events_of (body ∪ o_status obj) =
          Py.slice_from (- MAX_STATUS_EVENTS cfg)
            (events_of (o_status obj) ++ [failed_event ts])) as Hevs.
  { erewrite events_of_union by exact Hev. simpl. do 2 f_equal. staged_lookup. }
  split; [done|]. split; [done|]. split; [done|]. split; [done|]. split; [done|].
  split. { apply lookup_union_Some_l. rewrite Hbody by done. staged_lookup. }
  split. { apply lookup_union_Some_l. rewrite Hbody by done. staged_lookup. }
  split; [exact Hevs|].
  intros Hn. simpl. rewrite Hevs. by apply last_slice_from.
Qed.

Lemma add_finalizer_run name obj n w :
  calm (2 + n) w → w_stores w !! name = Some obj →
  ∃ w',
    add_finalizer name w = (Ok tt, w') ∧
    w_stores w' = <[name := ensure_finalizer obj]> (w_stores w) ∧
    same_but_stores w w' ∧
    calm n w' ∧
    w_trace w' = w_trace w ++ add_finalizer_calls name (m_finalizers (o_metadata obj)).
Proof.
  intros Hc Hobj. unfold add_finalizer, add_finalizer_calls, ensure_finalizer.
  erewrite bind_ok by (by eapply get_store_run).
  case_bool_decide.
  - eexists. split; [reflexivity|]. cbn.
    split; [by rewrite insert_id|]. split; [done|].
    split; [apply (calm_weaken n (S n)); [lia|]; by apply (calm_drop 1 (S n) w)|].
    done.
  - unfold patch_namespaced_custom_object.
    erewrite bind_ok; cycle 1.
    { eapply (api_run _ n). by apply (calm_drop 1 (S n) w). }
    cbn. rewrite Hobj. eexists. split; [reflexivity|]. cbn.
    split; [done|]. split; [done|].
    split; [apply (calm_drop 2 n w); [|exact Hc]; cbn; by destruct (w_faults w) as [|? [|? ?]]|].
    by rewrite <- app_assoc.
Qed.

Lemma semaphore_acquire_none t w :
  w_gate w = 0 →
  semaphore_acquire t w = (Ok false, set_trace (λ tr, tr ++ [SemaphoreAcquire t]) w).
Proof. intros H. unfold semaphore_acquire. by rewrite H. Qed.

Lemma reconcile_store_waits name namespace spec meta :
  keeps (makes_calls (bounded_wait cfg)) (reconcile_store cfg name namespace spec meta).
Proof.
  pose proof (calls_rand_chars (bounded_wait cfg)) as Hr.
  unfold reconcile_store.
  unfold reconcile_store_gated, reconcile_store_guarded, reconcile_store_failed,
    add_finalizer, patch_store_status, get_store, _safe_patch_store_status,
    patch_namespaced_custom_object_status, patch_namespaced_custom_object,
    ensure_namespace, read_namespace, patch_namespace, create_namespace,
    ensure_namespace_resources, apply_resourcequota, apply_limitrange,
    apply_networkpolicy_default_deny, apply_networkpolicy_allow_required, create_or_patch,
    ensure_admin_secret, read_namespaced_secret, create_namespaced_secret,
    patch_namespaced_secret, rand_password, run_helm,
    post_ready_checks.
  repeat first [ keeps_structure | apply Hr | calls_leaf ].
Qed.

#[local] Instance away_from_tenant_preorder : PreOrder away_from_tenant.
Proof.
  split.
  - intros w. by repeat split.
  - intros w1 w2 w3 (? & ? & ? & ? & Hc1) (? & ? & ? & ? & Hc2).
    unfold away_from_tenant. repeat split; try congruence. by transitivity w2.
Qed.

Ltac away_leaf :=
  let w := fresh "w" in
  intros w; unfold api, now_iso, not_found, conflict, raise, ret, away_from_tenant;
  cbn; repeat case_match; cbn;
  (repeat split; try done);
  first [ by apply makes_calls_same | eapply makes_calls_one; [reflexivity | done] ].

Ltac away := repeat first [ keeps_structure | away_leaf ].

Lemma away_patch_store_status name phase ety emsg sets drops :
  keeps away_from_tenant (patch_store_status cfg name phase ety emsg sets drops).
Proof.
  unfold patch_store_status, get_store, _safe_patch_store_status,
    patch_namespaced_custom_object_status. away.
Qed.

Lemma away_add_finalizer name : keeps away_from_tenant (add_finalizer name).
Proof. unfold add_finalizer, get_store, patch_namespaced_custom_object. away. Qed.

Lemma away_semaphore_acquire t w :
  w_gate w = 0 →
  semaphore_acquire t w = (Ok false, set_trace (λ tr, tr ++ [SemaphoreAcquire t]) w) ∧
  away_from_tenant w (set_trace (λ tr, tr ++ [SemaphoreAcquire t]) w).
Proof.
  intros Hg. split; [by apply semaphore_acquire_none|].
  repeat split; try done. by eapply makes_calls_one.
Qed.

Lemma no_permit_no_tenant_operation name namespace spec meta w :
  w_gate w = 0 →
  let run := reconcile_store cfg name namespace spec meta w in
  away_from_tenant w run.2 ∧
  (namespace = PLATFORM_NAMESPACE cfg → ∃ e, run.1 = Err e).
Proof.
  intros Hg run. subst run.
  destruct (reconcile_store cfg name namespace spec meta w) as [r w'] eqn:Hrun.
  cbn [fst snd]. revert Hrun. unfold reconcile_store.
  destruct (String.eqb_spec namespace (PLATFORM_NAMESPACE cfg)) as [->|Hne]; cbn [negb].
  2:{ intros [= <- <-]. split; [reflexivity|done]. }
  destruct (ENGINE_HANDLERS cfg !! _) as [handler|].
  2:{ unfold bind at 1.
      match goal with |- context [patch_store_status cfg name ?a ?b ?c ?d ?e w] =>
        pose proof (away_patch_store_status name a b c d e w) as H1;
        destruct (patch_store_status cfg name a b c d e w) as [[[]|e1] w1] end;
      simpl in H1; intros [= <- <-]; (split; [done|]); eauto. }
  cbv zeta. unfold bind at 1.
  pose proof (away_add_finalizer name w) as H1.
  destruct (add_finalizer name w) as [[[]|e1] w1]; simpl in H1.
  2:{ intros [= <- <-]. split; [done|]. eauto. }
  unfold bind at 1.
  match goal with |- context [patch_store_status cfg name ?a ?b ?c ?d ?e w1] =>
    pose proof (away_patch_store_status name a b c d e w1) as H2;
    destruct (patch_store_status cfg name a b c d e w1) as [[[]|e2] w2] end;
    simpl in H2.
  2:{ intros [= <- <-]. split; [by transitivity w1|]. eauto. }
  assert (w_gate w2 = 0) as Hg2.
  { destruct H1 as (_ & _ & _ & Hg1 & _). destruct H2 as (_ & _ & _ & Hg2 & _). congruence. }
  destruct (away_semaphore_acquire (MAX_PROVISION_SECONDS cfg) w2 Hg2) as [Hacq H3].
  unfold bind at 1. rewrite Hacq. cbn [negb].
  set (w3 := set_trace _ w2) in *.
  unfold bind at 1.
  match goal with |- context [patch_store_status cfg name ?a ?b ?c ?d ?e w3] =>
    pose proof (away_patch_store_status name a b c d e w3) as H4;
    destruct (patch_store_status cfg name a b c d e w3) as [[[]|e4] w4] end;
    simpl in H4; intros [= <- <-];
    (split; [by do 3 (etransitivity; [eassumption|])|]); eauto.
Qed.

(** C4, as amended.  In every reconciliation, whatever the cluster
    answers, each wait for the provisioning semaphore is made with
    [MAX_PROVISION_SECONDS] as its time-out.  When no permit is free, then
    under every schedule of failures none of the calls made is an operation
    on a namespace, on a secret or a run of the installer, the namespaces,
    the secrets, the installer's queue and the semaphore are as before, and
    a reconciliation in the platform namespace raises.  When moreover the
    engine is registered, the Store exists and the API serves the calls:
    the semaphore is asked once, [reconcile_store] raises [TemporaryError]
    with the lock-timeout message and a delay of 15, the stored phase is
    Failed, [lastError] is the lock-timeout message, and the stored history
    is the slice the code takes of the history followed by a Failed event,
    which is the last record stored when [MAX_STATUS_EVENTS] is not
    negative. *)
Theorem gate_timeout_is_retryable name namespace spec meta w :
  let run := reconcile_store cfg name namespace spec meta w in
  let failed_event ts :=
    {| ev_type := "Failed"; ev_message := "Provisioning lock timeout";
       ev_timestamp := ts |} in
  (∃ calls, w_trace run.2 = w_trace w ++ calls ∧
            ∀ t, SemaphoreAcquire t ∈ calls → t = MAX_PROVISION_SECONDS cfg) ∧
  (w_gate w = 0 →
   (∃ calls, w_trace run.2 = w_trace w ++ calls ∧
             Forall (λ c, is_tenant_op c = false) calls) ∧
   w_namespaces run.2 = w_namespaces w ∧
   w_secrets run.2 = w_secrets w ∧
   w_helm run.2 = w_helm w ∧
   w_gate run.2 = 0 ∧
   (namespace = PLATFORM_NAMESPACE cfg → ∃ e, run.1 = Err e)) ∧
  (∀ handler obj,
     namespace = PLATFORM_NAMESPACE cfg →
     ENGINE_HANDLERS cfg !! default "woocommerce" (sp_engine spec) = Some handler →
     w_stores w !! name = Some obj →
     w_gate w = 0 →
     calm 6 w →
     ∃ obj' body1 body2 ts1 ts2,
       run.1 = Err (TemporaryError "Provisioning lock timeout" 15) ∧
       w_trace run.2 =
         w_trace w
         ++ add_finalizer_calls name (m_finalizers (o_metadata obj))
         ++ [GetStore name; PatchStoreStatus name body1;
             SemaphoreAcquire (MAX_PROVISION_SECONDS cfg);
             GetStore name; PatchStoreStatus name body2] ∧
       w_stores run.2 = <[name := obj']> (w_stores w) ∧
       o_status obj' !! "phase" = Some (VStr "Failed") ∧
       o_status obj' !! "lastError" = Some (VStr "Provisioning lock timeout") ∧
       events_of (o_status obj') =
         Py.slice_from (- MAX_STATUS_EVENTS cfg)
           (Py.slice_from (- MAX_STATUS_EVENTS cfg)
              (events_of (o_status obj)
               ++ [ {| ev_type := "ProvisioningStarted";
                       ev_message := ("Starting reconcile for "
                                      +:+ default "woocommerce" (sp_engine spec));
                       ev_timestamp := ts1 |} ])
            ++ [failed_event ts2]) ∧
       ((0 ≤ MAX_STATUS_EVENTS cfg)%Z →
        last (events_of (o_status obj')) = Some (failed_event ts2))).
Proof.
  intros run failed_event.
  split; [|split].
  - destruct (reconcile_store_waits name namespace spec meta w) as (calls & Htr & Hall).
    exists calls. split; [exact Htr|]. intros t Hin.
    rewrite Forall_forall in Hall. exact (Hall _ Hin).
  - intros Hg.
    destruct (no_permit_no_tenant_operation name namespace spec meta w Hg)
      as ((Hns & Hsec & Hhelm & Hgate & Hcalls) & Herr).
    split; [exact Hcalls|]. split; [exact Hns|]. split; [exact Hsec|].
    split; [exact Hhelm|]. split; [by rewrite <- Hg|exact Herr].
  - intros handler obj -> Hh Hobj Hgate Hcalm. subst run.
    unfold reconcile_store.
    rewrite String.eqb_refl. cbn [negb]. cbv zeta. rewrite Hh.
    destruct (add_finalizer_run name obj 4 w Hcalm Hobj)
      as (w1 & Hrun1 & Hst1 & (Hns1 & Hsec1 & Hg1 & _ & Hh1) & Hc1 & Htr1).
    erewrite bind_ok by exact Hrun1.
    assert (w_stores w1 !! name = Some (ensure_finalizer obj)) as Hobj1
      by (by rewrite Hst1, lookup_insert_eq).
    match goal with |- context [patch_store_status cfg name ?a ?b ?c ?d ?e] =>
      destruct (patch_store_status_run name _ a b c d e 2 w1 Hc1 Hobj1)
        as (body1 & ts1 & w2 & Hrun2 & Hst2 & (Hns2 & Hsec2 & Hg2 & _ & Hh2)
            & Hf2 & Htr2 & Hbody1 & Hev1) end.
    erewrite bind_ok by exact Hrun2.
    erewrite bind_ok by (apply semaphore_acquire_none; congruence).
    cbn [negb].
    set (w3 := set_trace _ w2).
    set (obj2 := with_status (body1 ∪ o_status (ensure_finalizer obj)) (ensure_finalizer obj)) in *.
    assert (w_stores w3 !! name = Some obj2) as Hobj3
      by (subst w3; cbn; by rewrite Hst2, lookup_insert_eq).
    assert (calm 2 w3) as Hc3 by (by eapply (calm_drop 2); [|exact Hc1]).
    match goal with |- context [patch_store_status cfg name ?a ?b ?c ?d ?e] =>
      destruct (patch_store_status_run name _ a b c d e 0 w3 Hc3 Hobj3)
        as (body2 & ts2 & w4 & Hrun4 & Hst4 & (Hns4 & Hsec4 & Hg4 & _ & Hh4)
            & Hf4 & Htr4 & Hbody2 & Hev2) end.
    erewrite bind_ok by exact Hrun4.
    exists (with_status (body2 ∪ o_status obj2) obj2), body1, body2, ts1, ts2.
    assert (events_of (body2 ∪ o_status obj2) =
            Py.slice_from (- MAX_STATUS_EVENTS cfg)
              (Py.slice_from (- MAX_STATUS_EVENTS cfg)
                 (events_of (o_status obj)
                  ++ [ {| ev_type := "ProvisioningStarted";
                          ev_message := ("Starting reconcile for "
                                         +:+ default "woocommerce" (sp_engine spec));
                          ev_timestamp := ts1 |} ])
               ++ [failed_event ts2])) as Hevs.
    { erewrite events_of_union by exact Hev2. simpl.
      f_equal. f_equal.
      transitivity (events_of (o_status obj2)); [staged_lookup|].
      subst obj2. simpl. erewrite events_of_union by exact Hev1. simpl.
      f_equal. f_equal.
      transitivity (events_of (o_status (ensure_finalizer obj))); [staged_lookup|].
      unfold ensure_finalizer. by case_bool_decide. }
    split; [done|].
    split. { cbn. rewrite Htr4. subst w3. cbn. rewrite Htr2, Htr1, <- !app_assoc. done. }
    split. { cbn. rewrite Hst4. subst w3. cbn. by rewrite Hst2, Hst1, !insert_insert_eq. }
    split. { simpl. apply lookup_union_Some_l. rewrite Hbody2 by done. staged_lookup. }
    split. { simpl. apply lookup_union_Some_l. rewrite Hbody2 by done. staged_lookup. }
    split; [exact Hevs|].
    intros Hn. change (last (events_of (body2 ∪ o_status obj2)) = Some (failed_event ts2)).
    rewrite Hevs. by apply last_slice_from.
Qed.

End FaultFree.

(** ** A failure inside the gated section *)

Section GatedFailure.

Context (cfg : Config).

Lemma or_else_empty s : Py.or_else (Some s) "" = s.
Proof. unfold Py.or_else, Py.truthy. by destruct s. Qed.

Lemma semaphore_release_run w :
  (Z.of_nat (w_gate w) < MAX_CONCURRENT_PROVISIONS cfg)%Z →
  semaphore_release cfg w =
    (Ok tt, set_gate S (set_trace (λ t, t ++ [SemaphoreRelease]) w)).
Proof.
  intros H. unfold semaphore_release.
  by destruct (Z.leb_spec (MAX_CONCURRENT_PROVISIONS cfg) (Z.of_nat (w_gate w))); [lia|].
Qed.

(** C8, as amended.  The guarded section raises [e].  Whatever the cluster
    answers then, the [try] statement raises and its last call is the
    release of the semaphore, which gives the permit back when one is held.
    The [except] clause is the failure write followed by [raise]: when the
    write returns, the exception raised is [e] itself; when the write
    raises, its exception is the one that leaves the statement, and no
    Store is changed by the clause.  When the Store exists and the API
    serves the two calls of the write, the stored phase is Failed,
    [lastError] is [str e], [releaseName], [namespace] and
    [observedGeneration] are stored, and the stored history is the slice
    the code takes of the history followed by a Failed event with [str e],
    which is the last record stored when [MAX_STATUS_EVENTS] is not
    negative. *)
Theorem guarded_failure_is_recorded
    name store_id store_ns host release generation handler e w w1 :
  reconcile_store_guarded cfg name store_id store_ns host release generation handler w
    = (Err e, w1) →
  let gated :=
    reconcile_store_gated cfg name store_id store_ns host release generation handler w in
  let write := failure_write cfg name store_ns release generation e in
  let failed_event ts :=
    {| ev_type := "Failed"; ev_message := str e; ev_timestamp := ts |} in
  reconcile_store_failed cfg name store_ns release generation e = (write ;; raise e) ∧
  (∃ e', gated.1 = Err e') ∧
  w_trace gated.2 = w_trace (write w1).2 ++ [SemaphoreRelease] ∧
  ((Z.of_nat (w_gate w) < MAX_CONCURRENT_PROVISIONS cfg)%Z →
   w_gate gated.2 = S (w_gate w) ∧
   w_stores gated.2 = w_stores (write w1).2 ∧
   ((write w1).1 = Ok tt → gated.1 = Err e) ∧
   (∀ e2, (write w1).1 = Err e2 → gated.1 = Err e2 ∧ w_stores gated.2 = w_stores w1) ∧
   (∀ obj,
      w_stores w1 !! name = Some obj →
      calm 2 w1 →
      ∃ obj' body ts,
        gated.1 = Err e ∧
        w_stores gated.2 = <[name := obj']> (w_stores w1) ∧
        o_status obj' !! "phase" = Some (VStr "Failed") ∧
        o_status obj' !! "lastError" = Some (VStr (str e)) ∧
        o_status obj' !! "releaseName" = Some (VStr release) ∧
        o_status obj' !! "namespace" = Some (VStr store_ns) ∧
        o_status obj' !! "observedGeneration" = Some (VInt generation) ∧
        events_of (o_status obj') =
          Py.slice_from (- MAX_STATUS_EVENTS cfg)
            (events_of (o_status obj) ++ [failed_event ts]) ∧
        ((0 ≤ MAX_STATUS_EVENTS cfg)%Z →
         last (events_of (o_status obj')) = Some (failed_event ts)) ∧
        w_trace gated.2 =
          w_trace w1 ++ [GetStore name; PatchStoreStatus name body; SemaphoreRelease])).
Proof.
  intros Hbody gated write failed_event.
  split; [reflexivity|].
  pose proof (quiet_reconcile_store_guarded cfg name store_id store_ns host release
                generation handler w) as [Hg1 _].
  rewrite Hbody in Hg1. simpl in Hg1.
  pose proof (quiet_patch_store_status cfg name (Some "Failed") (Some "Failed") (Some (str e))
                [("lastError", Some (VStr (str e)));
                 ("releaseName", Some (VStr release));
                 ("namespace", Some (VStr store_ns));
                 ("observedGeneration", Some (VInt generation))]
                ["adminPassword"; "adminUser"] w1) as [Hg2 _].
  destruct (patch_store_status_any cfg name (Some "Failed") (Some "Failed") (Some (str e))
                [("lastError", Some (VStr (str e)));
                 ("releaseName", Some (VStr release));
                 ("namespace", Some (VStr store_ns));
                 ("observedGeneration", Some (VInt generation))]
                ["adminPassword"; "adminUser"] w1) as (_ & _ & Hraised).
  fold (failure_write cfg name store_ns release generation e) in Hg2, Hraised.
  fold write in Hg2, Hraised.
  assert (gated =
          let (r, w2) := write w1 in
          let out : result (list (string * string)) :=
            match r with Ok _ => Err e | Err e2 => Err e2 end in
          match semaphore_release cfg w2 with
          | (Ok _, w3) => (out, w3)
          | (Err e3, w3) => (Err e3, w3)
          end) as Hgated.
  { subst gated. unfold reconcile_store_gated, try_finally, try_except.
    rewrite Hbody. cbn [on_exception]. unfold reconcile_store_failed, bind, raise.
    fold (failure_write cfg name store_ns release generation e). fold write.
    by destruct (write w1) as [[[]|e2] w2]. }
  clearbody gated. subst gated.
  destruct (write w1) as [r w2] eqn:Hwrite. cbn [fst snd] in *.
  split.
  { unfold semaphore_release. destruct (_ <=? _)%Z; cbn; destruct r; eauto. }
  split.
  { unfold semaphore_release. by destruct (_ <=? _)%Z. }
  intros Hheld.
  rewrite (semaphore_release_run w2) by (rewrite Hg2, Hg1; done).
  cbn [fst snd]. world_proj.
  split; [by rewrite Hg2, Hg1|]. split; [done|].
  split. { by intros ->. }
  split. { intros e2 ->. split; [done|]. by apply (Hraised e2). }
  intros obj Hobj Hcalm.
  destruct (patch_store_status_run cfg name obj (Some "Failed") (Some "Failed")
              (Some (str e))
              [("lastError", Some (VStr (str e)));
               ("releaseName", Some (VStr release));
               ("namespace", Some (VStr store_ns));
               ("observedGeneration", Some (VInt generation))]
              ["adminPassword"; "adminUser"] 0 w1 Hcalm Hobj)
    as (body & ts & w2' & Hrun & Hst & _ & _ & Htr & Hb & Hev).
  fold (failure_write cfg name store_ns release generation e) in Hrun. fold write in Hrun.
  rewrite Hwrite in Hrun. injection Hrun as -> ->.
  exists (with_status (body ∪ o_status obj) obj), body, ts.
  assert (events_of (body ∪ o_status obj) =
          Py.slice_from (- MAX_STATUS_EVENTS cfg)
            (events_of (o_status obj) ++ [failed_event ts])) as Hevs.
  { unfold new_event in Hev. rewrite or_else_empty in Hev.
    erewrite events_of_union by exact Hev. simpl. do 2 f_equal. staged_lookup. }
  split; [done|]. split; [done|].
  split. { apply lookup_union_Some_l. rewrite Hb by done. staged_lookup. }
  split. { apply lookup_union_Some_l. rewrite Hb by done. staged_lookup. }
  split. { apply lookup_union_Some_l. rewrite Hb by done. staged_lookup. }
  split. { apply lookup_union_Some_l. rewrite Hb by done. staged_lookup. }
  split. { apply lookup_union_Some_l. rewrite Hb by done. staged_lookup. }
  split; [exact Hevs|].
  split.
  { intros Hn. change (last (events_of (body ∪ o_status obj)) = Some (failed_event ts)).
    rewrite Hevs. by apply last_slice_from. }
  by rewrite Htr, <- app_assoc.
Qed.

End GatedFailure.

(** ** The delete path *)

Section Teardown.

Context (cfg : Config).

#[local] Instance same_namespaces_preorder : PreOrder same_namespaces.
Proof. split; [done|]. intros w1 w2 w3 H1 H2. unfold same_namespaces in *. congruence. Qed.

Ltac same_ns_leaf :=
  let w := fresh "w" in
  intros w; unfold api, not_found, conflict, raise, same_namespaces; cbn;
  repeat case_match; reflexivity.

Ltac same_ns := repeat first [ keeps_structure | same_ns_leaf ].

Lemma same_ns_patch_store_status name phase ety emsg sets drops :
  keeps same_namespaces (patch_store_status cfg name phase ety emsg sets drops).
Proof.
  unfold patch_store_status, get_store, _safe_patch_store_status,
    patch_namespaced_custom_object_status, now_iso. same_ns.
Qed.

Lemma same_ns_uninstall args t :
  keeps same_namespaces
    (try_except (run_helm cfg args t ;; ret tt) (on_exception (λ _, ret tt))).
Proof. unfold run_helm, subprocess_run. same_ns. Qed.

Lemma same_ns_remove_finalizer name :
  keeps same_namespaces
    (try_except (remove_finalizer name) (on_exception (λ _, ret tt))).
Proof.
  unfold remove_finalizer, get_store, patch_namespaced_custom_object. same_ns.
Qed.

Lemma namespace_is_owned_spec ns store_id w :
  same_namespaces w (_namespace_is_owned cfg ns store_id w).2 ∧
  ((_namespace_is_owned cfg ns store_id w).1 = Ok true →
   String.prefix (STORE_NS_PREFIX cfg) ns = true ∧
   ∃ labels, w_namespaces w !! ns = Some labels ∧ owned_by store_id labels).
Proof.
  unfold _namespace_is_owned.
  destruct (String.prefix _ ns) eqn:Hp; cbn [negb]; [|done].
  assert (∀ r w1,
    try_except (labels <- read_namespace ns;; ret (Some labels))
      (on_api_exception (λ status e, if (status =? 404)%Z then ret None else raise e)) w
      = (r, w1) →
    same_namespaces w w1 ∧
    ∀ labels, r = Ok (Some labels) → w_namespaces w !! ns = Some labels) as Hread.
  { intros r w1. unfold try_except, bind, read_namespace, bind, api, same_namespaces.
    destruct (head (w_faults w)) as [[[s rs t|t]|]|]; cbn.
    - destruct (s =? 404)%Z; intros [= <- <-]; done.
    - intros [= <- <-]; done.
    - destruct (w_namespaces w !! ns); cbn; intros [= <- <-];
        (split; [done|]); intros ? ?; by simplify_eq.
    - destruct (w_namespaces w !! ns); cbn; intros [= <- <-];
        (split; [done|]); intros ? ?; by simplify_eq. }
  set (rd := try_except _ _) in *. unfold bind.
  destruct (rd w) as [[[labels|]|e] w1];
    destruct (Hread _ _ eq_refl) as [Hsame Hl]; cbn; (split; [done|]); try done.
  intros [= H]. apply andb_prop in H as [H1 H2].
  apply bool_decide_eq_true in H1, H2.
  split; [done|]. exists labels. split; [by apply Hl|]. by split.
Qed.

Lemma delete_namespace_effect ns w h :
  (∀ e k, h e = Some k → keeps same_namespaces k) →
  let w' := (try_except (delete_namespace ns) h w).2 in
  w_namespaces w' = w_namespaces w ∨ w_namespaces w' = delete ns (w_namespaces w).
Proof.
  intros Hh. unfold try_except, delete_namespace, bind, api.
  destruct (head (w_faults w)) as [[f|]|]; simpl.
  - destruct (h _) as [k|] eqn:Hk; [|by left].
    left. by rewrite (Hh _ _ Hk _).
  - destruct (w_namespaces w !! ns); simpl; [by right|].
    unfold not_found, raise.
    destruct (h _) as [k|] eqn:Hk; [|by left].
    left. by rewrite (Hh _ _ Hk _).
  - destruct (w_namespaces w !! ns); simpl; [by right|].
    unfold not_found, raise.
    destruct (h _) as [k|] eqn:Hk; [|by left].
    left. by rewrite (Hh _ _ Hk _).
Qed.

Lemma on_delete_namespaces spec name namespace w :
  let store_id := default name (sp_storeId spec) in
  let store_ns := store_namespace cfg store_id in
  let w' := (on_delete cfg spec name namespace w).2 in
  w_namespaces w' = w_namespaces w ∨
  (w_namespaces w' = delete store_ns (w_namespaces w) ∧
   namespace = PLATFORM_NAMESPACE cfg ∧
   String.prefix (STORE_NS_PREFIX cfg) store_ns = true ∧
   ∃ labels, w_namespaces w !! store_ns = Some labels ∧ owned_by store_id labels).
Proof.
  cbv zeta. unfold on_delete.
  destruct (String.eqb_spec namespace (PLATFORM_NAMESPACE cfg)) as [->|Hne]; simpl;
    [|by left].
  unfold try_finally.
  match goal with |- context [(let (r, w') := ?m w in _)] =>
    destruct (m w) as [r wm] eqn:Hmain end.
  assert (w_namespaces wm = w_namespaces w ∨
       w_namespaces wm = delete (store_namespace cfg (default name (sp_storeId spec)))
                           (w_namespaces w) ∧
       String.prefix (STORE_NS_PREFIX cfg)
         (store_namespace cfg (default name (sp_storeId spec))) = true ∧
       ∃ labels, w_namespaces w !! store_namespace cfg (default name (sp_storeId spec))
                 = Some labels ∧ owned_by (default name (sp_storeId spec)) labels)
    as Hmid; cycle 1.
  { pose proof (same_ns_remove_finalizer name wm) as HF.
    destruct (try_except (remove_finalizer name) _ wm) as [[[]|ef] wf];
      simpl in HF |- *; unfold same_namespaces in HF; rewrite HF;
      destruct Hmid as [?|(?&?&?)]; eauto. }
  revert Hmain. unfold bind at 1.
  match goal with |- context [patch_store_status cfg name ?a ?b ?c ?d ?e w] =>
    pose proof (same_ns_patch_store_status name a b c d e w) as H1;
    destruct (patch_store_status cfg name a b c d e w) as [[[]|e1] w1] end;
    simpl in H1; unfold same_namespaces in H1;
    [|intros [= _ <-]; by left].
  unfold bind at 1.
  match goal with |- context [try_except (bind (run_helm cfg ?a ?t) ?k) ?h w1] =>
    pose proof (same_ns_uninstall a t w1) as H2;
    destruct (try_except (bind (run_helm cfg a t) k) h w1) as [[[]|e2] w2] end;
    simpl in H2; unfold same_namespaces in H2;
    [|intros [= _ <-]; left; congruence].
  unfold bind at 1.
  match goal with |- context [_namespace_is_owned cfg ?ns ?sid w2] =>
    pose proof (namespace_is_owned_spec ns sid w2) as [H3 Hown];
    destruct (_namespace_is_owned cfg ns sid w2) as [[owned|e3] w3] end;
    simpl in H3, Hown; unfold same_namespaces in H3;
    [|intros [= _ <-]; left; congruence].
  destruct owned; unfold bind at 1.
  - match goal with |- context [try_except (delete_namespace ?ns) ?h w3] =>
      assert (∀ e k, h e = Some k → keeps same_namespaces k) as Hh
        by (intros e k; destruct e; simpl; intros [= <-]; destruct (negb _); same_ns);
      pose proof (delete_namespace_effect ns w3 h Hh) as H4;
      destruct (try_except (delete_namespace ns) h w3) as [[[]|e4] w4] end;
      simpl in H4.
    + match goal with |- context [patch_store_status cfg name ?a ?b ?c ?d ?e w4] =>
        pose proof (same_ns_patch_store_status name a b c d e w4) as H5;
        destruct (patch_store_status cfg name a b c d e w4) as [r5 w5] end.
      simpl in H5; unfold same_namespaces in H5.
      intros [= _ <-]. rewrite H5.
      destruct H4 as [H4|H4]; rewrite H4, H3, H2, H1; [by left|].
      right. destruct (Hown eq_refl) as [Hp (labels & Hl & Ho)].
      split; [done|]. split; [done|]. exists labels.
      by rewrite H2, H1 in Hl.
    + intros [= _ <-].
      destruct H4 as [H4|H4]; rewrite H4, H3, H2, H1; [by left|].
      right. destruct (Hown eq_refl) as [Hp (labels & Hl & Ho)].
      split; [done|]. split; [done|]. exists labels.
      by rewrite H2, H1 in Hl.
  - unfold ret at 1.
    match goal with |- context [patch_store_status cfg name ?a ?b ?c ?d ?e w3] =>
      pose proof (same_ns_patch_store_status name a b c d e w3) as H5;
      destruct (patch_store_status cfg name a b c d e w3) as [r5 w5] end.
    simpl in H5; unfold same_namespaces in H5.
    intros [= _ <-]. left. congruence.
Qed.


Lemma prefix_append p s : String.prefix p (p +:+ s) = true.
Proof.
  induction p as [|c p IH]; simpl; [by destruct s|].
  by destruct (ascii_dec c c).
Qed.

Lemma uninstall_run args t w :
  ∃ cmd t', 
    try_except (run_helm cfg args t ;; ret tt) (on_exception (λ _, ret tt)) w
    = (Ok tt, set_trace (λ tr, tr ++ [RunHelm cmd t']) (set_helm tail w)).
Proof.
  eexists _, _. unfold try_except, bind, run_helm, bind, subprocess_run.
  destruct (default _ (head (w_helm w))) as [rc out err|txt|txt]; simpl; [|done|done].
  by destruct (negb _).
Qed.

Lemma namespace_is_owned_run store_id n w :
  calm (S n) w →
  _namespace_is_owned cfg (store_namespace cfg store_id) store_id w =
    (Ok (passes_ownership_check store_id (w_namespaces w !! store_namespace cfg store_id)),
     set_trace (λ t, t ++ [ReadNamespace (store_namespace cfg store_id)])
       (set_faults tail w)).
Proof.
  intros Hc. unfold _namespace_is_owned, store_namespace at 1.
  rewrite prefix_append. cbn [negb].
  fold (store_namespace cfg store_id).
  unfold try_except, read_namespace, bind. rewrite (api_run _ n) by done.
  cbn. by destruct (w_namespaces w !! _).
Qed.

Lemma remove_finalizer_run name obj n w :
  calm (2 + n) w → w_stores w !! name = Some obj →
  ∃ w',
    try_except (remove_finalizer name) (on_exception (λ _, ret tt)) w = (Ok tt, w') ∧
    w_stores w' = <[name := strip_finalizer obj]> (w_stores w) ∧
    w_namespaces w' = w_namespaces w.
Proof.
  intros Hc Hobj. unfold remove_finalizer, strip_finalizer.
  assert (calm (S n) (set_trace (λ t, t ++ [GetStore name]) (set_faults tail w))) as Hc1
    by (by apply (calm_drop 1 (S n) w)).
  unfold try_except, bind, get_store, bind.
  rewrite (api_run _ (S n)) by done. cbn. rewrite Hobj. cbn.
  case_bool_decide; cbn.
  - unfold patch_namespaced_custom_object, bind.
    rewrite (api_run _ n) by done. cbn. rewrite Hobj.
    eexists. split; [reflexivity|]. done.
  - eexists. split; [reflexivity|]. cbn. by rewrite insert_id.
Qed.

Lemma remove_finalizer_trace name obj n w :
  calm (2 + n) w → w_stores w !! name = Some obj →
  ∃ calls,
    w_trace (try_except (remove_finalizer name) (on_exception (λ _, ret tt)) w).2 =
      w_trace w ++ calls.
Proof.
  intros Hc Hobj. unfold remove_finalizer.
  assert (calm (S n) (set_trace (λ t, t ++ [GetStore name]) (set_faults tail w))) as Hc1
    by (by apply (calm_drop 1 (S n) w)).
  unfold try_except, bind, get_store, bind.
  rewrite (api_run _ (S n)) by done. cbn. rewrite Hobj. cbn.
  case_bool_decide; cbn.
  - unfold patch_namespaced_custom_object, bind.
    rewrite (api_run _ n) by done. cbn. rewrite Hobj. cbn.
    eexists. by rewrite <- app_assoc.
  - by eexists.
Qed.

Lemma delete_namespace_run ns labels h n w :
  calm (S n) w → w_namespaces w !! ns = Some labels →
  try_except (delete_namespace ns) h w =
    (Ok tt, set_secrets (filter (λ kv, kv.1.1 ≠ ns))
              (set_namespaces (delete ns)
                 (set_trace (λ t, t ++ [DeleteNamespace ns]) (set_faults tail w)))).
Proof.
  intros Hc Hns. unfold try_except, delete_namespace, bind.
  rewrite (api_run _ n) by done. cbn. by rewrite Hns.
Qed.

Lemma strip_finalizer_gone obj : FINALIZER ∉ m_finalizers (o_metadata (strip_finalizer obj)).
Proof.
  unfold strip_finalizer. case_bool_decide; [|done]. simpl.
  rewrite list_elem_of_filter. by intros [? _].
Qed.

Lemma strip_finalizer_status obj : o_status (strip_finalizer obj) = o_status obj.
Proof. unfold strip_finalizer. by case_bool_decide. Qed.

Lemma on_delete_run spec name obj w :
  let store_id := default name (sp_storeId spec) in
  let store_ns := store_namespace cfg store_id in
  w_stores w !! name = Some obj →
  calm 8 w →
  ∃ w' obj' ts1 ts2,
    on_delete cfg spec name (PLATFORM_NAMESPACE cfg) w = (Ok tt, w') ∧
    w_stores w' = <[name := obj']> (w_stores w) ∧
    o_status obj' !! "phase" = Some (VStr "Deleted") ∧
    events_of (o_status obj') =
      Py.slice_from (- MAX_STATUS_EVENTS cfg)
        (Py.slice_from (- MAX_STATUS_EVENTS cfg)
           (events_of (o_status obj)
            ++ [ {| ev_type := "Deleting";
                    ev_message :=
                      ("Deleting " +:+
                       build_release_name
                         (default (woocommerce_handler cfg)
                            (ENGINE_HANDLERS cfg !! default "woocommerce" (sp_engine spec)))
                         store_id);
                    ev_timestamp := ts1 |} ])
         ++ [ {| ev_type := "Deleted";
                 ev_message := ("Deleted resources for " +:+ store_id);
                 ev_timestamp := ts2 |} ]) ∧
    (FINALIZER ∉ m_finalizers (o_metadata obj')) ∧
    w_namespaces w' =
      (if passes_ownership_check store_id (w_namespaces w !! store_ns)
       then delete store_ns (w_namespaces w)
       else w_namespaces w).
Proof.
  intros store_id store_ns Hobj Hcalm. unfold on_delete.
  rewrite String.eqb_refl. cbn [negb]. cbv zeta.
  fold store_id. fold store_ns.
  set (release := build_release_name _ store_id).
  unfold try_finally.
  match goal with |- context [patch_store_status cfg name ?a ?b ?c ?d ?e] =>
    destruct (patch_store_status_run cfg name obj a b c d e 6 w Hcalm Hobj)
      as (body1 & ts1 & w1 & Hrun1 & Hst1 & (Hns1 & _) & Hf1 & _ & Hb1 & Hev1) end.
  erewrite bind_ok by exact Hrun1.
  match goal with |- context [try_except (bind (run_helm cfg ?a ?t) ?k) ?h] =>
    destruct (uninstall_run a t w1) as (cmd & t' & Hrun2) end.
  erewrite bind_ok by exact Hrun2.
  set (w2 := set_trace _ (set_helm tail w1)).
  assert (calm 6 w2) as Hc2 by (by apply (calm_drop 2 6 w)).
  erewrite bind_ok by (by apply (namespace_is_owned_run store_id 5)).
  set (w3 := set_trace _ (set_faults tail w2)).
  assert (calm 5 w3) as Hc3 by (by apply (calm_drop 1 5 w2)).
  assert (w_namespaces w2 = w_namespaces w) as Hns2 by done.
  rewrite Hns2.
  set (obj1 := with_status (body1 ∪ o_status obj) obj) in *.
  assert (∃ w4, (if passes_ownership_check store_id (w_namespaces w !! store_ns)
                 then try_except (delete_namespace store_ns)
                        (on_api_exception (λ status e,
                           if negb (status =? 404)%Z then raise e else ret tt))
                 else ret tt) w3 = (Ok tt, w4) ∧
               w_stores w4 = w_stores w1 ∧ calm 4 w4 ∧
               w_namespaces w4 =
                 if passes_ownership_check store_id (w_namespaces w !! store_ns)
                 then delete store_ns (w_namespaces w) else w_namespaces w)
    as (w4 & Hrun4 & Hst4 & Hc4 & Hns4).
  { destruct (w_namespaces w !! store_ns) as [labels|] eqn:Hl; simpl.
    - destruct (_ && _).
      + erewrite (delete_namespace_run _ labels _ 4) by (done || by rewrite <- Hns1 in Hl).
        eexists. split; [reflexivity|]. cbn. split; [done|].
        split; [by apply (calm_drop 1 4 w3)|]. by rewrite Hns1.
      + exists w3. split; [done|]. split; [done|].
        split; [apply (calm_weaken 4 5); [lia|done]|]. done.
    - exists w3. split; [done|]. split; [done|].
      split; [apply (calm_weaken 4 5); [lia|done]|]. done. }
  erewrite bind_ok by exact Hrun4.
  assert (w_stores w4 !! name = Some obj1) as Hobj4
    by (by rewrite Hst4, Hst1, lookup_insert_eq).
  match goal with |- context [patch_store_status cfg name ?a ?b ?c ?d ?e w4] =>
    destruct (patch_store_status_run cfg name obj1 a b c d e 2 w4 Hc4 Hobj4)
      as (body5 & ts2 & w5 & Hrun5 & Hst5 & (Hns5 & _) & Hf5 & _ & Hb5 & Hev5) end.
  rewrite Hrun5.
  set (obj5 := with_status (body5 ∪ o_status obj1) obj1) in *.
  assert (w_stores w5 !! name = Some obj5) as Hobj5 by (by rewrite Hst5, lookup_insert_eq).
  assert (calm 2 w5) as Hc5 by (by apply (calm_drop 2 2 w4)).
  destruct (remove_finalizer_run name obj5 0 w5 Hc5 Hobj5) as (w6 & Hrun6 & Hst6 & Hns6).
  rewrite Hrun6.
  exists w6, (strip_finalizer obj5), ts1, ts2.
  split; [done|].
  split. { by rewrite Hst6, Hst5, Hst4, Hst1, !insert_insert_eq. }
  rewrite strip_finalizer_status.
  split. { simpl. apply lookup_union_Some_l. rewrite Hb5 by done. staged_lookup. }
  split.
  { simpl. erewrite events_of_union by exact Hev5. simpl. f_equal. f_equal.
    transitivity (events_of (o_status obj1)); [staged_lookup|].
    subst obj1. simpl. erewrite events_of_union by exact Hev1. simpl.
    f_equal. f_equal. staged_lookup. }
  split; [apply strip_finalizer_gone|].
  by rewrite Hns6, Hns5, Hns4.
Qed.

Lemma passes_ownership_check_owned store_id labels :
  owned_by store_id labels → passes_ownership_check store_id (Some labels) = true.
Proof.
  intros [H1 H2]. unfold passes_ownership_check.
  by rewrite !bool_decide_eq_true_2.
Qed.

(** The namespace passes the check and the cluster answers 404 to the
    delete call, the fourth call of the teardown. *)
Lemma on_delete_run_not_found spec name obj labels reason text rest w :
  let store_id := default name (sp_storeId spec) in
  let store_ns := store_namespace cfg store_id in
  w_stores w !! name = Some obj →
  w_namespaces w !! store_ns = Some labels →
  owned_by store_id labels →
  w_faults w = None :: None :: None :: Some (ApiFault 404 reason text) :: rest →
  Forall (λ o, o = None) (take 4 rest) →
  ∃ w' obj',
    on_delete cfg spec name (PLATFORM_NAMESPACE cfg) w = (Ok tt, w') ∧
    DeleteNamespace store_ns ∈ w_trace w' ∧
    w_stores w' = <[name := obj']> (w_stores w) ∧
    o_status obj' !! "phase" = Some (VStr "Deleted") ∧
    (FINALIZER ∉ m_finalizers (o_metadata obj')).
Proof.
  intros store_id store_ns Hobj Hlab Hown Hf Hrest. unfold on_delete.
  rewrite String.eqb_refl. cbn [negb]. cbv zeta.
  fold store_id. fold store_ns.
  set (release := build_release_name _ store_id).
  unfold try_finally.
  assert (calm 3 w) as Hcalm by (unfold calm; rewrite Hf; by repeat constructor).
  match goal with |- context [patch_store_status cfg name ?a ?b ?c ?d ?e] =>
    destruct (patch_store_status_run cfg name obj a b c d e 1 w Hcalm Hobj)
      as (body1 & ts1 & w1 & Hrun1 & Hst1 & (Hns1 & _) & Hf1 & _ & Hb1 & Hev1) end.
  erewrite bind_ok by exact Hrun1.
  match goal with |- context [try_except (bind (run_helm cfg ?a ?t) ?k) ?h] =>
    destruct (uninstall_run a t w1) as (cmd & t' & Hrun2) end.
  erewrite bind_ok by exact Hrun2.
  set (w2 := set_trace _ (set_helm tail w1)).
  assert (w_faults w2 = None :: Some (ApiFault 404 reason text) :: rest) as Hf2
    by (subst w2; cbn; by rewrite Hf1, Hf).
  assert (calm 1 w2) as Hc2 by (unfold calm; rewrite Hf2; by repeat constructor).
  erewrite bind_ok by (by apply (namespace_is_owned_run store_id 0)).
  set (w3 := set_trace _ (set_faults tail w2)).
  assert (w_namespaces w2 = w_namespaces w) as Hns2 by done.
  fold store_ns. rewrite Hns2, Hlab, (passes_ownership_check_owned _ _ Hown).
  set (w4 := set_trace (λ t, t ++ [DeleteNamespace store_ns]) (set_faults tail w3)).
  assert (try_except (delete_namespace store_ns)
            (on_api_exception (λ status e,
               if negb (status =? 404)%Z then raise e else ret tt)) w3 = (Ok tt, w4))
    as Hrun4.
  { unfold try_except, delete_namespace, bind, api.
    assert (head (w_faults w3) = Some (Some (ApiFault 404 reason text))) as ->
      by (subst w3 w2; cbn; by rewrite Hf1, Hf).
    done. }
  erewrite bind_ok by exact Hrun4.
  assert (w_faults w4 = rest) as Hf4 by (subst w4 w3 w2; cbn; by rewrite Hf1, Hf).
  assert (calm 4 w4) as Hc4 by (unfold calm; by rewrite Hf4).
  set (obj1 := with_status (body1 ∪ o_status obj) obj) in *.
  assert (w_stores w4 !! name = Some obj1) as Hobj4
    by (subst w4 w3 w2; cbn; by rewrite Hst1, lookup_insert_eq).
  match goal with |- context [patch_store_status cfg name ?a ?b ?c ?d ?e w4] =>
    destruct (patch_store_status_run cfg name obj1 a b c d e 2 w4 Hc4 Hobj4)
      as (body5 & ts2 & w5 & Hrun5 & Hst5 & (Hns5 & _) & Hf5 & Htr5 & Hb5 & Hev5) end.
  rewrite Hrun5.
  set (obj5 := with_status (body5 ∪ o_status obj1) obj1) in *.
  assert (w_stores w5 !! name = Some obj5) as Hobj5 by (by rewrite Hst5, lookup_insert_eq).
  assert (calm 2 w5) as Hc5 by (by apply (calm_drop 2 2 w4)).
  destruct (remove_finalizer_run name obj5 0 w5 Hc5 Hobj5) as (w6 & Hrun6 & Hst6 & Hns6).
  destruct (remove_finalizer_trace name obj5 0 w5 Hc5 Hobj5) as (calls & Htr6).
  rewrite Hrun6 in Htr6 |- *. simpl in Htr6.
  exists w6, (strip_finalizer obj5).
  split; [done|].
  split. { rewrite Htr6, Htr5. subst w4. cbn. set_solver. }
  split. { rewrite Hst6, Hst5. subst w4 w3 w2. cbn. by rewrite Hst1, !insert_insert_eq. }
  rewrite strip_finalizer_status.
  split. { simpl. apply lookup_union_Some_l. rewrite Hb5 by done. staged_lookup. }
  apply strip_finalizer_gone.
Qed.

End Teardown.

(** ** The event history, the resume fast path and the admin secret *)

Lemma slice_from_most_recent {A} (n : Z) (l : list A) :
  (1 ≤ n)%Z → Py.slice_from (- n) l = most_recent (Z.to_nat n) l.
Proof.
  intros Hn. unfold Py.slice_from, most_recent.
  destruct (Z.ltb_spec (- n) 0); [|lia]. f_equal. lia.
Qed.

Lemma length_most_recent {A} n (l : list A) : length (most_recent n l) ≤ n.
Proof. unfold most_recent. rewrite length_drop. lia. Qed.

Lemma most_recent_app {A} n (a b : list A) :
  most_recent n (most_recent n a ++ b) = most_recent n (a ++ b).
Proof.
  unfold most_recent. rewrite !length_app, length_drop.
  destruct (decide (length a ≤ n)) as [Hle|Hgt].
  - replace (length a - n) with 0 by lia. by rewrite Nat.sub_0_r.
  - replace (length a - (length a - n) + length b - n) with (length b) by lia.
    replace (length a + length b - n) with ((length a - n) + length b) by lia.
    rewrite <- drop_drop. f_equal. rewrite drop_app_le by lia. done.
Qed.

Lemma most_recent_ge {A} n (l : list A) : length l ≤ n → most_recent n l = l.
Proof. intros H. unfold most_recent. by replace (length l - n) with 0 by lia. Qed.

Lemma most_recent_full {A} n (a b : list A) :
  n ≤ length b → most_recent n (a ++ b) = most_recent n b ∧ length (most_recent n b) = n.
Proof.
  intros H. unfold most_recent. rewrite length_app, !length_drop. split; [|lia].
  replace (length a + length b - n) with (length a + (length b - n)) by lia.
  by rewrite <- drop_drop, drop_app_length.
Qed.

Lemma ring_fold {A} (n : Z) (ev : A) (news old : list A) :
  (1 ≤ n)%Z →
  fold_left (λ l ev, Py.slice_from (- n) (l ++ [ev])) (ev :: news) old
  = most_recent (Z.to_nat n) (old ++ ev :: news).
Proof.
  intros Hn. revert ev old. induction news as [|ev' news IH]; intros ev old.
  - simpl. by apply slice_from_most_recent.
  - change (fold_left _ (ev :: ev' :: news) old)
      with (fold_left (λ l ev, Py.slice_from (- n) (l ++ [ev])) (ev' :: news)
              (Py.slice_from (- n) (old ++ [ev]))).
    rewrite IH, slice_from_most_recent, most_recent_app, <- app_assoc by done. done.
Qed.

Section Status.

Context (cfg : Config).

Lemma staged_status_other old phase sets drops k :
  k ≠ "phase" → k ∉ sets.*1 → k ∉ drops →
  staged_status old phase sets drops !! k = old !! k.
Proof.
  intros Hp Hs Hd. unfold staged_status.
  set (start := if Py.truthy_opt phase then _ else _).
  assert (start !! k = old !! k) as <-
    by (subst start; destruct (Py.truthy_opt phase); by rewrite ?lookup_insert_ne).
  clearbody start. clear Hp.
  revert start. induction sets as [|[k' v] sets IH]; intros start; simpl.
  - clear Hs. revert start. induction drops as [|d drops IH]; intros start; simpl; [done|].
    apply not_elem_of_cons in Hd as [Hne Hd].
    rewrite IH by done. by apply lookup_delete_ne.
  - rewrite fmap_cons in Hs. apply not_elem_of_cons in Hs as [Hne Hs]. simpl in Hne.
    rewrite IH by done. unfold set_field. simpl.
    by destruct v; [apply lookup_insert_ne | apply lookup_delete_ne].
Qed.

(** C3. A resume event in the platform namespace for a Store whose status
    has phase Ready and an [observedGeneration] equal to the generation of
    its metadata: [on_resume] returns [None] and leaves the world, trace
    included, exactly as it was: no call is made, nothing is written. *)
Theorem on_resume_ready_is_skipped spec status name meta generation w :
  status !! "phase" = Some (VStr "Ready") →
  status !! "observedGeneration" = Some (VInt generation) →
  m_generation meta = Some generation →
  on_resume cfg spec status name (PLATFORM_NAMESPACE cfg) meta w = (Ok None, w).
Proof.
  intros Hp Ho Hg. unfold on_resume. rewrite String.eqb_refl, Hp, Ho, Hg. simpl.
  rewrite !bool_decide_eq_true_2 by done. simpl.
  by destruct (Py.truthy_opt _).
Qed.


(** X29.  With a capacity [MAX_STATUS_EVENTS] of at least 1, when the
    Store exists and the API serves the two calls, a status write that
    appends an event (and does not name [events] among the fields to set or
    drop) leaves in [status.events] the
    most recent [MAX_STATUS_EVENTS] records of the stored history followed by
    the new record, hence at most [MAX_STATUS_EVENTS] records.  Iterating
    this step over a non-empty list of new records leaves the most recent
    [MAX_STATUS_EVENTS] of the history followed by them, and exactly the
    last [MAX_STATUS_EVENTS] new records once that many were appended. *)
Theorem events_are_a_ring_buffer name obj phase ety emsg sets drops w :
  (1 ≤ MAX_STATUS_EVENTS cfg)%Z →
  Py.truthy_opt ety = true →
  "events" ∉ sets.*1 → "events" ∉ drops →
  w_stores w !! name = Some obj →
  calm 2 w →
  (∃ w' obj' ts,
     patch_store_status cfg name phase ety emsg sets drops w = (Ok tt, w') ∧
     w_stores w' = <[name := obj']> (w_stores w) ∧
     events_of (o_status obj') =
       most_recent (Z.to_nat (MAX_STATUS_EVENTS cfg))
         (events_of (o_status obj) ++ [new_event ety emsg ts]) ∧
     length (events_of (o_status obj')) ≤ Z.to_nat (MAX_STATUS_EVENTS cfg)) ∧
  (∀ (old news : list StoreEvent) ev,
     let stored :=
       fold_left (λ l ev, Py.slice_from (- MAX_STATUS_EVENTS cfg) (l ++ [ev]))
         (ev :: news) old in
     stored = most_recent (Z.to_nat (MAX_STATUS_EVENTS cfg)) (old ++ ev :: news) ∧
     (Z.to_nat (MAX_STATUS_EVENTS cfg) ≤ length (ev :: news) →
      stored = most_recent (Z.to_nat (MAX_STATUS_EVENTS cfg)) (ev :: news) ∧
      length stored = Z.to_nat (MAX_STATUS_EVENTS cfg))).
Proof.
  intros Hn Hety Hs Hd Hobj Hcalm. split.
  - destruct (patch_store_status_run cfg name obj phase ety emsg sets drops 0 w Hcalm Hobj)
      as (body & ts & w' & Hrun & Hst & _ & _ & _ & _ & Hev).
    exists w', (with_status (body ∪ o_status obj) obj), ts.
    split; [done|]. split; [done|].
    assert (events_of (body ∪ o_status obj) =
            most_recent (Z.to_nat (MAX_STATUS_EVENTS cfg))
              (events_of (o_status obj) ++ [new_event ety emsg ts])) as Heq.
    { erewrite events_of_union by exact Hev. rewrite Hety.
      rewrite slice_from_most_recent by done. do 2 f_equal.
      unfold events_of. by rewrite staged_status_other. }
    simpl. rewrite Heq. split; [done|]. apply length_most_recent.
  - intros old news ev stored. subst stored. rewrite ring_fold by done.
    split; [done|]. intros Hlen.
    destruct (most_recent_full (Z.to_nat (MAX_STATUS_EVENTS cfg)) old (ev :: news) Hlen)
      as [-> Hl]. done.
Qed.


Lemma rand_chars_run n w :
  ∃ cs w', rand_chars n w = (Ok cs, w') ∧ length cs = n ∧
    w_secrets w' = w_secrets w ∧ w_namespaces w' = w_namespaces w ∧
    w_faults w' = w_faults w ∧ w_trace w' = w_trace w.
Proof.
  revert w. induction n as [|n IH]; intros w; simpl.
  - by exists [], w.
  - unfold bind at 1, secrets_choice.
    set (w1 := set_rng tail w).
    destruct (IH w1) as (cs & w' & Hrun & Hlen & Hs & Hn & Hf & Ht).
    unfold bind at 1. rewrite Hrun. eexists _, _. split; [reflexivity|].
    simpl. by rewrite Hlen.
Qed.

Lemma rand_password_run w :
  ∃ password w', rand_password 20 w = (Ok password, w') ∧ Py.truthy password = true ∧
    w_secrets w' = w_secrets w ∧ w_namespaces w' = w_namespaces w ∧
    w_faults w' = w_faults w ∧ w_trace w' = w_trace w.
Proof.
  destruct (rand_chars_run 20 w) as (cs & w' & Hrun & Hlen & Hrest).
  unfold rand_password. erewrite bind_ok by exact Hrun.
  eexists _, _. split; [reflexivity|]. split; [|done].
  destruct cs; [done|]. done.
Qed.

Lemma ensure_admin_secret_found ns store_id creds n w :
  calm (S n) w →
  stored_credentials (w_secrets w !! (ns, ADMIN_SECRET_NAME cfg)) = Some creds →
  ensure_admin_secret cfg ns store_id w =
    (Ok creds,
     set_trace (λ t, t ++ [ReadSecret (ADMIN_SECRET_NAME cfg) ns]) (set_faults tail w)).
Proof.
  intros Hc Hst. unfold ensure_admin_secret.
  match goal with |- bind ?rd _ _ = _ =>
    assert (rd w = (Ok (Some creds),
                    set_trace (λ t, t ++ [ReadSecret (ADMIN_SECRET_NAME cfg) ns])
                      (set_faults tail w))) as Hrd end.
  { unfold try_except, read_namespaced_secret, bind.
    rewrite (api_run _ n) by done. cbn.
    unfold stored_credentials in Hst.
    destruct (w_secrets w !! _) as [data|]; [|done]. cbn.
    destruct (data !! "username") as [u|]; [|done].
    destruct (data !! "password") as [p|]; [|done].
    destruct (Py.truthy u && Py.truthy p); [|done]. by simplify_eq. }
  by erewrite bind_ok by exact Hrd.
Qed.

Lemma ensure_admin_secret_stored ns store_id creds w w1 :
  ensure_admin_secret cfg ns store_id w = (Ok creds, w1) →
  stored_credentials (w_secrets w1 !! (ns, ADMIN_SECRET_NAME cfg)) = Some creds.
Proof.
  unfold ensure_admin_secret. unfold bind at 1.
  set (rd := try_except _ _).
  assert (∀ r wr, rd w = (r, wr) →
            w_secrets wr = w_secrets w ∧
            ∀ c, r = Ok (Some c) →
                 stored_credentials (w_secrets w !! (ns, ADMIN_SECRET_NAME cfg)) = Some c)
    as Hrd.
  { intros r wr. subst rd.
    unfold try_except, read_namespaced_secret, bind, api, stored_credentials.
    destruct (head (w_faults w)) as [[[s rs t|t]|]|]; cbn.
    - destruct (negb _); intros [= <- <-]; done.
    - intros [= <- <-]; done.
    - destruct (w_secrets w !! _) as [data|]; cbn; [|intros [= <- <-]; done].
      destruct (data !! "username") as [u|]; [|intros [= <- <-]; done].
      destruct (data !! "password") as [p|]; [|intros [= <- <-]; done].
      destruct (Py.truthy u && Py.truthy p); intros [= <- <-]; (split; [done|]);
        intros c ?; by simplify_eq.
    - destruct (w_secrets w !! _) as [data|]; cbn; [|intros [= <- <-]; done].
      destruct (data !! "username") as [u|]; [|intros [= <- <-]; done].
      destruct (data !! "password") as [p|]; [|intros [= <- <-]; done].
      destruct (Py.truthy u && Py.truthy p); intros [= <- <-]; (split; [done|]);
        intros c ?; by simplify_eq. }
  destruct (rd w) as [[[c|]|e] wr]; destruct (Hrd _ _ eq_refl) as [Hsec Hc];
    clear Hrd; [| |done].
  { intros [= <- <-]. rewrite Hsec. by apply Hc. }
  clear Hc. unfold bind at 1.
  destruct (rand_password_run wr) as (password & wp & Hrun & Htruthy & Hsp & _).
  rewrite Hrun. unfold bind at 1.
  set (sd := <["username":="admin"]> _).
  assert (sd !! "username" = Some "admin") as Hu by (by subst sd; simplify_map_eq).
  assert (sd !! "password" = Some password) as Hp by (by subst sd; simplify_map_eq).
  clearbody sd.
  unfold try_except, create_namespaced_secret, patch_namespaced_secret, bind, api, ret.
  destruct (head (w_faults wp)) as [[[s rs t|t]|]|]; world_step.
  - destruct (negb _); world_step; [done|].
    match goal with |- context [head ?fs] => destruct (head fs) as [[[s' rs' t'|t']|]|] end;
      world_step; try done.
    all: destruct (w_secrets wp !! _) as [data|]; world_step; [|done].
    all: intros ?; simplify_eq; world_proj; rewrite (lookup_insert_eq (w_secrets wp)); unfold stored_credentials.
    all: rewrite (lookup_union_Some_l _ _ _ _ Hu), (lookup_union_Some_l _ _ _ _ Hp).
    all: by rewrite Htruthy.
  - done.
  - destruct (w_namespaces wp !! ns); world_step; [|done].
    destruct (w_secrets wp !! (ns, ADMIN_SECRET_NAME cfg)) as [data|] eqn:Hdata; world_step.
    + match goal with |- context [head ?fs] => destruct (head fs) as [[[s' rs' t'|t']|]|] end;
        world_step; try done.
      all: rewrite ?Hdata; world_step.
      all: intros ?; simplify_eq; world_proj; rewrite (lookup_insert_eq (w_secrets wp)); unfold stored_credentials.
      all: rewrite (lookup_union_Some_l _ _ _ _ Hu), (lookup_union_Some_l _ _ _ _ Hp).
      all: by rewrite Htruthy.
    + intros ?; simplify_eq; world_proj; rewrite (lookup_insert_eq (w_secrets wp)); unfold stored_credentials.
      by rewrite Hu, Hp, Htruthy.
  - destruct (w_namespaces wp !! ns); world_step; [|done].
    destruct (w_secrets wp !! (ns, ADMIN_SECRET_NAME cfg)) as [data|] eqn:Hdata; world_step.
    + match goal with |- context [head ?fs] => destruct (head fs) as [[[s' rs' t'|t']|]|] end;
        world_step; try done.
      all: rewrite ?Hdata; world_step.
      all: intros ?; simplify_eq; world_proj; rewrite (lookup_insert_eq (w_secrets wp)); unfold stored_credentials.
      all: rewrite (lookup_union_Some_l _ _ _ _ Hu), (lookup_union_Some_l _ _ _ _ Hp).
      all: by rewrite Htruthy.
    + intros ?; simplify_eq; world_proj; rewrite (lookup_insert_eq (w_secrets wp)); unfold stored_credentials.
      by rewrite Hu, Hp, Htruthy.
Qed.

Lemma truthy_nonempty s : s ≠ "" → Py.truthy s = true.
Proof. intros H. unfold Py.truthy. by destruct s. Qed.

(** C6. When the read of the admin secret is served and the secret holds a
    non-empty username and a non-empty password, [ensure_admin_secret]
    returns that pair and does nothing but the read.  Whenever a call
    returns a pair, a second call whose read is served returns the same
    pair, writes no secret and draws no randomness.  And when the read is
    served, a call writes a secret only if the stored secret had no such
    pair (it was missing, or a field was missing or empty). *)
Theorem admin_credentials_are_stable ns store_id w :
  let secret := w_secrets w !! (ns, ADMIN_SECRET_NAME cfg) in
  let read := ReadSecret (ADMIN_SECRET_NAME cfg) ns in
  (∀ data username password,
     calm 1 w →
     secret = Some data →
     data !! "username" = Some username → data !! "password" = Some password →
     username ≠ "" → password ≠ "" →
     ensure_admin_secret cfg ns store_id w =
       (Ok (username, password), set_trace (λ t, t ++ [read]) (set_faults tail w))) ∧
  (∀ creds w1,
     ensure_admin_secret cfg ns store_id w = (Ok creds, w1) →
     calm 1 w1 →
     ∃ w2, ensure_admin_secret cfg ns store_id w1 = (Ok creds, w2) ∧
           w_secrets w2 = w_secrets w1 ∧ w_rng w2 = w_rng w1) ∧
  (calm 1 w →
   ∀ c, c ∈ drop (length (w_trace w)) (w_trace (ensure_admin_secret cfg ns store_id w).2) →
        is_secret_write c = true →
        stored_credentials secret = None).
Proof.
  cbv zeta. split; [|split].
  - intros data username password Hc Hs Hu Hp Hnu Hnp.
    apply (ensure_admin_secret_found _ _ _ 0); [done|].
    unfold stored_credentials. rewrite Hs, Hu, Hp.
    by rewrite !truthy_nonempty.
  - intros creds w1 Hrun Hc.
    pose proof (ensure_admin_secret_stored _ _ _ _ _ Hrun) as Hst.
    eexists. split; [by apply (ensure_admin_secret_found _ _ _ 0)|]. done.
  - intros Hc c Hin Hw.
    destruct (stored_credentials _) as [creds|] eqn:Hst; [|done].
    rewrite (ensure_admin_secret_found _ _ _ 0 _ Hc Hst) in Hin.
    cbn in Hin. rewrite drop_app_length in Hin.
    apply list_elem_of_singleton in Hin as ->. done.
Qed.

End Status.

(** ** Exceptions that are not permanent *)

Ltac throws_structure :=
  lazymatch goal with
  | |- throws _ (bind _ _) => apply throws_bind; [| intros ?]
  | |- throws _ (ret _) => apply throws_ret
  | |- throws _ (raise _) => apply throws_raise; first [assumption | reflexivity]
  | |- throws _ not_found => apply throws_raise; reflexivity
  | |- throws _ conflict => apply throws_raise; reflexivity
  | |- throws _ (try_except _ (on_api_exception _)) =>
      apply throws_on_api_exception; [| intros ? ? ?]
  | |- throws _ (try_except _ (on_exception _)) =>
      apply throws_on_exception; [| intros ? ?]
  | |- throws _ (try_finally _ _) => apply throws_try_finally
  | |- throws _ (if ?b then _ else _) => destruct b
  | |- throws _ (match ?x with _ => _ end) => destruct x
  end.

Section Defaults.

Context (cfg : Config).

Lemma transient_api c : throws transient (api c).
Proof.
  intros w e. unfold api. destruct (head (w_faults w)) as [[f|]|]; simpl; try done.
  intros [= <-]. by destruct f.
Qed.

Ltac transient_leaf :=
  let w := fresh "w" in let e := fresh "e" in
  intros w e; unfold not_found, conflict, raise; cbn;
  repeat case_match; cbn; intros ?; simplify_eq; first [ reflexivity | assumption ].

Ltac transient :=
  repeat first [ throws_structure | apply transient_api | assumption | transient_leaf ].

Lemma transient_patch_store_status name phase ety emsg sets drops :
  throws transient (patch_store_status cfg name phase ety emsg sets drops).
Proof.
  unfold patch_store_status, get_store, _safe_patch_store_status,
    patch_namespaced_custom_object_status, now_iso. transient.
Qed.

Lemma transient_rand_chars n : throws transient (rand_chars n).
Proof. induction n; simpl; unfold secrets_choice; transient. Qed.

Lemma transient_reconcile_store name namespace spec meta handler :
  ENGINE_HANDLERS cfg !! default "woocommerce" (sp_engine spec) = Some handler →
  throws transient (reconcile_store cfg name namespace spec meta).
Proof.
  intros Hh. unfold reconcile_store. rewrite Hh.
  pose proof transient_patch_store_status.
  pose proof transient_rand_chars.
  unfold reconcile_store_gated, reconcile_store_guarded, reconcile_store_failed,
    add_finalizer, get_store, patch_namespaced_custom_object,
    semaphore_acquire, semaphore_release,
    ensure_namespace, read_namespace, patch_namespace, create_namespace,
    ensure_namespace_resources, apply_resourcequota, apply_limitrange,
    apply_networkpolicy_default_deny, apply_networkpolicy_allow_required, create_or_patch,
    ensure_admin_secret, read_namespaced_secret, create_namespaced_secret,
    patch_namespaced_secret, rand_password, run_helm, subprocess_run,
    post_ready_checks, now_iso.
  repeat first [ throws_structure | apply transient_api | done | transient_leaf ].
Qed.


End Defaults.

(** ** The request layer *)

Ltac api_step :=
  cbn [Api.a_stores Api._ip_create_requests Api.a_time Api.a_server_time Api.a_env
       head tail fst snd on_api_exception on_exception exn_of_fault
       negb Z.eqb Pos.eqb conflict not_found raise ret].

Section RequestLayer.

Import Api.

Context (cfg : Config).

Lemma check_create_rate_limit_run ip w :
  Api.within_rate_limit cfg ip w →
  ∃ w', _check_create_rate_limit cfg ip w = (Ok tt, w') ∧
        a_stores w' = a_stores w ∧ a_env w' = a_env w ∧
        a_server_time w' = a_server_time w.
Proof.
  unfold within_rate_limit, counted. intros H.
  unfold _check_create_rate_limit, bind, time, set_bucket. cbn.
  destruct (Z.leb_spec (CREATE_RATE_LIMIT cfg)
              (Z.of_nat (length (expire cfg (default 0%Q (head (a_time w)))
                                   (default [] (_ip_create_requests w !! ip))))));
    [lia|].
  eexists. split; [reflexivity|]. done.
Qed.

Lemma get_store_or_none_found store_id obj rest w :
  a_env w = Quiet :: rest ∨ a_env w = [] →
  a_stores w !! store_id = Some obj →
  ∃ w', _get_store_or_none store_id w = (Ok (Some obj), w') ∧
        a_stores w' = a_stores w ∧ a_env w' = tail (a_env w) ∧
        a_server_time w' = a_server_time w.
Proof.
  intros Henv Hobj. unfold _get_store_or_none, try_except, bind, api.
  destruct Henv as [-> | ->]; cbn; rewrite Hobj; eexists; (split; [reflexivity|]); done.
Qed.

Lemma get_store_or_none_missing store_id rest w :
  a_env w = Quiet :: rest →
  a_stores w !! store_id = None →
  _get_store_or_none store_id w =
    (Ok None,
     {| a_stores := a_stores w; _ip_create_requests := _ip_create_requests w;
        a_time := a_time w; a_server_time := a_server_time w; a_env := rest |}).
Proof.
  intros Henv Hobj. unfold _get_store_or_none, try_except, bind, api.
  rewrite Henv. cbn. rewrite Hobj. done.
Qed.

(** C9, as amended.  For a create request of a caller below the rate
    limit.  On the initial check: if the read of the Store is served and
    finds it, the answer is the representation of the existing Store when
    its engine is the one requested, and a 409 otherwise, and no Store is
    changed.  On the race path: if the first read is served and finds
    nothing, the list request is served, the quotas are met, another client
    creates the Store just before the caller's create is served, and the
    read that follows the refusal is served, the answer is again the
    representation of that Store when its engine is the one requested, and
    a 409 otherwise. *)
Theorem create_is_idempotent_within_rate_limit req request w :
  let caller_ip := _client_ip request in
  Api.within_rate_limit cfg caller_ip w →
  (∀ existing rest,
     a_env w = Quiet :: rest ∨ a_env w = [] →
     a_stores w !! storeId req = Some existing →
     ∃ w', create_store cfg req request w = (Api.idempotent_answer cfg req existing, w') ∧
           a_stores w' = a_stores w) ∧
  (∀ existing rest,
     a_stores w !! storeId req = None →
     a_env w = Quiet :: Quiet :: RacingCreate existing :: Quiet :: rest →
     m_name (o_metadata existing) = storeId req →
     Api.within_quotas cfg (snd <$> map_to_list (a_stores w)) caller_ip →
     ∃ w', create_store cfg req request w = (Api.idempotent_answer cfg req existing, w') ∧
           a_stores w' = <[storeId req := existing]> (a_stores w)).
Proof.
  intros caller_ip Hrate.
  destruct (check_create_rate_limit_run caller_ip w Hrate) as (w1 & Hrun1 & Hst1 & Henv1 & Hsv1).
  split.
  - intros existing rest Henv Hobj. unfold create_store. fold caller_ip.
    erewrite bind_ok by exact Hrun1.
    destruct (get_store_or_none_found (storeId req) existing rest w1) as (w2 & Hrun2 & Hst2 & _);
      [by rewrite Henv1 | by rewrite Hst1 |].
    erewrite bind_ok by exact Hrun2.
    exists w2. split; [|congruence].
    unfold Api.idempotent_answer. by case_bool_decide.
  - intros existing rest Hnone Henv Hname Hquota. unfold create_store. fold caller_ip.
    erewrite bind_ok by exact Hrun1.
    erewrite bind_ok
      by (apply (get_store_or_none_missing _ (Quiet :: RacingCreate existing :: Quiet :: rest));
          [by rewrite Henv1, Henv | by rewrite Hst1]).
    unfold _list_store_objects at 1.
    erewrite bind_ok
      by (apply try_except_ok; unfold bind, api; api_step; reflexivity).
    api_step. rewrite Hst1.
    erewrite bind_ok by apply Hquota.
    match goal with |- context [try_except _ _ ?w0] => set (w3 := w0) end.
    assert (create_namespaced_custom_object (storeId req)
              {| sp_engine := Some (engine req); sp_storeId := Some (storeId req);
                 sp_requestedBy_ip := Some caller_ip;
                 sp_requestedBy_userAgent := Some (default "unknown" (user_agent request)) |}
              w3
            = (Err (ApiException 409 "Conflict" "(409) Reason: Conflict"),
               {| a_stores := <[storeId req := existing]> (a_stores w);
                  _ip_create_requests := _ip_create_requests w1;
                  a_time := a_time w1; a_server_time := a_server_time w1;
                  a_env := Quiet :: rest |})) as Hcreate.
    { unfold create_namespaced_custom_object, bind, api. subst w3.
      api_step. rewrite Hname, lookup_insert_eq. done. }
    erewrite try_except_caught;
      [| erewrite bind_err by exact Hcreate; reflexivity | reflexivity].
    api_step.
    edestruct (get_store_or_none_found (storeId req) existing rest) as (w5 & Hrun5 & Hst5 & _);
      cycle 2.
    { erewrite bind_ok by exact Hrun5. exists w5. split; [|exact Hst5].
      unfold Api.idempotent_answer. by case_bool_decide. }
    { by left. }
    { api_step. apply lookup_insert_eq. }
Qed.

End RequestLayer.

(** ** Teardown, in one statement *)

Section TeardownSafety.

Context (cfg : Config).

(** C1. Whatever the environment does, [on_delete] changes the namespaces
    in at most one way: it removes the tenant namespace of this Store, and
    only after having read it with the prefix in its name and with both
    ownership labels (the managed marker equal to "true", the storeId label
    equal to this Store's id).  A namespace that is absent or fails the
    check is therefore never removed.  When the Store exists and the API
    serves the calls, a namespace that is absent ("not found") or that fails
    the check does not stop the teardown: [on_delete] returns normally, the
    namespaces are as before, the stored phase is Deleted with a Deleted
    event, and the finalizer is gone.  The same end is reached when the
    namespace passes the check and the cluster answers 404 ("not found") to
    the delete call itself. *)
Theorem namespace_deleted_only_if_owned spec name namespace w :
  let store_id := default name (sp_storeId spec) in
  let store_ns := store_namespace cfg store_id in
  let owned := ∃ labels, w_namespaces w !! store_ns = Some labels ∧ owned_by store_id labels in
  let w' := (on_delete cfg spec name namespace w).2 in
  (w_namespaces w' = w_namespaces w ∨
   (w_namespaces w' = delete store_ns (w_namespaces w) ∧
    String.prefix (STORE_NS_PREFIX cfg) store_ns = true ∧ owned)) ∧
  (¬ owned → w_namespaces w' = w_namespaces w) ∧
  (∀ obj,
     namespace = PLATFORM_NAMESPACE cfg →
     w_stores w !! name = Some obj →
     calm 8 w →
     passes_ownership_check store_id (w_namespaces w !! store_ns) = false →
     ∃ obj' ts1 ts2,
       on_delete cfg spec name namespace w = (Ok tt, w') ∧
       w_namespaces w' = w_namespaces w ∧
       w_stores w' = <[name := obj']> (w_stores w) ∧
       o_status obj' !! "phase" = Some (VStr "Deleted") ∧
       events_of (o_status obj') =
         Py.slice_from (- MAX_STATUS_EVENTS cfg)
           (Py.slice_from (- MAX_STATUS_EVENTS cfg)
              (events_of (o_status obj)
               ++ [ {| ev_type := "Deleting";
                       ev_message :=
                         ("Deleting " +:+
                          build_release_name
                            (default (woocommerce_handler cfg)
                               (ENGINE_HANDLERS cfg
                                  !! default "woocommerce" (sp_engine spec)))
                            store_id);
                       ev_timestamp := ts1 |} ])
            ++ [ {| ev_type := "Deleted";
                    ev_message := ("Deleted resources for " +:+ store_id);
                    ev_timestamp := ts2 |} ]) ∧
       (FINALIZER ∉ m_finalizers (o_metadata obj'))) ∧
  (∀ obj reason text rest,
     namespace = PLATFORM_NAMESPACE cfg →
     w_stores w !! name = Some obj →
     owned →
     w_faults w = None :: None :: None :: Some (ApiFault 404 reason text) :: rest →
     Forall (λ o, o = None) (take 4 rest) →
     ∃ obj',
       on_delete cfg spec name namespace w = (Ok tt, w') ∧
       DeleteNamespace store_ns ∈ w_trace w' ∧
       w_stores w' = <[name := obj']> (w_stores w) ∧
       o_status obj' !! "phase" = Some (VStr "Deleted") ∧
       (FINALIZER ∉ m_finalizers (o_metadata obj'))).
Proof.
  cbv zeta.
  pose proof (on_delete_namespaces cfg spec name namespace w) as Hsafe. cbv zeta in Hsafe.
  split; [|split; [|split]].
  - destruct Hsafe as [?|(? & _ & ? & ?)]; [by left | by right].
  - intros Hno. destruct Hsafe as [?|(_ & _ & _ & ?)]; done.
  - intros obj -> Hobj Hcalm Hcheck.
    destruct (on_delete_run cfg spec name obj w Hobj Hcalm)
      as (w1 & obj' & ts1 & ts2 & Hrun & Hst & Hph & Hev & Hfin & Hns).
    rewrite Hrun. simpl. rewrite Hcheck in Hns.
    by exists obj', ts1, ts2.
  - intros obj reason text rest -> Hobj (labels & Hlab & Hown) Hf Hrest.
    destruct (on_delete_run_not_found cfg spec name obj labels reason text rest w
                Hobj Hlab Hown Hf Hrest)
      as (w1 & obj' & Hrun & Htr & Hst & Hph & Hfin).
    rewrite Hrun. simpl. by exists obj'.
Qed.

End TeardownSafety.

(** ** Worked runs

    The runs of the Store [acme] that instantiate the statements above. *)

Lemma calm_nil n obj namespaces secrets gate helm :
  calm n (cluster obj namespaces secrets gate [] helm).
Proof. unfold calm. simpl. rewrite take_nil. constructor. Defined.

(** C5, a run: with both permits free, a reconciliation that provisions
    [acme] leaves both permits free. *)
Lemma gate_released_run :
  w_gate (reconcile_store default_config "acme" "store-platform" (acme_spec (Some "medusa"))
            (acme_meta [])
            (cluster (acme (Some "medusa") [] ∅) ∅ ∅ 2 [] [])).2 = 2.
Proof.
  refine (proj1 (gate_released_on_every_path default_config "acme" "store-platform"
                   (acme_spec (Some "medusa")) (acme_meta [])
                   (cluster (acme (Some "medusa") [] ∅) ∅ ∅ 2 [] []) _)).
  simpl. lia.
Defined.

(** C2, a run: an engine nobody registered. *)
Lemma unsupported_engine_run :
  let w := cluster (acme (Some "magento") [] ∅) ∅ ∅ 2 [] [] in
  let run := reconcile_store default_config "acme" "store-platform"
               (acme_spec (Some "magento")) (acme_meta []) w in
  ∃ obj',
    run.1 = Err (PermanentError "Unsupported engine 'magento'") ∧
    w_stores run.2 = <["acme" := obj']> (w_stores w) ∧
    o_status obj' !! "phase" = Some (VStr "Failed") ∧
    o_metadata obj' = acme_meta [] ∧
    w_namespaces run.2 = ∅ ∧ w_gate run.2 = 2.
Proof.
  cbv zeta.
  destruct (unsupported_engine_fails_permanently default_config "acme"
              (acme_spec (Some "magento")) (acme_meta []) "magento"
              (cluster (acme (Some "magento") [] ∅) ∅ ∅ 2 [] [])
              eq_refl ltac:(vm_compute; reflexivity))
    as (_ & _ & _ & _ & Hns & _ & Hg & _ & _ & Hserved).
  destruct (Hserved (acme (Some "magento") [] ∅) ltac:(vm_compute; reflexivity)
              (calm_nil _ _ _ _ _ _))
    as (obj' & body & ts & Hrun & _ & Hst & Hmeta & _ & Hph & _).
  exists obj'. split; [exact Hrun|]. split; [exact Hst|]. split; [exact Hph|].
  split; [exact Hmeta|]. split; [exact Hns | exact Hg].
Defined.

(** C2 as stated fails in two ways.  The engine of [acme] is not
    registered.  When the cluster answers 503 to the read of the Store that
    opens the status write, [reconcile_store] raises that [ApiException],
    not a [PermanentError], and the stored phase is still Provisioning, with
    no [lastError] and no event.  When every call is served and the capacity
    of the history is configured as -1, [PermanentError] is raised and the
    phase is Failed, but the history is empty: the slice has dropped the
    Failed event. *)
Lemma unsupported_engine_write_can_fail :
  let spec := acme_spec (Some "magento") in
  let w := cluster (acme (Some "magento") [] provisioning) ∅ ∅ 2 [Some unavailable] [] in
  let run := reconcile_store default_config "acme" "store-platform" spec (acme_meta []) w in
  let v := cluster (acme (Some "magento") [] provisioning) ∅ ∅ 2 [] [] in
  let short := reconcile_store negative_capacity "acme" "store-platform" spec (acme_meta []) v in
  let status w' := o_status <$> w_stores w' !! "acme" in
  sp_engine spec = Some "magento" ∧
  ENGINE_HANDLERS default_config !! "magento" = None ∧
  run.1 = Err (ApiException 503 "Service Unavailable" "(503) Reason: Service Unavailable") ∧
  (∀ msg, run.1 ≠ Err (PermanentError msg)) ∧
  status run.2 ≫= (.!! "phase") = Some (VStr "Provisioning") ∧
  status run.2 ≫= (.!! "lastError") = None ∧
  events_of <$> status run.2 = Some [] ∧
  short.1 = Err (PermanentError "Unsupported engine 'magento'") ∧
  status short.2 ≫= (.!! "phase") = Some (VStr "Failed") ∧
  events_of <$> status short.2 = Some [].
Proof.
  cbv beta zeta. repeat split; try (vm_compute; reflexivity).
  intros msg. vm_compute. discriminate.
Qed.

(** C3, a run: [acme] is Ready at generation 3 and is resumed. *)
Lemma resume_of_ready_store_run :
  let status : gmap string value :=
    {[ "phase" := VStr "Ready"; "observedGeneration" := VInt 3 ]} in
  let w := cluster (acme (Some "medusa") [FINALIZER] status) ∅ ∅ 2 [] [] in
  on_resume default_config (acme_spec (Some "medusa")) status "acme" "store-platform"
    (acme_meta [FINALIZER]) w = (Ok None, w).
Proof.
  cbv zeta.
  apply (on_resume_ready_is_skipped default_config (acme_spec (Some "medusa")) _ "acme"
           (acme_meta [FINALIZER]) 3%Z);
    [vm_compute; reflexivity | vm_compute; reflexivity | reflexivity].
Defined.

(** C4, a run: both permits are held by other reconciliations. *)
Lemma gate_timeout_run :
  let w := cluster (acme (Some "medusa") [] ∅) ∅ ∅ 0 [] [] in
  let run := reconcile_store default_config "acme" "store-platform"
               (acme_spec (Some "medusa")) (acme_meta []) w in
  ∃ obj',
    run.1 = Err (TemporaryError "Provisioning lock timeout" 15) ∧
    w_stores run.2 = <["acme" := obj']> (w_stores w) ∧
    o_status obj' !! "phase" = Some (VStr "Failed") ∧
    o_status obj' !! "lastError" = Some (VStr "Provisioning lock timeout") ∧
    w_namespaces run.2 = ∅ ∧ w_secrets run.2 = ∅.
Proof.
  cbv zeta.
  destruct (gate_timeout_is_retryable default_config "acme" "store-platform"
              (acme_spec (Some "medusa")) (acme_meta [])
              (cluster (acme (Some "medusa") [] ∅) ∅ ∅ 0 [] []))
    as (_ & Hsafe & Hserved).
  destruct (Hsafe eq_refl) as (_ & Hns & Hsec & _).
  destruct (Hserved (medusa_handler default_config) (acme (Some "medusa") [] ∅) eq_refl
              ltac:(vm_compute; reflexivity) ltac:(vm_compute; reflexivity) eq_refl
              (calm_nil _ _ _ _ _ _))
    as (obj' & b1 & b2 & t1 & t2 & Hrun & _ & Hst & Hph & Herr & _).
  exists obj'. split; [exact Hrun|]. split; [exact Hst|]. split; [exact Hph|].
  split; [exact Herr|]. split; [exact Hns | exact Hsec].
Defined.

(** C4 as stated fails in two ways.  No permit is free.  When the API
    serves the four calls before the wait and answers 503 to the read of the
    Store that opens the Failed write, [reconcile_store] raises that
    [ApiException], not a [TemporaryError], and the stored phase is still
    Provisioning, with no [lastError] and no Failed event.  When every call
    is served and the capacity of the history is configured as -1,
    [TemporaryError] is raised and the phase is Failed, but the history is
    empty: the slice has dropped the Failed event. *)
Lemma gate_timeout_write_can_fail :
  let spec := acme_spec (Some "medusa") in
  let w := cluster (acme (Some "medusa") [] ∅) ∅ ∅ 0
             [None; None; None; None; Some unavailable] [] in
  let run := reconcile_store default_config "acme" "store-platform" spec (acme_meta []) w in
  let v := cluster (acme (Some "medusa") [] ∅) ∅ ∅ 0 [] [] in
  let short := reconcile_store negative_capacity "acme" "store-platform" spec (acme_meta []) v in
  let status w' := o_status <$> w_stores w' !! "acme" in
  w_gate w = 0 ∧
  SemaphoreAcquire 900 ∈ w_trace run.2 ∧
  run.1 = Err (ApiException 503 "Service Unavailable" "(503) Reason: Service Unavailable") ∧
  (∀ msg delay, run.1 ≠ Err (TemporaryError msg delay)) ∧
  status run.2 ≫= (.!! "phase") = Some (VStr "Provisioning") ∧
  status run.2 ≫= (.!! "lastError") = None ∧
  (λ st, ev_type <$> events_of st) <$> status run.2 = Some ["ProvisioningStarted"] ∧
  short.1 = Err (TemporaryError "Provisioning lock timeout" 15) ∧
  status short.2 ≫= (.!! "phase") = Some (VStr "Failed") ∧
  events_of <$> status short.2 = Some [].
Proof.
  cbv beta zeta. split; [reflexivity|]. split.
  { vm_compute. do 4 apply list_elem_of_further. apply list_elem_of_here. }
  split; [vm_compute; reflexivity|]. split.
  { intros msg delay. vm_compute. discriminate. }
  repeat split; vm_compute; reflexivity.
Qed.

(** C1, two runs: the namespace [store-acme] carries another Store's id;
    and it carries this Store's id but the delete call is answered 404. *)
Lemma teardown_of_tampered_namespace :
  let spec := acme_spec (Some "medusa") in
  let obj := acme (Some "medusa") [FINALIZER] provisioning in
  let w := cluster obj {[ "store-acme" := tampered_labels ]} ∅ 2 [] [] in
  let run := on_delete default_config spec "acme" "store-platform" w in
  let v := cluster obj {[ "store-acme" := acme_labels ]} ∅ 2
             [None; None; None; Some gone] [] in
  let run404 := on_delete default_config spec "acme" "store-platform" v in
  (∃ obj',
     run.1 = Ok tt ∧
     w_namespaces run.2 = {[ "store-acme" := tampered_labels ]} ∧
     w_stores run.2 = <["acme" := obj']> (w_stores w) ∧
     o_status obj' !! "phase" = Some (VStr "Deleted") ∧
     FINALIZER ∉ m_finalizers (o_metadata obj')) ∧
  (∃ obj',
     run404.1 = Ok tt ∧
     DeleteNamespace "store-acme" ∈ w_trace run404.2 ∧
     w_stores run404.2 = <["acme" := obj']> (w_stores v) ∧
     o_status obj' !! "phase" = Some (VStr "Deleted") ∧
     FINALIZER ∉ m_finalizers (o_metadata obj')).
Proof.
  cbv zeta. split.
  - destruct (namespace_deleted_only_if_owned default_config (acme_spec (Some "medusa"))
                "acme" "store-platform"
                (cluster (acme (Some "medusa") [FINALIZER] provisioning)
                   {[ "store-acme" := tampered_labels ]} ∅ 2 [] []))
      as (_ & _ & Hlive & _).
    destruct (Hlive (acme (Some "medusa") [FINALIZER] provisioning) eq_refl
                ltac:(vm_compute; reflexivity) (calm_nil _ _ _ _ _ _)
                ltac:(vm_compute; reflexivity))
      as (obj' & ts1 & ts2 & Hrun & Hns & Hst & Hph & _ & Hfin).
    exists obj'.
    split; [exact (f_equal fst Hrun)|]. split; [exact Hns|]. split; [exact Hst|].
    split; [exact Hph | exact Hfin].
  - destruct (namespace_deleted_only_if_owned default_config (acme_spec (Some "medusa"))
                "acme" "store-platform"
                (cluster (acme (Some "medusa") [FINALIZER] provisioning)
                   {[ "store-acme" := acme_labels ]} ∅ 2
                   [None; None; None; Some gone] []))
      as (_ & _ & _ & Hgone).
    destruct (Hgone (acme (Some "medusa") [FINALIZER] provisioning)
                "Not Found" "(404) Reason: Not Found" [] eq_refl)
      as (obj' & Hrun & Htr & Hst & Hph & Hfin).
    { vm_compute; reflexivity. }
    { exists acme_labels. repeat split; vm_compute; reflexivity. }
    { reflexivity. }
    { simpl. constructor. }
    exists obj'.
    split; [exact (f_equal fst Hrun)|]. split; [exact Htr|]. split; [exact Hst|].
    split; [exact Hph | exact Hfin].
Defined.

(** C6, a run: the secret was issued before. *)
Lemma admin_credentials_run :
  let w := cluster (acme (Some "medusa") [FINALIZER] provisioning)
             {[ "store-acme" := ownership_labels "acme" ]}
             {[ ("store-acme", "store-admin") := issued ]} 1 [] [] in
  (ensure_admin_secret default_config "store-acme" "acme" w).1
    = Ok ("admin", "s3cretS3cretS3cret00") ∧
  w_secrets (ensure_admin_secret default_config "store-acme" "acme" w).2 = w_secrets w.
Proof.
  cbv zeta.
  destruct (admin_credentials_are_stable default_config "store-acme" "acme"
              (cluster (acme (Some "medusa") [FINALIZER] provisioning)
                 {[ "store-acme" := ownership_labels "acme" ]}
                 {[ ("store-acme", "store-admin") := issued ]} 1 [] []))
    as (Hfound & _ & _).
  rewrite (Hfound issued "admin" "s3cretS3cretS3cret00" (calm_nil _ _ _ _ _ _)
             ltac:(vm_compute; reflexivity) ltac:(vm_compute; reflexivity)
             ltac:(vm_compute; reflexivity) ltac:(discriminate) ltac:(discriminate)).
  split; reflexivity.
Defined.

(** X29, a run: the history is full and one more record arrives. *)
Lemma ring_buffer_run :
  let status : gmap string value := {[ "events" := VEvents (some_events 20) ]} in
  let w := cluster (acme (Some "medusa") [FINALIZER] status) ∅ ∅ 2 [] [] in
  ∃ w' obj',
    patch_store_status default_config "acme" (Some "Ready") (Some "Ready") (Some "up") [] [] w
      = (Ok tt, w') ∧
    w_stores w' = <["acme" := obj']> (w_stores w) ∧
    length (events_of (o_status obj')) ≤ 20.
Proof.
  cbv zeta.
  destruct (events_are_a_ring_buffer default_config "acme"
              (acme (Some "medusa") [FINALIZER] {[ "events" := VEvents (some_events 20) ]})
              (Some "Ready") (Some "Ready") (Some "up") [] []
              (cluster (acme (Some "medusa") [FINALIZER]
                          {[ "events" := VEvents (some_events 20) ]}) ∅ ∅ 2 [] [])
              ltac:(vm_compute; discriminate) eq_refl
              ltac:(apply not_elem_of_nil) ltac:(apply not_elem_of_nil)
              ltac:(vm_compute; reflexivity) (calm_nil _ _ _ _ _ _))
    as [(w' & obj' & ts & Hrun & Hst & _ & Hlen) _].
  exists w', obj'. split; [exact Hrun|]. split; [exact Hst | exact Hlen].
Defined.

(** C7.  The code at the failing input: the capacity is configured as 0.
    The slice [events[-0:]] is the whole list, so nothing is dropped: a
    write to an empty history stores 1 record, and a write to a history of
    20 records stores 21. *)
Lemma events_unbounded_at_capacity_zero :
  let stored status :=
    (λ obj, length (events_of (o_status obj))) <$>
    w_stores (patch_store_status zero_capacity "acme" None (Some "Ready") (Some "up") [] []
                (cluster (acme (Some "medusa") [FINALIZER] status) ∅ ∅ 2 [] [])).2
      !! "acme" in
  MAX_STATUS_EVENTS zero_capacity = 0%Z ∧
  stored ∅ = Some 1 ∧
  stored {[ "events" := VEvents (some_events 20) ]} = Some 21.
Proof. cbv beta zeta. repeat split; vm_compute; reflexivity. Qed.

(** C8, a run: the installer exits with an error. *)
Lemma installer_failure_run :
  let w := cluster (acme (Some "medusa") [FINALIZER] provisioning) ∅ ∅ 1 []
             [HelmExit 1 "" "chart not found"] in
  let gated :=
    reconcile_store_gated default_config "acme" "acme" "store-acme"
      "acme.127.0.0.1.nip.io" "medusa-acme" 3 (medusa_handler default_config) w in
  ∃ obj',
    gated.1 = Err (RuntimeError "helm failed: chart not found") ∧
    w_stores gated.2 !! "acme" = Some obj' ∧
    o_status obj' !! "phase" = Some (VStr "Failed") ∧
    o_status obj' !! "lastError" = Some (VStr "helm failed: chart not found") ∧
    w_gate gated.2 = 2.
Proof.
  cbv zeta.
  set (w := cluster _ _ _ _ _ _).
  set (guarded := reconcile_store_guarded default_config "acme" "acme" "store-acme"
                    "acme.127.0.0.1.nip.io" "medusa-acme" 3 (medusa_handler default_config) w).
  assert (guarded = (Err (RuntimeError "helm failed: chart not found"), guarded.2)) as Hbody
    by (vm_compute; reflexivity).
  assert (∃ obj, w_stores guarded.2 !! "acme" = Some obj) as [obj Hobj]
    by (eexists; vm_compute; reflexivity).
  assert (calm 2 guarded.2) as Hcalm by (vm_compute; constructor).
  destruct (guarded_failure_is_recorded default_config "acme" "acme" "store-acme"
              "acme.127.0.0.1.nip.io" "medusa-acme" 3 (medusa_handler default_config)
              _ w _ Hbody) as (_ & _ & _ & Hheld).
  destruct (Hheld ltac:(vm_compute; reflexivity)) as (Hg & _ & _ & _ & Hrec).
  destruct (Hrec obj Hobj Hcalm)
    as (obj' & body & ts & Hrun & Hst & Hph & Herr & _).
  exists obj'.
  split; [exact Hrun|]. split; [rewrite Hst; apply lookup_insert_eq|].
  split; [exact Hph|]. split; [exact Herr | exact Hg].
Defined.

(** C8 as stated fails in two ways.  When the status write of the
    [except] clause fails too: the API serves the two calls of the
    NamespaceReady write, answers 500 to the read of the namespace, and 503
    to the read of the Store that opens the failure write.  The guarded
    section raised the 500; the statement raises the 503, and the stored
    phase is still Provisioning with no Failed event.  The same happens in
    a whole [reconcile_store] call, where six served calls precede the two
    failures.  And when every call is served, the installer fails and the
    capacity of the history is configured as -1: the failure of the
    installer is raised and the phase is Failed, but the history is empty:
    the slice has dropped the Failed event. *)
Lemma failure_write_can_fail :
  let handler := medusa_handler default_config in
  let entry := cluster (acme (Some "medusa") [FINALIZER] provisioning) ∅ ∅ 1
                 [None; None; Some internal_error; Some unavailable] [] in
  let guarded :=
    reconcile_store_guarded default_config "acme" "acme" "store-acme"
      "acme.127.0.0.1.nip.io" "medusa-acme" 3 handler entry in
  let gated :=
    reconcile_store_gated default_config "acme" "acme" "store-acme"
      "acme.127.0.0.1.nip.io" "medusa-acme" 3 handler entry in
  let whole :=
    reconcile_store default_config "acme" "store-platform" (acme_spec (Some "medusa"))
      (acme_meta [])
      (cluster (acme (Some "medusa") [] ∅) ∅ ∅ 2
         [None; None; None; None; None; None; Some internal_error; Some unavailable] []) in
  let short :=
    reconcile_store_gated negative_capacity "acme" "acme" "store-acme"
      "acme.127.0.0.1.nip.io" "medusa-acme" 3 (medusa_handler negative_capacity)
      (cluster (acme (Some "medusa") [FINALIZER] provisioning) ∅ ∅ 1 []
         [HelmExit 1 "" "chart not found"]) in
  let phase w := (o_status <$> w_stores w !! "acme") ≫= (.!! "phase") in
  let event_types w :=
    (λ obj, ev_type <$> events_of (o_status obj)) <$> w_stores w !! "acme" in
  guarded.1 = Err (exn_of_fault internal_error) ∧
  gated.1 = Err (exn_of_fault unavailable) ∧
  gated.1 ≠ guarded.1 ∧
  phase gated.2 = Some (VStr "Provisioning") ∧
  event_types gated.2 = Some ["NamespaceReady"] ∧
  whole.1 = Err (exn_of_fault unavailable) ∧
  phase whole.2 = Some (VStr "Provisioning") ∧
  event_types whole.2 = Some ["ProvisioningStarted"; "NamespaceReady"] ∧
  short.1 = Err (RuntimeError "helm failed: chart not found") ∧
  phase short.2 = Some (VStr "Failed") ∧
  event_types short.2 = Some [].
Proof.
  cbv beta zeta. repeat split; try (vm_compute; reflexivity).
  vm_compute. discriminate.
Qed.

(** C9, four runs.  [acme] exists as a medusa Store and the caller is below
    the rate limit: a create of [acme] with medusa is answered with the
    existing Store, one with woocommerce with 409.  [bravo] does not exist
    when the caller asks for it with woocommerce, and another client creates
    it before the caller's create is served: when that client asked for
    woocommerce too the answer is its Store, and when it asked for medusa
    the answer is 409. *)
Lemma idempotent_create_run :
  let existing := acme (Some "medusa") [FINALIZER] provisioning in
  let initial engine :=
    (Api.create_store Api.default_config (create_acme engine) from_10_0_0_7
       (request_layer [1%Q])).1 in
  let raced engine :=
    (Api.create_store Api.default_config create_bravo from_10_0_0_7
       (racing_layer engine)).1 in
  initial "medusa" = Ok (Api._to_store_resp Api.default_config existing) ∧
  initial "woocommerce"
    = Err (HTTPException 409 "StoreId 'acme' already exists with engine 'medusa'") ∧
  raced "woocommerce" = Ok (Api._to_store_resp Api.default_config (bravo "woocommerce")) ∧
  raced "medusa"
    = Err (HTTPException 409 "StoreId 'bravo' already exists with engine 'medusa'").
Proof.
  cbv beta zeta.
  assert (∀ engine,
    (Api.create_store Api.default_config (create_acme engine) from_10_0_0_7
       (request_layer [1%Q])).1
    = Api.idempotent_answer Api.default_config (create_acme engine)
        (acme (Some "medusa") [FINALIZER] provisioning)) as Hinitial.
  { intros engine.
    destruct (create_is_idempotent_within_rate_limit Api.default_config (create_acme engine)
                from_10_0_0_7 (request_layer [1%Q]) ltac:(vm_compute; reflexivity))
      as [Hfirst _].
    destruct (Hfirst (acme (Some "medusa") [FINALIZER] provisioning) [] (or_intror eq_refl)
                ltac:(vm_compute; reflexivity)) as (w' & Hrun & _).
    by rewrite Hrun. }
  assert (∀ engine,
    (Api.create_store Api.default_config create_bravo from_10_0_0_7 (racing_layer engine)).1
    = Api.idempotent_answer Api.default_config create_bravo (bravo engine)) as Hraced.
  { intros engine.
    destruct (create_is_idempotent_within_rate_limit Api.default_config create_bravo
                from_10_0_0_7 (racing_layer engine) ltac:(vm_compute; reflexivity))
      as [_ Hrace].
    destruct (Hrace (bravo engine) []) as (w' & Hrun & _).
    { vm_compute; reflexivity. }
    { reflexivity. }
    { reflexivity. }
    { intros w0. vm_compute. reflexivity. }
    by rewrite Hrun. }
  rewrite !Hinitial, !Hraced. repeat split; vm_compute; reflexivity.
Defined.

(** C9 as stated fails in two ways.  [acme] exists with the requested
    engine.  For a caller at the rate limit (the fifth create of the last
    minute was the last one allowed) the request is refused with 429 before
    the existing Store is looked at.  For a caller below the limit, when
    the cluster answers 503 to the read of the Store, the request is refused
    with 500. *)
Lemma idempotent_create_can_be_refused :
  let limited := request_layer [1%Q; 2%Q; 3%Q; 4%Q; 5%Q] in
  let unread :=
    {| Api.a_stores := Api.a_stores (request_layer [1%Q]);
       Api._ip_create_requests := Api._ip_create_requests (request_layer [1%Q]);
       Api.a_time := [6%Q]; Api.a_server_time := [];
       Api.a_env := [Api.Fails unavailable] |} in
  sp_engine (o_spec (acme (Some "medusa") [FINALIZER] provisioning))
    = Some (Api.engine (create_acme "medusa")) ∧
  Api.a_stores limited !! Api.storeId (create_acme "medusa")
    = Some (acme (Some "medusa") [FINALIZER] provisioning) ∧
  (Api.create_store Api.default_config (create_acme "medusa") from_10_0_0_7 limited).1
    = Err (HTTPException 429 "Rate limit exceeded for 10.0.0.7: 5 creates/60s") ∧
  Api.a_stores unread !! Api.storeId (create_acme "medusa")
    = Some (acme (Some "medusa") [FINALIZER] provisioning) ∧
  Api.within_rate_limit Api.default_config "10.0.0.7" unread ∧
  (Api.create_store Api.default_config (create_acme "medusa") from_10_0_0_7 unread).1
    = Err (HTTPException 500 "K8s error: Service Unavailable").
Proof.
  cbv zeta. split; [reflexivity|]. repeat split; vm_compute; reflexivity.
Qed.

(** * The rest of the controller

    Properties of the functions of [src/controller/operator.py] that the
    statements above use but do not state: the names derived from a
    [storeId], the generated password, the finalizer, the status writes,
    the tenant namespace, and the reconciliation as a whole. *)

(** ** Names and passwords *)

Lemma append_inj_l p a b : p +:+ a = p +:+ b → a = b.
Proof. induction p as [|c p IH]; simpl; [done|]. intros [= H]. by apply IH. Qed.

Lemma length_append a b : String.length (a +:+ b) = String.length a + String.length b.
Proof. induction a as [|c a IH]; simpl; [done|]. by rewrite IH. Qed.

Lemma append_inj_r s a b : a +:+ s = b +:+ s → a = b.
Proof.
  intros H.
  assert (String.length a = String.length b) as Hlen.
  { apply (f_equal String.length) in H. rewrite !length_append in H. lia. }
  revert b H Hlen. induction a as [|c a IH]; intros [|d b]; simpl; try done.
  intros [= -> H] [= Hl]. f_equal. by apply IH.
Qed.

Section Names.

Context (cfg : Config).

(** X1. Two Stores share a tenant namespace, a host, a URL or (for one
    engine) a release name only if they have the same [storeId]:
    [store_namespace], [store_host], [store_url] and [build_release_name]
    are injective in the [storeId]. *)
Theorem tenant_names_are_injective a b :
  (store_namespace cfg a = store_namespace cfg b → a = b) ∧
  (store_host cfg a = store_host cfg b → a = b) ∧
  (store_url cfg a = store_url cfg b → a = b) ∧
  (∀ handler, build_release_name handler a = build_release_name handler b → a = b).
Proof.
  unfold store_url, store_namespace, store_host, build_release_name.
  split; [apply append_inj_l|].
  split; [apply append_inj_r|].
  split.
  - intros H. do 2 apply append_inj_l in H. by apply append_inj_r in H.
  - intros h H. by do 2 apply append_inj_l in H.
Qed.

Lemma alphabet_alnum : Forall (λ c, is_alnum c = true) alphabet.
Proof.
  apply Forall_forall. intros c Hc. apply list_elem_of_In in Hc.
  assert (forallb is_alnum alphabet = true) as H by (vm_compute; reflexivity).
  rewrite forallb_forall in H. by apply H.
Qed.

Lemma secrets_choice_alnum w :
  ∃ c, secrets_choice w = (Ok c, set_rng tail w) ∧ is_alnum c = true.
Proof.
  unfold secrets_choice. eexists. split; [reflexivity|].
  pose proof alphabet_alnum as H. rewrite Forall_forall in H. apply H.
  apply list_elem_of_In, nth_In.
  apply Nat.mod_upper_bound. by vm_compute.
Qed.

Lemma rand_chars_alnum n w :
  ∃ cs w', rand_chars n w = (Ok cs, w') ∧ length cs = n ∧
    Forall (λ c, is_alnum c = true) cs ∧
    w' = set_rng (drop n) w.
Proof.
  revert w. induction n as [|n IH]; intros w; simpl.
  - exists [], w. split; [reflexivity|]. split; [reflexivity|]. split; [constructor|].
    by destruct w.
  - destruct (secrets_choice_alnum w) as (c & Hc & Halnum).
    erewrite bind_ok by exact Hc.
    destruct (IH (set_rng tail w)) as (cs & w' & Hrun & Hlen & Hall & ->).
    erewrite bind_ok by exact Hrun.
    eexists _, _. split; [reflexivity|]. simpl.
    split; [by rewrite Hlen|]. split; [by constructor|].
    unfold set_rng. simpl. f_equal. destruct (w_rng w); simpl; [by rewrite drop_nil|done].
Qed.

Lemma length_string_of_list_ascii cs :
  String.length (String.string_of_list_ascii cs) = length cs.
Proof. induction cs; simpl; congruence. Qed.

(** X2. Whatever the random source holds, [rand_password n] returns a
    string of exactly [n] characters, each an ASCII letter or digit; it
    never raises, draws [n] values from the random source and touches
    nothing else. *)
Theorem rand_password_is_alphanumeric n w :
  ∃ password,
    rand_password n w = (Ok password, set_rng (drop n) w) ∧
    String.length password = n ∧
    Forall (λ c, is_alnum c = true) (String.list_ascii_of_string password).
Proof.
  destruct (rand_chars_alnum n w) as (cs & w' & Hrun & Hlen & Hall & ->).
  unfold rand_password. erewrite bind_ok by exact Hrun.
  eexists. split; [reflexivity|].
  rewrite length_string_of_list_ascii, String.list_ascii_of_string_of_list_ascii. done.
Qed.

End Names.

(** ** The finalizer *)

Section Finalizers.

Lemma ensure_finalizer_has obj : FINALIZER ∈ m_finalizers (o_metadata (ensure_finalizer obj)).
Proof.
  unfold ensure_finalizer. case_bool_decide; [done|]. simpl.
  apply elem_of_app. right. by apply list_elem_of_singleton.
Qed.

Lemma ensure_finalizer_others obj :
  filter (λ f, f ≠ FINALIZER) (m_finalizers (o_metadata (ensure_finalizer obj))) =
  filter (λ f, f ≠ FINALIZER) (m_finalizers (o_metadata obj)).
Proof.
  unfold ensure_finalizer. case_bool_decide; [done|]. simpl.
  rewrite filter_app. rewrite filter_cons_False by (by intros ?).
  by rewrite filter_nil, app_nil_r.
Qed.

Lemma filter_other_id (fs : list string) :
  FINALIZER ∉ fs → filter (λ f, f ≠ FINALIZER) fs = fs.
Proof.
  induction fs as [|f fs IH]; [done|].
  intros H. apply not_elem_of_cons in H as [Hne Hnotin].
  rewrite filter_cons_True by done. by rewrite IH.
Qed.

Lemma strip_ensure_finalizer obj :
  FINALIZER ∉ m_finalizers (o_metadata obj) → strip_finalizer (ensure_finalizer obj) = obj.
Proof.
  intros H. unfold strip_finalizer.
  rewrite bool_decide_eq_true_2 by apply ensure_finalizer_has.
  rewrite ensure_finalizer_others, filter_other_id by done.
  unfold ensure_finalizer. rewrite bool_decide_eq_false_2 by done.
  by destruct obj as [[] ? ?].
Qed.

Lemma add_finalizer_present name obj n w :
  calm (S n) w → w_stores w !! name = Some obj →
  FINALIZER ∈ m_finalizers (o_metadata obj) →
  add_finalizer name w =
    (Ok tt, set_trace (λ t, t ++ [GetStore name]) (set_faults tail w)).
Proof.
  intros Hc Hobj Hin. unfold add_finalizer.
  erewrite bind_ok by (by eapply get_store_run).
  by rewrite bool_decide_eq_true_2.
Qed.

Lemma remove_finalizer_present name obj n w :
  calm (2 + n) w → w_stores w !! name = Some obj →
  ∃ w',
    remove_finalizer name w = (Ok tt, w') ∧
    w_stores w' = <[name := strip_finalizer obj]> (w_stores w) ∧
    same_but_stores w w'.
Proof.
  intros Hc Hobj. unfold remove_finalizer, strip_finalizer.
  assert (calm (S n) (set_trace (λ t, t ++ [GetStore name]) (set_faults tail w))) as Hc1
    by (by apply (calm_drop 1 (S n) w)).
  unfold try_except, bind, get_store, bind.
  rewrite (api_run _ (S n)) by done. cbn. rewrite Hobj. cbn.
  case_bool_decide; cbn.
  - unfold patch_namespaced_custom_object, bind.
    rewrite (api_run _ n) by done. cbn. rewrite Hobj.
    eexists. split; [reflexivity|]. done.
  - eexists. split; [reflexivity|]. cbn. by rewrite insert_id.
Qed.

(** X3. When the Store exists and the API serves the calls,
    [add_finalizer] leaves the controller's finalizer on the Store, keeps
    the other finalizers in their order, and leaves spec and status alone;
    a second call reads the Store and writes nothing. *)
Theorem add_finalizer_is_idempotent name obj w :
  w_stores w !! name = Some obj →
  calm 3 w →
  ∃ w1 w2 obj1,
    add_finalizer name w = (Ok tt, w1) ∧
    w_stores w1 = <[name := obj1]> (w_stores w) ∧
    FINALIZER ∈ m_finalizers (o_metadata obj1) ∧
    filter (λ f, f ≠ FINALIZER) (m_finalizers (o_metadata obj1)) =
      filter (λ f, f ≠ FINALIZER) (m_finalizers (o_metadata obj)) ∧
    o_spec obj1 = o_spec obj ∧ o_status obj1 = o_status obj ∧
    add_finalizer name w1 = (Ok tt, w2) ∧
    w_stores w2 = w_stores w1 ∧
    w_trace w2 = w_trace w1 ++ [GetStore name].
Proof.
  intros Hobj Hc.
  destruct (add_finalizer_run name obj 1 w Hc Hobj) as (w1 & Hrun1 & Hst1 & _ & Hc1 & _).
  assert (w_stores w1 !! name = Some (ensure_finalizer obj)) as Hobj1
    by (by rewrite Hst1, lookup_insert_eq).
  exists w1, (set_trace (λ t, t ++ [GetStore name]) (set_faults tail w1)),
    (ensure_finalizer obj).
  split; [done|]. split; [done|].
  split; [apply ensure_finalizer_has|].
  split; [apply ensure_finalizer_others|].
  split; [unfold ensure_finalizer; by case_bool_decide|].
  split; [unfold ensure_finalizer; by case_bool_decide|].
  split; [|done].
  apply (add_finalizer_present name (ensure_finalizer obj) 0); [done|done|].
  apply ensure_finalizer_has.
Qed.

(** X4. For a Store that does not carry the controller's finalizer, when
    the API serves the calls: [add_finalizer] followed by
    [remove_finalizer] leaves every Store object exactly as it was. *)
Theorem finalizer_round_trip name obj w :
  w_stores w !! name = Some obj →
  FINALIZER ∉ m_finalizers (o_metadata obj) →
  calm 4 w →
  ∃ w1 w2 obj1,
    add_finalizer name w = (Ok tt, w1) ∧
    w_stores w1 !! name = Some obj1 ∧
    FINALIZER ∈ m_finalizers (o_metadata obj1) ∧
    remove_finalizer name w1 = (Ok tt, w2) ∧
    w_stores w2 = w_stores w.
Proof.
  intros Hobj Hnot Hc.
  destruct (add_finalizer_run name obj 2 w Hc Hobj) as (w1 & Hrun1 & Hst1 & _ & Hc1 & _).
  assert (w_stores w1 !! name = Some (ensure_finalizer obj)) as Hobj1
    by (by rewrite Hst1, lookup_insert_eq).
  destruct (remove_finalizer_present name (ensure_finalizer obj) 0 w1 Hc1 Hobj1)
    as (w2 & Hrun2 & Hst2 & _).
  exists w1, w2, (ensure_finalizer obj). split; [done|]. split; [done|].
  split; [apply ensure_finalizer_has|].
  split; [done|].
  rewrite Hst2, Hst1, strip_ensure_finalizer, insert_insert_eq by done.
  by apply insert_id.
Qed.

(** X5. [remove_finalizer] makes one read and no write, and returns
    normally, when the Store is gone (the read finds nothing, or the
    cluster answers it with 404) and when the Store does not carry the
    finalizer; any other failure of the read is raised unchanged, with no
    write attempted. *)
Theorem remove_finalizer_without_a_store name w :
  let read_only := set_trace (λ t, t ++ [GetStore name]) (set_faults tail w) in
  (w_stores w !! name = None → calm 1 w →
   remove_finalizer name w = (Ok tt, read_only)) ∧
  (∀ reason text rest,
     w_faults w = Some (ApiFault 404 reason text) :: rest →
     remove_finalizer name w = (Ok tt, read_only)) ∧
  (∀ obj, w_stores w !! name = Some obj → calm 1 w →
     FINALIZER ∉ m_finalizers (o_metadata obj) →
     remove_finalizer name w = (Ok tt, read_only)) ∧
  (∀ f rest,
     w_faults w = Some f :: rest →
     (∀ reason text, f ≠ ApiFault 404 reason text) →
     remove_finalizer name w = (Err (exn_of_fault f), read_only)).
Proof.
  cbv zeta. split; [|split; [|split]].
  - intros Hnone Hc. unfold remove_finalizer, try_except, bind, get_store, bind.
    rewrite (api_run _ 0) by done. cbn. by rewrite Hnone.
  - intros reason text rest Hf.
    unfold remove_finalizer, try_except, bind, get_store, bind, api.
    by rewrite Hf.
  - intros obj Hobj Hc Hnot.
    unfold remove_finalizer, try_except, bind, get_store, bind.
    rewrite (api_run _ 0) by done. cbn. rewrite Hobj. cbn.
    by rewrite bool_decide_eq_false_2.
  - intros f rest Hf Hne.
    unfold remove_finalizer, try_except, bind, get_store, bind, api.
    rewrite Hf. cbn. destruct f as [s r t|t]; cbn; [|done].
    destruct (Z.eqb_spec s 404) as [->|]; [|done].
    by destruct (Hne r t).
Qed.

End Finalizers.

(** ** Status writes *)

Section StatusWrites.

Context (cfg : Config).

Lemma staged_status_shrinks old phase sets drops k :
  k ≠ "phase" → (∀ v, (k, Some v) ∉ sets) →
  staged_status old phase sets drops !! k = None ∨
  staged_status old phase sets drops !! k = old !! k.
Proof.
  intros Hp Hs. unfold staged_status.
  set (start := if Py.truthy_opt phase then _ else _).
  assert (start !! k = None ∨ start !! k = old !! k) as Hstart.
  { right. subst start. destruct (Py.truthy_opt phase); by rewrite ?lookup_insert_ne. }
  clearbody start. clear Hp.
  revert start Hstart. induction sets as [|[k' v] sets IH]; intros start Hstart; simpl.
  - clear Hs. revert start Hstart.
    induction drops as [|d drops IH]; intros start Hstart; simpl; [done|].
    apply IH. destruct (decide (d = k)) as [->|Hne].
    + left. apply lookup_delete_eq.
    + by rewrite lookup_delete_ne.
  - apply IH.
    + intros v' Hin. apply (Hs v'). by right.
    + unfold set_field. simpl. destruct v as [v|].
      * destruct (decide (k' = k)) as [->|Hne].
        -- exfalso. apply (Hs v). by left.
        -- by rewrite lookup_insert_ne.
      * destruct (decide (k' = k)) as [->|Hne].
        -- left. apply lookup_delete_eq.
        -- by rewrite lookup_delete_ne.
Qed.

(** X6. A served status write never removes a key of the stored status:
    an entry of [set_fields] with value [None] and an entry of
    [drop_fields] take the key out of the body that is sent, and the status
    endpoint merges that body into what is stored.  So every stored key is
    still there, and a stored key that the write does not set (it is not
    one of phase, createdAt, updatedAt, events, and [set_fields] gives it no
    value) keeps its value, whether or not the write asked to clear it. *)
Theorem status_keys_are_never_removed name obj phase ety emsg sets drops w :
  w_stores w !! name = Some obj →
  calm 2 w →
  ∃ w' obj',
    patch_store_status cfg name phase ety emsg sets drops w = (Ok tt, w') ∧
    w_stores w' = <[name := obj']> (w_stores w) ∧
    (∀ k, is_Some (o_status obj !! k) → is_Some (o_status obj' !! k)) ∧
    (∀ k v, o_status obj !! k = Some v →
        k ≠ "phase" → k ≠ "createdAt" → k ≠ "updatedAt" → k ≠ "events" →
        (∀ v', (k, Some v') ∉ sets) →
        o_status obj' !! k = Some v).
Proof.
  intros Hobj Hc.
  destruct (patch_store_status_run cfg name obj phase ety emsg sets drops 0 w Hc Hobj)
    as (body & ts & w' & Hrun & Hst & _ & _ & _ & Hbody & _).
  exists w', (with_status (body ∪ o_status obj) obj).
  split; [done|]. split; [done|]. simpl. split.
  - intros k [v Hk]. destruct (body !! k) as [b|] eqn:Hb.
    + exists b. by apply lookup_union_Some_l.
    + exists v. rewrite lookup_union_r; done.
  - intros k v Hk Hp Hcr Hup Hev Hs.
    destruct (staged_status_shrinks (o_status obj) phase sets drops k Hp Hs) as [Hn|Hsame].
    + rewrite lookup_union_r; [done|]. by rewrite Hbody.
    + apply lookup_union_Some_l. by rewrite Hbody, Hsame.
Qed.

Lemma patch_store_status_stamps name obj phase ety emsg sets drops n w :
  calm (2 + n) w → w_stores w !! name = Some obj →
  let staged := staged_status (o_status obj) phase sets drops in
  let clock := match staged !! "createdAt" with
               | Some _ => w_clock w
               | None => tail (w_clock w)
               end in
  ∃ body w',
    patch_store_status cfg name phase ety emsg sets drops w = (Ok tt, w') ∧
    w_stores w' = <[name := with_status (body ∪ o_status obj) obj]> (w_stores w) ∧
    body !! "createdAt" =
      Some (default (VStr (default "" (head (w_clock w)))) (staged !! "createdAt")) ∧
    body !! "updatedAt" = Some (VStr (default "" (head clock))).
Proof.
  intros Hc Hobj staged clock. subst clock. unfold patch_store_status.
  erewrite bind_ok by (by eapply get_store_run).
  fold (staged_status (o_status obj) phase sets drops). fold staged.
  set (w1 := set_trace _ _).
  assert (calm (S n) w1) as Hc1 by (by eapply (calm_drop 1); [|exact Hc]).
  assert (w_stores w1 !! name = Some obj) as Hobj1 by done.
  destruct (staged !! "createdAt") eqn:Hcr; destruct (Py.truthy_opt ety) eqn:Hety;
    unfold bind, now_iso, ret; cbn beta iota;
    (erewrite safe_patch_run;
      [ | eapply calm_frame; [|exact Hc1]; reflexivity | exact Hobj1 ]);
    eexists _, _; (split; [reflexivity|]); cbn;
    (split; [reflexivity|]).
  all: rewrite lookup_insert_ne by done.
  all: rewrite (lookup_insert_ne _ "updatedAt" "createdAt") by done.
  all: rewrite ?Hcr, ?lookup_insert_eq.
  all: split; [reflexivity|].
  all: rewrite lookup_insert_ne by done.
  all: by rewrite lookup_insert_eq.
Qed.

(** X7. [createdAt] is written once: a served status write that does not
    name [createdAt] in [set_fields] or [drop_fields] leaves a stored
    [createdAt] as it is, and sets a missing one to the next reading of
    the clock; [updatedAt] is set to the reading that follows. *)
Theorem created_at_is_write_once name obj phase ety emsg sets drops w :
  w_stores w !! name = Some obj →
  calm 2 w →
  "createdAt" ∉ sets.*1 → "createdAt" ∉ drops →
  ∃ w' obj',
    patch_store_status cfg name phase ety emsg sets drops w = (Ok tt, w') ∧
    w_stores w' = <[name := obj']> (w_stores w) ∧
    o_status obj' !! "createdAt" =
      Some (default (VStr (default "" (head (w_clock w)))) (o_status obj !! "createdAt")) ∧
    o_status obj' !! "updatedAt" =
      Some (VStr (default "" (head (match o_status obj !! "createdAt" with
                                    | Some _ => w_clock w
                                    | None => tail (w_clock w)
                                    end)))).
Proof.
  intros Hobj Hc Hs Hd.
  destruct (patch_store_status_stamps name obj phase ety emsg sets drops 0 w Hc Hobj)
    as (body & w' & Hrun & Hst & Hcr & Hup).
  rewrite (staged_status_other _ _ _ _ "createdAt") in Hcr, Hup by done.
  exists w', (with_status (body ∪ o_status obj) obj).
  split; [done|]. split; [done|]. simpl.
  split; by apply lookup_union_Some_l.
Qed.

(** X8. [patch_store_status] guards its patch but not its read.  When the
    Store does not exist the read raises the 404 and no patch is sent; when
    the Store exists and the cluster answers the patch with 404 the write
    returns normally and nothing is stored; any other failure of the patch
    is raised unchanged and nothing is stored. *)
Theorem status_write_needs_the_store name phase ety emsg sets drops w :
  let write := patch_store_status cfg name phase ety emsg sets drops in
  (w_stores w !! name = None → calm 1 w →
   write w = (Err (ApiException 404 "Not Found" "(404) Reason: Not Found"),
              set_trace (λ t, t ++ [GetStore name]) (set_faults tail w))) ∧
  (∀ obj reason text rest,
     w_stores w !! name = Some obj →
     w_faults w = None :: Some (ApiFault 404 reason text) :: rest →
     (write w).1 = Ok tt ∧ w_stores (write w).2 = w_stores w) ∧
  (∀ obj f rest,
     w_stores w !! name = Some obj →
     w_faults w = None :: Some f :: rest →
     (∀ reason text, f ≠ ApiFault 404 reason text) →
     (write w).1 = Err (exn_of_fault f) ∧ w_stores (write w).2 = w_stores w).
Proof.
  cbv zeta. split; [|split].
  - intros Hnone Hc. unfold patch_store_status.
    erewrite bind_err; [reflexivity|].
    unfold get_store. erewrite bind_ok by (by eapply (api_run _ 0)).
    world_proj. by rewrite Hnone.
  - intros obj reason text rest Hobj Hf.
    assert (calm 1 w) as Hc by (unfold calm; rewrite Hf; by repeat constructor).
    unfold patch_store_status.
    erewrite bind_ok by (by eapply (get_store_run _ _ 0)).
    set (w1 := set_trace _ _).
    assert (w_faults w1 = Some (ApiFault 404 reason text) :: rest) as Hf1
      by (subst w1; cbn; by rewrite Hf).
    assert (w_stores w1 = w_stores w) as Hst1 by done.
    clearbody w1.
    destruct (_ !! "createdAt"); destruct (Py.truthy_opt ety);
      unfold bind, now_iso, ret; cbn beta iota;
      unfold _safe_patch_store_status, try_except,
        patch_namespaced_custom_object_status, bind, api; world_proj;
      rewrite Hf1; cbn; done.
  - intros obj f rest Hobj Hf Hne.
    assert (calm 1 w) as Hc by (unfold calm; rewrite Hf; by repeat constructor).
    unfold patch_store_status.
    erewrite bind_ok by (by eapply (get_store_run _ _ 0)).
    set (w1 := set_trace _ _).
    assert (w_faults w1 = Some f :: rest) as Hf1
      by (subst w1; cbn; by rewrite Hf).
    assert (w_stores w1 = w_stores w) as Hst1 by done.
    clearbody w1.
    assert (∀ s r t, f = ApiFault s r t → (s =? 404)%Z = false) as H404.
    { intros s r t ->. destruct (Z.eqb_spec s 404) as [->|]; [|done].
      by destruct (Hne r t). }
    destruct (_ !! "createdAt"); destruct (Py.truthy_opt ety);
      unfold bind, now_iso, ret; cbn beta iota;
      unfold _safe_patch_store_status, try_except,
        patch_namespaced_custom_object_status, bind, api; world_proj;
      rewrite Hf1; cbn; destruct f as [s r t|t]; cbn;
      rewrite ?(H404 _ _ _ eq_refl); cbn; done.
Qed.

End StatusWrites.

(** ** The tenant namespace *)

Section Namespaces.

Context (cfg : Config).

Lemma labels_differ_false (labels current : gmap string string) :
  labels_differ labels current = false ↔
  ∀ k v, labels !! k = Some v → current !! k = Some v.
Proof.
  unfold labels_differ. split.
  - intros H k v Hk.
    destruct (decide (current !! k = Some v)) as [|Hne]; [done|].
    assert (existsb (λ kv : string * string,
              negb (bool_decide (current !! kv.1 = Some kv.2))) (map_to_list labels) = true)
      as Ht; [|congruence].
    apply existsb_exists. exists (k, v). split.
    + apply list_elem_of_In. by apply elem_of_map_to_list.
    + simpl. by rewrite bool_decide_eq_false_2.
  - intros H. apply not_true_is_false. intros Ht.
    apply existsb_exists in Ht as ([k v] & Hin & Hneg).
    apply list_elem_of_In, elem_of_map_to_list in Hin. simpl in Hneg.
    rewrite bool_decide_eq_true_2 in Hneg by (by apply H). done.
Qed.

Lemma labels_union_fixed (labels current : gmap string string) :
  labels_differ labels current = false → labels ∪ current = current.
Proof.
  intros H. apply map_eq. intros k.
  destruct (labels !! k) as [v|] eqn:Hk.
  - rewrite (lookup_union_Some_l _ _ _ _ Hk). symmetry.
    by apply (proj1 (labels_differ_false _ _) H).
  - by rewrite lookup_union_r.
Qed.

Lemma ownership_labels_owned store_id (current : gmap string string) :
  owned_by store_id (ownership_labels store_id ∪ current).
Proof.
  unfold owned_by, ownership_labels. split; apply lookup_union_Some_l.
  - apply lookup_insert_eq.
  - rewrite lookup_insert_ne by done. apply lookup_insert_eq.
Qed.

Lemma owned_labels_do_not_differ store_id (labels : gmap string string) :
  owned_by store_id labels → labels_differ (ownership_labels store_id) labels = false.
Proof.
  intros [Hm Hi]. apply labels_differ_false. intros k v.
  unfold ownership_labels.
  destruct (decide (k = STORE_MANAGED_LABEL)) as [->|Hk1].
  { rewrite lookup_insert_eq. by intros [= <-]. }
  rewrite lookup_insert_ne by done.
  destruct (decide (k = STORE_ID_LABEL)) as [->|Hk2].
  { rewrite lookup_insert_eq. by intros [= <-]. }
  by rewrite lookup_insert_ne.
Qed.

Lemma read_namespace_found ns labels n w :
  calm (S n) w → w_namespaces w !! ns = Some labels →
  read_namespace ns w =
    (Ok labels, set_trace (λ t, t ++ [ReadNamespace ns]) (set_faults tail w)).
Proof.
  intros Hc Hns. unfold read_namespace.
  erewrite bind_ok by (by eapply api_run). world_proj. by rewrite Hns.
Qed.

Lemma read_namespace_missing ns n w :
  calm (S n) w → w_namespaces w !! ns = None →
  read_namespace ns w =
    (Err (ApiException 404 "Not Found" "(404) Reason: Not Found"),
     set_trace (λ t, t ++ [ReadNamespace ns]) (set_faults tail w)).
Proof.
  intros Hc Hns. unfold read_namespace.
  erewrite bind_ok by (by eapply api_run). world_proj. by rewrite Hns.
Qed.

Lemma patch_namespace_run ns labels old n w :
  calm (S n) w → w_namespaces w !! ns = Some old →
  patch_namespace ns labels w =
    (Ok tt, set_namespaces (<[ns := labels ∪ old]>)
              (set_trace (λ t, t ++ [PatchNamespace ns labels]) (set_faults tail w))).
Proof.
  intros Hc Hns. unfold patch_namespace.
  erewrite bind_ok by (by eapply api_run). world_proj. by rewrite Hns.
Qed.

Lemma create_namespace_run ns labels n w :
  calm (S n) w → w_namespaces w !! ns = None →
  create_namespace ns labels w =
    (Ok tt, set_namespaces (<[ns := labels]>)
              (set_trace (λ t, t ++ [CreateNamespace ns labels]) (set_faults tail w))).
Proof.
  intros Hc Hns. unfold create_namespace.
  erewrite bind_ok by (by eapply api_run). world_proj. by rewrite Hns.
Qed.

Lemma ensure_namespace_run ns store_id n w :
  calm (2 + n) w →
  ∃ w',
    ensure_namespace ns store_id w = (Ok tt, w') ∧
    w_namespaces w' =
      <[ns := ownership_labels store_id ∪ default ∅ (w_namespaces w !! ns)]>
        (w_namespaces w) ∧
    w_stores w' = w_stores w ∧ w_secrets w' = w_secrets w ∧ w_gate w' = w_gate w ∧
    w_rng w' = w_rng w ∧ w_helm w' = w_helm w ∧ w_clock w' = w_clock w ∧
    (∃ k, k ≤ 2 ∧ w_faults w' = drop k (w_faults w)) ∧
    (∃ calls, w_trace w' = w_trace w ++ calls ∧
              Forall (λ c, is_namespace_op c = true) calls).
Proof.
  intros Hc. unfold ensure_namespace.
  set (w1 := set_trace (λ t, t ++ [ReadNamespace ns]) (set_faults tail w)).
  assert (calm (S n) w1) as Hc1 by (by apply (calm_drop 1 (S n) w)).
  assert (calm (S (S n)) w) as Hc0 by done.
  destruct (w_namespaces w !! ns) as [current|] eqn:Hns.
  - destruct (labels_differ (ownership_labels store_id) current) eqn:Hdiff.
    + erewrite bind_ok; cycle 1.
      { apply try_except_ok. erewrite bind_ok by (by eapply read_namespace_found).
        rewrite Hdiff. erewrite bind_ok; [reflexivity|].
        by eapply patch_namespace_run. }
      eexists. split; [reflexivity|]. world_proj.
      split. { simpl. by rewrite <- (assoc_L (∪)), (idemp_L (∪)). }
      do 6 (split; [reflexivity|]).
      split. { exists 2. split; [lia|]. cbn. by destruct (w_faults w) as [|? [|? ?]]. }
      eexists. rewrite <- app_assoc. split; [reflexivity|]. by repeat constructor.
    + erewrite bind_ok; cycle 1.
      { apply try_except_ok. erewrite bind_ok by (by eapply read_namespace_found).
        rewrite Hdiff. reflexivity. }
      eexists. split; [reflexivity|]. world_proj.
      split. { simpl. rewrite labels_union_fixed by done. by rewrite insert_id. }
      do 6 (split; [reflexivity|]).
      split. { exists 1. split; [lia|]. cbn. by destruct (w_faults w). }
      eexists. split; [reflexivity|]. by repeat constructor.
  - erewrite bind_ok; cycle 1.
    { eapply try_except_caught.
      - erewrite bind_err; [reflexivity|]. by eapply read_namespace_missing.
      - reflexivity. }
    cbv iota. fold w1. erewrite (create_namespace_run _ _ n) by done.
    eexists. split; [reflexivity|]. world_proj.
    split. { simpl. by rewrite map_union_empty. }
    do 6 (split; [reflexivity|]).
    split. { exists 2. split; [lia|]. cbn. by destruct (w_faults w) as [|? [|? ?]]. }
    eexists. split; [subst w1; world_proj; by rewrite <- app_assoc|].
    by repeat constructor.
Qed.

Lemma ensure_namespace_owned ns store_id labels n w :
  calm (S n) w → w_namespaces w !! ns = Some labels → owned_by store_id labels →
  ensure_namespace ns store_id w =
    (Ok tt, set_trace (λ t, t ++ [ReadNamespace ns]) (set_faults tail w)).
Proof.
  intros Hc Hns Hown. unfold ensure_namespace.
  erewrite bind_ok; cycle 1.
  { apply try_except_ok. erewrite bind_ok by (by eapply read_namespace_found).
    rewrite owned_labels_do_not_differ by done. reflexivity. }
  done.
Qed.

Lemma calm_after k n m w w' :
  k + n ≤ m → w_faults w' = drop k (w_faults w) → calm m w → calm n w'.
Proof.
  intros Hle Hf Hc. apply (calm_drop k n w w' Hf). by apply (calm_weaken _ m).
Qed.

(** X9. When the API serves the calls, [ensure_namespace ns store_id]
    leaves the namespace [ns] with both ownership labels for [store_id],
    whether it was missing (it is created with exactly the two labels) or
    present (the two labels are added or overwritten, also when they named
    another Store, and every other label stays).  No other namespace, no
    Store object and no secret is changed. *)
Theorem ensure_namespace_establishes_ownership ns store_id w :
  calm 2 w →
  ∃ w' labels,
    ensure_namespace ns store_id w = (Ok tt, w') ∧
    w_namespaces w' = <[ns := labels]> (w_namespaces w) ∧
    owned_by store_id labels ∧
    (∀ k, k ≠ STORE_MANAGED_LABEL → k ≠ STORE_ID_LABEL →
          labels !! k = default ∅ (w_namespaces w !! ns) !! k) ∧
    w_stores w' = w_stores w ∧ w_secrets w' = w_secrets w.
Proof.
  intros Hc.
  destruct (ensure_namespace_run ns store_id 0 w Hc)
    as (w' & Hrun & Hns & Hst & Hsec & _).
  exists w', (ownership_labels store_id ∪ default ∅ (w_namespaces w !! ns)).
  split; [done|]. split; [done|].
  split; [apply ownership_labels_owned|].
  split; [|done].
  intros k Hk1 Hk2. apply lookup_union_r. unfold ownership_labels.
  by rewrite !lookup_insert_ne.
Qed.

(** X10. [ensure_namespace] is idempotent: after a served call, a second
    call reads the namespace, finds both labels and writes nothing. *)
Theorem ensure_namespace_is_idempotent ns store_id w :
  calm 3 w →
  ∃ w1 w2,
    ensure_namespace ns store_id w = (Ok tt, w1) ∧
    ensure_namespace ns store_id w1 = (Ok tt, w2) ∧
    w_namespaces w2 = w_namespaces w1 ∧
    w_trace w2 = w_trace w1 ++ [ReadNamespace ns].
Proof.
  intros Hc.
  destruct (ensure_namespace_run ns store_id 1 w Hc)
    as (w1 & Hrun & Hns & _ & _ & _ & _ & _ & _ & (k & Hk & Hf) & _).
  assert (calm 1 w1) as Hc1 by (apply (calm_after k 1 3 w); [lia|done|done]).
  eexists w1, _. split; [done|].
  split.
  - eapply (ensure_namespace_owned _ _ _ 0); [done| |].
    + rewrite Hns. apply lookup_insert_eq.
    + apply ownership_labels_owned.
  - done.
Qed.

(** X11. What provisioning labels, teardown recognises: after a served
    [ensure_namespace] on the tenant namespace of a [storeId], whatever
    the namespace was before, [_namespace_is_owned] answers [True] for
    that namespace and that [storeId]. *)
Theorem provisioned_namespace_passes_the_ownership_check store_id w :
  calm 3 w →
  ∃ w1 w2,
    ensure_namespace (store_namespace cfg store_id) store_id w = (Ok tt, w1) ∧
    _namespace_is_owned cfg (store_namespace cfg store_id) store_id w1 = (Ok true, w2) ∧
    w_namespaces w2 = w_namespaces w1.
Proof.
  intros Hc.
  destruct (ensure_namespace_run (store_namespace cfg store_id) store_id 1 w Hc)
    as (w1 & Hrun & Hns & _ & _ & _ & _ & _ & _ & (k & Hk & Hf) & _).
  assert (calm 1 w1) as Hc1 by (apply (calm_after k 1 3 w); [lia|done|done]).
  eexists w1, _. split; [done|].
  rewrite (namespace_is_owned_run cfg store_id 0) by done.
  rewrite Hns, lookup_insert_eq.
  rewrite (passes_ownership_check_owned _ _ (ownership_labels_owned _ _)).
  done.
Qed.

(** X12. [_namespace_is_owned] only reads: under every schedule of
    failures it changes nothing in the cluster and makes at most one call,
    the read of the namespace; for a name that lacks the namespace prefix
    it answers [False] without any call; and it answers [True] only for a
    namespace that has the prefix, exists and carries both labels. *)
Theorem ownership_check_is_read_only ns store_id w :
  let run := _namespace_is_owned cfg ns store_id w in
  same_cluster w run.2 ∧
  (w_trace run.2 = w_trace w ∨ w_trace run.2 = w_trace w ++ [ReadNamespace ns]) ∧
  (String.prefix (STORE_NS_PREFIX cfg) ns = false → run = (Ok false, w)) ∧
  (run.1 = Ok true →
   String.prefix (STORE_NS_PREFIX cfg) ns = true ∧
   ∃ labels, w_namespaces w !! ns = Some labels ∧ owned_by store_id labels).
Proof.
  cbv zeta.
  split; [|split; [|split]].
  - unfold _namespace_is_owned, same_cluster.
    destruct (String.prefix _ ns); cbn [negb]; [|done].
    unfold try_except, bind, read_namespace, bind, api.
    destruct (head (w_faults w)) as [[[s rs t|t]|]|]; cbn;
      [ destruct (s =? 404)%Z; cbn; done
      | done
      | destruct (w_namespaces w !! ns); cbn; done
      | destruct (w_namespaces w !! ns); cbn; done ].
  - unfold _namespace_is_owned.
    destruct (String.prefix _ ns); cbn [negb]; [|by left].
    unfold try_except, bind, read_namespace, bind, api.
    right.
    destruct (head (w_faults w)) as [[[s rs t|t]|]|]; cbn;
      [ destruct (s =? 404)%Z; cbn; done
      | done
      | destruct (w_namespaces w !! ns); cbn; done
      | destruct (w_namespaces w !! ns); cbn; done ].
  - intros Hp. unfold _namespace_is_owned. by rewrite Hp.
  - apply namespace_is_owned_spec.
Qed.

#[local] Instance same_cluster_preorder : PreOrder same_cluster.
Proof.
  split.
  - by intros w.
  - intros w1 w2 w3 (? & ? & ? & ? & ? & ? & ?) (? & ? & ? & ? & ? & ? & ?).
    unfold same_cluster. repeat split; congruence.
Qed.

Ltac same_cluster_leaf :=
  let w := fresh "w" in
  intros w; unfold api, not_found, conflict, raise, same_cluster; cbn;
  repeat case_match; done.

Ltac only_calls := repeat first [ keeps_structure | same_cluster_leaf ].

Lemma same_cluster_ensure_namespace_resources ns :
  keeps same_cluster (ensure_namespace_resources ns).
Proof.
  unfold ensure_namespace_resources, apply_resourcequota, apply_limitrange,
    apply_networkpolicy_default_deny, apply_networkpolicy_allow_required,
    create_or_patch.
  only_calls.
Qed.

Lemma create_or_patch_run c p n w :
  calm (S n) w →
  create_or_patch c p w = (Ok tt, set_trace (λ t, t ++ [c]) (set_faults tail w)).
Proof.
  intros Hc. unfold create_or_patch. apply try_except_ok. by eapply api_run.
Qed.

Lemma swallowed_run (m : M unit) w :
  try_except m (on_exception (λ _, ret tt)) w = (Ok tt, (m w).2).
Proof. unfold try_except. by destruct (m w) as [[[]|e] w']. Qed.

Lemma ensure_namespace_resources_served ns n w :
  calm (2 + n) w →
  ∃ w', ensure_namespace_resources ns w = (Ok tt, w').
Proof.
  intros Hc. unfold ensure_namespace_resources, apply_resourcequota, apply_limitrange.
  erewrite bind_ok by (by eapply (create_or_patch_run _ _ (S n))).
  erewrite bind_ok; cycle 1.
  { eapply (create_or_patch_run _ _ n). by apply (calm_drop 1 (S n) w). }
  rewrite swallowed_run. by eexists.
Qed.

(** X13. [ensure_namespace_resources] makes calls only, whatever happens.
    Once the creation of the quota and of the limit range is served it
    returns normally, whatever the cluster answers to the two network
    policy requests; a failure of the quota creation other than a 409 is
    raised unchanged after that one call. *)
Theorem network_policy_failures_are_tolerated ns w :
  same_cluster w (ensure_namespace_resources ns w).2 ∧
  (calm 2 w → (ensure_namespace_resources ns w).1 = Ok tt) ∧
  (∀ f rest,
     w_faults w = Some f :: rest →
     (∀ reason text, f ≠ ApiFault 409 reason text) →
     ensure_namespace_resources ns w =
       (Err (exn_of_fault f),
        set_trace (λ t, t ++ [CreateResourceQuota ns]) (set_faults tail w))).
Proof.
  split; [apply same_cluster_ensure_namespace_resources|]. split.
  - intros Hc. destruct (ensure_namespace_resources_served ns 0 w Hc) as (w' & ->).
    done.
  - intros f rest Hf Hne.
    unfold ensure_namespace_resources, apply_resourcequota, create_or_patch.
    erewrite bind_err; [reflexivity|].
    unfold try_except, api. rewrite Hf. cbn.
    destruct f as [s r t|t]; cbn; [|done].
    destruct (Z.eqb_spec s 409) as [->|]; [|done].
    by destruct (Hne r t).
Qed.

End Namespaces.

(** ** A whole reconciliation *)

Section Reconciliation.

Context (cfg : Config).

Lemma served_calm n w : served w → calm n w.
Proof. unfold served, calm. apply Forall_take. Qed.

Lemma served_drop k w w' : w_faults w' = drop k (w_faults w) → served w → served w'.
Proof. unfold served. intros ->. apply Forall_drop. Qed.

Lemma served_tail w : served w → served (set_faults tail w).
Proof.
  unfold served. cbn. destruct (w_faults w) as [|o fs]; [done|].
  intros H. by apply Forall_cons in H as [_ H].
Qed.

Lemma calm_all_served w : (∀ n, calm n w) → served w.
Proof.
  intros H. specialize (H (length (w_faults w))). unfold calm in H.
  by rewrite firstn_all in H.
Qed.

#[local] Instance tenant_step_preorder : PreOrder tenant_step.
Proof.
  split.
  - intros w. repeat split; try done. exists []. by rewrite app_nil_r.
  - intros w1 w2 w3 (? & ? & ? & ? & ? & ? & l1 & Hl1) (? & ? & ? & ? & ? & ? & l2 & Hl2).
    unfold tenant_step. repeat split; try congruence; [tauto|].
    exists (l1 ++ l2). by rewrite Hl2, Hl1, app_assoc.
Qed.

Lemma tenant_step_api c : keeps tenant_step (api c).
Proof.
  intros w. unfold api.
  assert (tenant_step w (set_trace (λ t, t ++ [c]) (set_faults tail w))) as H.
  { repeat split; try done; [apply served_tail|]. by exists [c]. }
  by repeat case_match.
Qed.

Ltac tenant_leaf :=
  let w := fresh "w" in
  intros w; unfold not_found, conflict, raise, tenant_step, served; cbn;
  repeat case_match; cbn;
  (repeat split; try done); exists []; by rewrite app_nil_r.

Ltac tenant :=
  repeat first [ keeps_structure | apply tenant_step_api | tenant_leaf ].

Lemma tenant_step_ensure_namespace_resources ns :
  keeps tenant_step (ensure_namespace_resources ns).
Proof.
  unfold ensure_namespace_resources, apply_resourcequota, apply_limitrange,
    apply_networkpolicy_default_deny, apply_networkpolicy_allow_required,
    create_or_patch.
  tenant.
Qed.

Lemma tenant_step_rand_chars n : keeps tenant_step (rand_chars n).
Proof.
  induction n as [|n IH]; simpl; [tenant|].
  apply keeps_bind; [tc_solve | unfold secrets_choice; tenant_leaf | intros ?].
  apply keeps_bind; [tc_solve | exact IH | intros ?]. tenant.
Qed.

Lemma tenant_step_ensure_admin_secret ns store_id :
  keeps tenant_step (ensure_admin_secret cfg ns store_id).
Proof.
  unfold ensure_admin_secret, read_namespaced_secret, create_namespaced_secret,
    patch_namespaced_secret, rand_password.
  repeat first [ keeps_structure | apply tenant_step_api | apply tenant_step_rand_chars
               | tenant_leaf ].
Qed.

Lemma ensure_admin_secret_returns ns store_id labels w :
  calm 3 w → w_namespaces w !! ns = Some labels →
  ∃ creds w', ensure_admin_secret cfg ns store_id w = (Ok creds, w').
Proof.
  intros Hc Hns.
  destruct (stored_credentials (w_secrets w !! (ns, ADMIN_SECRET_NAME cfg)))
    as [creds|] eqn:Hst.
  { eexists _, _. by apply (ensure_admin_secret_found cfg _ _ _ 2). }
  unfold ensure_admin_secret.
  set (w1 := set_trace (λ t, t ++ [ReadSecret (ADMIN_SECRET_NAME cfg) ns]) (set_faults tail w)).
  match goal with |- context [bind ?rd _ w] =>
    assert (rd w = (Ok None, w1)) as Hrd end.
  { unfold try_except, read_namespaced_secret, bind.
    rewrite (api_run _ 2) by done. fold w1. world_proj.
    change (w_secrets w1) with (w_secrets w).
    unfold stored_credentials in Hst.
    destruct (w_secrets w !! _) as [data|]; [|world_step; reflexivity]. world_step.
    destruct (data !! "username") as [u|]; [|done].
    destruct (data !! "password") as [p|]; [|done].
    by destruct (Py.truthy u && Py.truthy p). }
  erewrite bind_ok by exact Hrd. cbv iota beta.
  destruct (rand_password_run w1) as (password & wp & Hrun & _ & Hsec & Hnsp & Hf & _).
  erewrite bind_ok by exact Hrun.
  assert (calm 2 wp) as Hcp.
  { apply (calm_drop 1 2 w); [|done]. rewrite Hf. subst w1. cbn.
    by destruct (w_faults w). }
  set (sd := <["username":="admin"]> _). clearbody sd.
  assert (w_namespaces wp !! ns = Some labels) as Hnsp' by (by rewrite Hnsp).
  destruct (w_secrets wp !! (ns, ADMIN_SECRET_NAME cfg)) as [data|] eqn:Hdata.
  - erewrite bind_ok; [by eexists _, _|].
    erewrite try_except_caught; cycle 1.
    { unfold create_namespaced_secret. erewrite bind_ok by (by eapply (api_run _ 1)).
      world_proj. rewrite Hnsp', Hdata. reflexivity. }
    { reflexivity. }
    cbv beta iota. world_step. unfold patch_namespaced_secret.
    erewrite bind_ok; cycle 1.
    { eapply (api_run _ 0). by apply (calm_drop 1 1 wp). }
    world_proj. rewrite Hdata. reflexivity.
  - erewrite bind_ok; [by eexists _, _|].
    apply try_except_ok.
    unfold create_namespaced_secret. erewrite bind_ok by (by eapply (api_run _ 1)).
    world_proj. rewrite Hnsp', Hdata. reflexivity.
Qed.

Lemma semaphore_acquire_some t g w :
  w_gate w = S g →
  semaphore_acquire t w =
    (Ok true, set_gate pred (set_trace (λ tr, tr ++ [SemaphoreAcquire t]) w)).
Proof. intros H. unfold semaphore_acquire. by rewrite H. Qed.

Lemma run_helm_exit_0 args out err w :
  default (HelmExit 0 "" "") (head (w_helm w)) = HelmExit 0 out err →
  run_helm cfg args (Some (MAX_PROVISION_SECONDS cfg + 60)%Z) w =
    (Ok out,
     set_trace (λ tr, tr ++ [RunHelm (HELM_BIN cfg :: args)
                               (MAX_PROVISION_SECONDS cfg + 60)%Z])
       (set_helm tail w)).
Proof.
  intros H. unfold run_helm, bind, subprocess_run. rewrite H. cbn.
  by destruct (_ =? 0)%Z eqn:Hz; [apply Z.eqb_eq in Hz; rewrite Hz|].
Qed.

Lemma add_finalizer_served name obj w w1 :
  served w → w_stores w !! name = Some obj →
  add_finalizer name w = (Ok tt, w1) → served w1.
Proof.
  intros Hs Hobj Hrun. apply calm_all_served. intros n.
  destruct (add_finalizer_run name obj n w (served_calm _ _ Hs) Hobj)
    as (w1' & Hrun' & _ & _ & Hc' & _).
  rewrite Hrun in Hrun'. by simplify_eq.
Qed.

Lemma reconcile_store_provisions name spec meta handler obj out err g w :
  let store_id := default name (sp_storeId spec) in
  let store_ns := store_namespace cfg store_id in
  let host := store_host cfg store_id in
  let release := build_release_name handler store_id in
  let generation := default 0%Z (m_generation meta) in
  ENGINE_HANDLERS cfg !! default "woocommerce" (sp_engine spec) = Some handler →
  w_stores w !! name = Some obj →
  served w →
  default (HelmExit 0 "" "") (head (w_helm w)) = HelmExit 0 out err →
  w_gate w = S g →
  (Z.of_nat (S g) ≤ MAX_CONCURRENT_PROVISIONS cfg)%Z →
  ∃ w' obj' labels creds,
    reconcile_store cfg name (PLATFORM_NAMESPACE cfg) spec meta w =
      (Ok [("namespace", store_ns); ("host", host); ("releaseName", release)], w') ∧
    w_stores w' = <[name := obj']> (w_stores w) ∧
    FINALIZER ∈ m_finalizers (o_metadata obj') ∧
    o_status obj' !! "phase" = Some (VStr "Ready") ∧
    o_status obj' !! "url" = Some (VStr (store_url cfg store_id)) ∧
    o_status obj' !! "namespace" = Some (VStr store_ns) ∧
    o_status obj' !! "releaseName" = Some (VStr release) ∧
    o_status obj' !! "observedGeneration" = Some (VInt generation) ∧
    w_namespaces w' !! store_ns = Some labels ∧
    owned_by store_id labels ∧
    stored_credentials (w_secrets w' !! (store_ns, ADMIN_SECRET_NAME cfg)) = Some creds ∧
    RunHelm (HELM_BIN cfg
             :: build_helm_args cfg handler store_id store_ns host creds.1 creds.2)
            (MAX_PROVISION_SECONDS cfg + 60)%Z ∈ w_trace w' ∧
    w_gate w' = w_gate w.
Proof.
  intros store_id store_ns host release generation Hh Hobj Hs Hhelm Hg Hmax.
  unfold reconcile_store. rewrite String.eqb_refl. cbn [negb]. rewrite Hh.
  cbv zeta. fold store_id. fold store_ns. fold host. fold release. fold generation.
  destruct (add_finalizer_run name obj 0 w (served_calm 2 w Hs) Hobj)
    as (w1 & Hrun1 & Hst1 & (Hns1 & Hsec1 & Hg1 & _ & Hhelm1) & _ & _).
  erewrite bind_ok by exact Hrun1.
  pose proof (add_finalizer_served name obj w w1 Hs Hobj Hrun1) as Hs1.
  set (obj1 := ensure_finalizer obj) in *.
  assert (w_stores w1 !! name = Some obj1) as Hobj1 by (by rewrite Hst1, lookup_insert_eq).
  match goal with |- context [bind (patch_store_status cfg name ?a ?b ?c ?d ?e) _ w1] =>
    destruct (patch_store_status_run cfg name obj1 a b c d e 0 w1 (served_calm 2 w1 Hs1) Hobj1)
      as (body2 & ts2 & w2 & Hrun2 & Hst2 & (Hns2 & Hsec2 & Hg2 & _ & Hhelm2) & Hf2 & _ & _ & _)
  end.
  erewrite bind_ok by exact Hrun2.
  pose proof (served_drop 2 w1 w2 Hf2 Hs1) as Hs2.
  set (obj2 := with_status (body2 ∪ o_status obj1) obj1) in *.
  erewrite bind_ok by (apply (semaphore_acquire_some _ g); congruence).
  cbn [negb]. unfold reconcile_store_gated, try_finally.
  set (w3 := set_gate pred (set_trace _ w2)).
  assert (served w3) as Hs3 by done.
  assert (w_stores w3 !! name = Some obj2) as Hobj3
    by (subst w3; world_proj; by rewrite Hst2, lookup_insert_eq).
  unfold try_except at 1. unfold reconcile_store_guarded.
  match goal with |- context [bind (patch_store_status cfg name ?a ?b ?c ?d ?e) _ w3] =>
    destruct (patch_store_status_run cfg name obj2 a b c d e 0 w3 (served_calm 2 w3 Hs3) Hobj3)
      as (body4 & ts4 & w4 & Hrun4 & Hst4 & (Hns4 & Hsec4 & Hg4 & _ & Hhelm4) & Hf4 & _ & _ & _)
  end.
  erewrite bind_ok by exact Hrun4.
  pose proof (served_drop 2 w3 w4 Hf4 Hs3) as Hs4.
  set (obj4 := with_status (body4 ∪ o_status obj2) obj2) in *.
  destruct (ensure_namespace_run store_ns store_id 0 w4 (served_calm 2 w4 Hs4))
    as (w5 & Hrun5 & Hns5 & Hst5 & Hsec5 & Hg5 & _ & Hhelm5 & _ & (k5 & _ & Hf5) & _).
  erewrite bind_ok by exact Hrun5.
  pose proof (served_drop k5 w4 w5 Hf5 Hs4) as Hs5.
  destruct (ensure_namespace_resources_served store_ns 0 w5 (served_calm 2 w5 Hs5))
    as (w6 & Hrun6).
  pose proof (tenant_step_ensure_namespace_resources store_ns w5) as Hstep6.
  rewrite Hrun6 in Hstep6. simpl in Hstep6.
  destruct Hstep6 as (Hst6 & Hns6 & Hg6 & Hhelm6 & _ & Hserved6 & _).
  erewrite bind_ok by exact Hrun6.
  pose proof (Hserved6 Hs5) as Hs6.
  set (labels := ownership_labels store_id ∪ default ∅ (w_namespaces w4 !! store_ns)) in *.
  assert (w_namespaces w6 !! store_ns = Some labels) as Hlab6
    by (by rewrite Hns6, Hns5, lookup_insert_eq).
  destruct (ensure_admin_secret_returns store_ns store_id labels w6
              (served_calm 3 w6 Hs6) Hlab6) as (creds & w7 & Hrun7).
  pose proof (tenant_step_ensure_admin_secret store_ns store_id w6) as Hstep7.
  rewrite Hrun7 in Hstep7. simpl in Hstep7.
  destruct Hstep7 as (Hst7 & Hns7 & Hg7 & Hhelm7 & _ & Hserved7 & _).
  pose proof (ensure_admin_secret_stored cfg _ _ _ _ _ Hrun7) as Hcreds7.
  erewrite bind_ok by exact Hrun7.
  pose proof (Hserved7 Hs6) as Hs7.
  assert (w_stores w7 !! name = Some obj4) as Hobj7
    by (by rewrite Hst7, Hst6, Hst5, Hst4, lookup_insert_eq).
  match goal with |- context [bind (patch_store_status cfg name ?a ?b ?c ?d ?e) _ w7] =>
    destruct (patch_store_status_run cfg name obj4 a b c d e 0 w7 (served_calm 2 w7 Hs7) Hobj7)
      as (body8 & ts8 & w8 & Hrun8 & Hst8 & (Hns8 & Hsec8 & Hg8 & _ & Hhelm8) & Hf8 & Htr8 & _ & _)
  end.
  erewrite bind_ok by exact Hrun8.
  pose proof (served_drop 2 w7 w8 Hf8 Hs7) as Hs8.
  set (obj8 := with_status (body8 ∪ o_status obj4) obj4) in *.
  assert (default (HelmExit 0 "" "") (head (w_helm w8)) = HelmExit 0 out err) as Hhelm'.
  { rewrite Hhelm8, Hhelm7, Hhelm6, Hhelm5, Hhelm4. subst w3. world_proj.
    by rewrite Hhelm2, Hhelm1. }
  erewrite bind_ok by (by apply (run_helm_exit_0 _ out err)).
  unfold post_ready_checks. unfold bind at 1, ret at 1.
  unfold bind at 1, now_iso at 1.
  set (w9 := set_clock tail _).
  assert (served w9) as Hs9 by done.
  assert (w_stores w9 !! name = Some obj8) as Hobj9
    by (subst w9; world_proj; by rewrite Hst8, lookup_insert_eq).
  match goal with |- context [bind (patch_store_status cfg name ?a ?b ?c ?d ?e) _ w9] =>
    destruct (patch_store_status_run cfg name obj8 a b c d e 0 w9 (served_calm 2 w9 Hs9) Hobj9)
      as (body10 & ts10 & w10 & Hrun10 & Hst10 & (Hns10 & Hsec10 & Hg10 & _ & _) & _ & Htr10 & Hb10 & _)
  end.
  erewrite bind_ok by exact Hrun10. unfold ret at 1.
  set (obj10 := with_status (body10 ∪ o_status obj8) obj8) in *.
  assert (o_status obj10 !! "phase" = Some (VStr "Ready")) as Hphase.
  { simpl. apply lookup_union_Some_l. rewrite Hb10 by done. staged_lookup. }
  assert (o_status obj10 !! "observedGeneration" = Some (VInt generation)) as Hgen.
  { simpl. apply lookup_union_Some_l. rewrite Hb10 by done. staged_lookup. }
  assert (w_gate w10 = g) as Hgate10.
  { rewrite Hg10. subst w9. world_proj. rewrite Hg8, Hg7, Hg6, Hg5, Hg4.
    subst w3. world_proj. rewrite Hg2, Hg1, Hg. done. }
  rewrite (semaphore_release_run cfg) by (rewrite Hgate10; lia).
  exists (set_gate S (set_trace (λ t, t ++ [SemaphoreRelease]) w10)), obj10, labels, creds.
  split; [reflexivity|]. world_proj.
  split.
  { rewrite Hst10. subst w9. world_proj. rewrite Hst8, Hst7, Hst6, Hst5, Hst4.
    subst w3. world_proj. rewrite Hst2, Hst1. by rewrite !insert_insert_eq. }
  split; [apply ensure_finalizer_has|].
  split; [exact Hphase|].
  split. { simpl. apply lookup_union_Some_l. rewrite Hb10 by done. staged_lookup. }
  split. { simpl. apply lookup_union_Some_l. rewrite Hb10 by done. staged_lookup. }
  split. { simpl. apply lookup_union_Some_l. rewrite Hb10 by done. staged_lookup. }
  split; [exact Hgen|].
  split. { rewrite Hns10. subst w9. world_proj. by rewrite Hns8, Hns7. }
  split; [apply ownership_labels_owned|].
  split. { rewrite Hsec10. subst w9. world_proj. by rewrite Hsec8. }
  split. { rewrite Htr10. subst w9. world_proj. set_solver. }
  by rewrite Hgate10.
Qed.

(** X14. The path on which nothing fails.  For a Store of the platform
    namespace with a registered engine (or none), when the Store exists,
    the API serves every call, a permit is free and the installer exits
    with 0: [reconcile_store] returns the namespace, the host and the
    release name; the Store carries the finalizer and its status has phase
    Ready, the URL, the namespace, the release name and the observed
    generation; the tenant namespace exists with both ownership labels; the
    admin secret in it holds the credentials with which the installer was
    run, once, with [MAX_PROVISION_SECONDS + 60] as its time-out; the
    permit is back; and a resume event that follows is skipped. *)
Theorem provisioning_succeeds name spec meta handler obj out err g w :
  let store_id := default name (sp_storeId spec) in
  let store_ns := store_namespace cfg store_id in
  let host := store_host cfg store_id in
  let release := build_release_name handler store_id in
  let generation := default 0%Z (m_generation meta) in
  ENGINE_HANDLERS cfg !! default "woocommerce" (sp_engine spec) = Some handler →
  w_stores w !! name = Some obj →
  served w →
  default (HelmExit 0 "" "") (head (w_helm w)) = HelmExit 0 out err →
  w_gate w = S g →
  (Z.of_nat (S g) ≤ MAX_CONCURRENT_PROVISIONS cfg)%Z →
  ∃ w' obj' labels creds,
    reconcile_store cfg name (PLATFORM_NAMESPACE cfg) spec meta w =
      (Ok [("namespace", store_ns); ("host", host); ("releaseName", release)], w') ∧
    w_stores w' = <[name := obj']> (w_stores w) ∧
    FINALIZER ∈ m_finalizers (o_metadata obj') ∧
    o_status obj' !! "phase" = Some (VStr "Ready") ∧
    o_status obj' !! "url" = Some (VStr (store_url cfg store_id)) ∧
    o_status obj' !! "namespace" = Some (VStr store_ns) ∧
    o_status obj' !! "releaseName" = Some (VStr release) ∧
    o_status obj' !! "observedGeneration" = Some (VInt generation) ∧
    w_namespaces w' !! store_ns = Some labels ∧
    owned_by store_id labels ∧
    stored_credentials (w_secrets w' !! (store_ns, ADMIN_SECRET_NAME cfg)) = Some creds ∧
    RunHelm (HELM_BIN cfg
             :: build_helm_args cfg handler store_id store_ns host creds.1 creds.2)
            (MAX_PROVISION_SECONDS cfg + 60)%Z ∈ w_trace w' ∧
    w_gate w' = w_gate w ∧
    (Py.truthy_opt (m_deletionTimestamp meta) = false →
     on_resume cfg spec (o_status obj') name (PLATFORM_NAMESPACE cfg) meta w'
       = (Ok None, w')).
Proof.
  intros store_id store_ns host release generation Hh Hobj Hs Hhelm Hg Hmax.
  destruct (reconcile_store_provisions name spec meta handler obj out err g w
              Hh Hobj Hs Hhelm Hg Hmax)
    as (w' & obj' & labels & creds & Hrun & Hst & Hfin & Hphase & Hurl & Hns & Hrel
        & Hgen & Hlab & Hown & Hcreds & Htr & Hgate).
  exists w', obj', labels, creds.
  do 13 (split; [assumption|]).
  intros Hlive. unfold on_resume. rewrite String.eqb_refl, Hlive. cbn [negb].
  by rewrite !bool_decide_eq_true_2.
Qed.

(** X15. A teardown that fails at the namespace still gives the Store up,
    when the cluster lets [remove_finalizer] through.  The Store exists,
    the tenant namespace carries both ownership labels, the API serves the
    first three calls (the two of the Deleting write and the read of the
    namespace), refuses the deletion of the namespace with anything but a
    404, and then serves the two calls of [remove_finalizer]: [on_delete]
    raises that failure, the namespace is still there, the stored phase is
    still Deleting, and the [finally] clause has removed the finalizer from
    the Store.  Nothing is said of the runs in which those last two calls
    fail. *)
Theorem failed_teardown_still_removes_the_finalizer
    spec name obj labels f rest w :
  let store_id := default name (sp_storeId spec) in
  let store_ns := store_namespace cfg store_id in
  w_stores w !! name = Some obj →
  w_namespaces w !! store_ns = Some labels →
  owned_by store_id labels →
  w_faults w = None :: None :: None :: Some f :: rest →
  (∀ reason text, f ≠ ApiFault 404 reason text) →
  Forall (λ o, o = None) (take 2 rest) →
  ∃ w' obj',
    on_delete cfg spec name (PLATFORM_NAMESPACE cfg) w = (Err (exn_of_fault f), w') ∧
    w_namespaces w' = w_namespaces w ∧
    w_stores w' = <[name := obj']> (w_stores w) ∧
    o_status obj' !! "phase" = Some (VStr "Deleting") ∧
    (FINALIZER ∉ m_finalizers (o_metadata obj')).
Proof.
  intros store_id store_ns Hobj Hlab Hown Hf Hne Hrest. unfold on_delete.
  rewrite String.eqb_refl. cbn [negb]. cbv zeta.
  fold store_id. fold store_ns.
  set (release := build_release_name _ store_id).
  unfold try_finally.
  assert (calm 3 w) as Hcalm by (unfold calm; rewrite Hf; by repeat constructor).
  match goal with |- context [patch_store_status cfg name ?a ?b ?c ?d ?e] =>
    destruct (patch_store_status_run cfg name obj a b c d e 1 w Hcalm Hobj)
      as (body1 & ts1 & w1 & Hrun1 & Hst1 & (Hns1 & _) & Hf1 & _ & Hb1 & Hev1) end.
  erewrite bind_ok by exact Hrun1.
  match goal with |- context [try_except (bind (run_helm cfg ?a ?t) ?k) ?h] =>
    destruct (uninstall_run cfg a t w1) as (cmd & t' & Hrun2) end.
  erewrite bind_ok by exact Hrun2.
  set (w2 := set_trace _ (set_helm tail w1)).
  assert (w_faults w2 = None :: Some f :: rest) as Hf2
    by (subst w2; cbn; by rewrite Hf1, Hf).
  assert (calm 1 w2) as Hc2 by (unfold calm; rewrite Hf2; by repeat constructor).
  erewrite bind_ok by (by apply (namespace_is_owned_run cfg store_id 0)).
  set (w3 := set_trace _ (set_faults tail w2)).
  assert (w_namespaces w2 = w_namespaces w) as Hns2 by done.
  fold store_ns. rewrite Hns2, Hlab, (passes_ownership_check_owned _ _ Hown).
  set (w4 := set_trace (λ t, t ++ [DeleteNamespace store_ns]) (set_faults tail w3)).
  assert (try_except (delete_namespace store_ns)
            (on_api_exception (λ status e,
               if negb (status =? 404)%Z then raise e else ret tt)) w3
          = (Err (exn_of_fault f), w4))
    as Hrun4.
  { unfold try_except, delete_namespace, bind, api.
    assert (head (w_faults w3) = Some (Some f)) as ->
      by (subst w3 w2; cbn; by rewrite Hf1, Hf).
    destruct f as [s r t|t]; cbn; [|done].
    destruct (Z.eqb_spec s 404) as [->|]; [|done].
    by destruct (Hne r t). }
  erewrite bind_err by exact Hrun4.
  assert (w_faults w4 = rest) as Hf4 by (subst w4 w3 w2; cbn; by rewrite Hf1, Hf).
  assert (calm 2 w4) as Hc4 by (unfold calm; by rewrite Hf4).
  set (obj1 := with_status (body1 ∪ o_status obj) obj) in *.
  assert (w_stores w4 !! name = Some obj1) as Hobj4
    by (subst w4 w3 w2; cbn; by rewrite Hst1, lookup_insert_eq).
  destruct (remove_finalizer_run name obj1 0 w4 Hc4 Hobj4) as (w6 & Hrun6 & Hst6 & Hns6).
  rewrite Hrun6.
  exists w6, (strip_finalizer obj1).
  split; [done|].
  split. { rewrite Hns6. subst w4 w3 w2. cbn. done. }
  split. { rewrite Hst6. subst w4 w3 w2. cbn. by rewrite Hst1, !insert_insert_eq. }
  rewrite strip_finalizer_status.
  split. { simpl. apply lookup_union_Some_l. rewrite Hb1 by done. staged_lookup. }
  apply strip_finalizer_gone.
Qed.

End Reconciliation.

(** ** Absent fields of the spec *)

Section AbsentFields.

Context (cfg : Config).

Lemma reconcile_store_installs name namespace spec meta handler :
  ENGINE_HANDLERS cfg !! default "woocommerce" (sp_engine spec) = Some handler →
  keeps (makes_calls (installs_with cfg handler (default name (sp_storeId spec))))
    (reconcile_store cfg name namespace spec meta).
Proof.
  intros Hh.
  pose proof (calls_rand_chars (installs_with cfg handler (default name (sp_storeId spec))))
    as Hr.
  unfold reconcile_store. rewrite Hh.
  unfold reconcile_store_gated, reconcile_store_guarded, reconcile_store_failed,
    add_finalizer, patch_store_status, get_store, _safe_patch_store_status,
    patch_namespaced_custom_object_status, patch_namespaced_custom_object,
    ensure_namespace, read_namespace, patch_namespace, create_namespace,
    ensure_namespace_resources, apply_resourcequota, apply_limitrange,
    apply_networkpolicy_default_deny, apply_networkpolicy_allow_required, create_or_patch,
    ensure_admin_secret, read_namespaced_secret, create_namespaced_secret,
    patch_namespaced_secret, rand_password, run_helm,
    post_ready_checks.
  repeat first [ keeps_structure | apply Hr | calls_leaf ].
Qed.

Lemma on_delete_uninstalls spec name namespace :
  keeps (makes_calls
           (uninstalls_with cfg
              (default (woocommerce_handler cfg)
                 (ENGINE_HANDLERS cfg !! default "woocommerce" (sp_engine spec)))
              (default name (sp_storeId spec))))
    (on_delete cfg spec name namespace).
Proof.
  unfold on_delete.
  unfold remove_finalizer, patch_store_status, get_store, _safe_patch_store_status,
    patch_namespaced_custom_object_status, patch_namespaced_custom_object,
    _namespace_is_owned, delete_namespace, read_namespace, run_helm.
  repeat first [ keeps_structure | calls_leaf ].
Qed.


Lemma uninstall_recorded args w :
  try_except (run_helm cfg args (Some 300%Z) ;; ret tt) (on_exception (λ _, ret tt)) w
  = (Ok tt, set_trace (λ tr, tr ++ [RunHelm (HELM_BIN cfg :: args) 300]) (set_helm tail w)).
Proof.
  unfold try_except, bind, run_helm, bind, subprocess_run.
  destruct (default _ (head (w_helm w))) as [rc out err|txt|txt]; simpl; [|done|done].
  by destruct (negb _).
Qed.

Lemma on_delete_begins spec name obj w :
  let store_id := default name (sp_storeId spec) in
  let store_ns := store_namespace cfg store_id in
  let handler :=
    default (woocommerce_handler cfg)
      (ENGINE_HANDLERS cfg !! default "woocommerce" (sp_engine spec)) in
  let release := build_release_name handler store_id in
  w_stores w !! name = Some obj →
  calm 2 w →
  ∃ body rest,
    w_trace (on_delete cfg spec name (PLATFORM_NAMESPACE cfg) w).2 =
      w_trace w
      ++ GetStore name :: PatchStoreStatus name body
         :: RunHelm [HELM_BIN cfg; "uninstall"; release; "-n"; store_ns] 300 :: rest ∧
    body !! "releaseName" = Some (VStr release) ∧
    body !! "namespace" = Some (VStr store_ns).
Proof.
  intros store_id store_ns handler release Hobj Hcalm. unfold on_delete.
  rewrite String.eqb_refl. cbn [negb]. cbv zeta.
  fold store_id. fold store_ns. fold handler. fold release.
  unfold try_finally.
  match goal with |- context [patch_store_status cfg name ?a ?b ?c ?d ?e] =>
    destruct (patch_store_status_run cfg name obj a b c d e 0 w Hcalm Hobj)
      as (body1 & ts1 & w1 & Hrun1 & _ & _ & _ & Htr1 & Hb1 & _) end.
  erewrite bind_ok by exact Hrun1.
  erewrite bind_ok by apply uninstall_recorded.
  set (w2 := set_trace _ (set_helm tail w1)).
  match goal with |- context [bind (_namespace_is_owned cfg ?a ?b) ?k w2] =>
    assert (keeps (makes_calls (λ _, True)) (bind (_namespace_is_owned cfg a b) k)) as Hrest
      by (unfold patch_store_status, get_store, _safe_patch_store_status,
            patch_namespaced_custom_object_status,
            _namespace_is_owned, delete_namespace, read_namespace;
          repeat first [ keeps_structure | calls_leaf ]);
    specialize (Hrest w2);
    destruct (bind (_namespace_is_owned cfg a b) k w2) as [r3 w3]
  end.
  destruct Hrest as (l3 & Htr3 & _). cbn [fst snd] in Htr3.
  match goal with |- context [try_except (remove_finalizer name) ?h w3] =>
    assert (keeps (makes_calls (λ _, True)) (try_except (remove_finalizer name) h)) as Hfin
      by (unfold remove_finalizer, get_store, patch_namespaced_custom_object;
          repeat first [ keeps_structure | calls_leaf ]);
    specialize (Hfin w3);
    destruct (try_except (remove_finalizer name) h w3) as [r4 w4]
  end.
  destruct Hfin as (l4 & Htr4 & _). cbn [fst snd] in Htr4.
  exists body1, (l3 ++ l4).
  split.
  { assert (w_trace w4 = w_trace w ++ GetStore name :: PatchStoreStatus name body1
              :: RunHelm [HELM_BIN cfg; "uninstall"; release; "-n"; store_ns] 300
              :: l3 ++ l4) as Hw4.
    { rewrite Htr4, Htr3. subst w2. world_proj. rewrite Htr1, <- !app_assoc. done. }
    by destruct r4 as [[]|e4]. }
  split; rewrite Hb1 by done; staged_lookup.
Qed.

(** C10.  For a spec without [engine], whatever its [storeId] and whatever
    the cluster answers: [reconcile_store] never raises [PermanentError];
    every run of the installer it starts installs the release of the
    woocommerce handler, with the chart and the values of that handler; and
    every run of the installer that [on_delete] starts uninstalls that
    release.  Both proceed with that handler: when the Store exists, the
    API serves the calls, a permit is free and the installer exits with 0,
    [reconcile_store] runs the installer with the arguments of the
    woocommerce handler and returns its release name; when the Store exists
    and the first status write is served, [on_delete] stores that release
    name and runs the uninstall of that release.  For a spec without
    [storeId] the same holds, for the handler of its engine, with the name
    of the Store in the place of the [storeId].  The request layer accepts a
    body without [engine] that has a valid [storeId], as a request for
    "woocommerce". *)
Theorem absent_engine_defaults_to_woocommerce name meta ip ua :
  let spec engine store_id :=
    {| sp_engine := engine; sp_storeId := store_id;
       sp_requestedBy_ip := ip; sp_requestedBy_userAgent := ua |} in
  let ready w :=
    ∃ obj out err g,
      w_stores w !! name = Some obj ∧ served w ∧
      default (HelmExit 0 "" "") (head (w_helm w)) = HelmExit 0 out err ∧
      w_gate w = S g ∧ (Z.of_nat (S g) ≤ MAX_CONCURRENT_PROVISIONS cfg)%Z in
  let provisioned handler store_id (run : result (list (string * string)) * World) :=
    ∃ admin_user admin_password,
      run.1 = Ok [("namespace", store_namespace cfg store_id);
                  ("host", store_host cfg store_id);
                  ("releaseName", build_release_name handler store_id)] ∧
      RunHelm (HELM_BIN cfg
               :: build_helm_args cfg handler store_id (store_namespace cfg store_id)
                    (store_host cfg store_id) admin_user admin_password)
              (MAX_PROVISION_SECONDS cfg + 60)%Z ∈ w_trace run.2 in
  let torn_down handler store_id w (run : result unit * World) :=
    ∃ body rest,
      w_trace run.2 =
        w_trace w
        ++ GetStore name :: PatchStoreStatus name body
           :: RunHelm [HELM_BIN cfg; "uninstall"; build_release_name handler store_id;
                       "-n"; store_namespace cfg store_id] 300
           :: rest ∧
      body !! "releaseName" = Some (VStr (build_release_name handler store_id)) ∧
      body !! "namespace" = Some (VStr (store_namespace cfg store_id)) in
  (∀ store_id,
     let woocommerce := woocommerce_handler cfg in
     let sid := default name store_id in
     (∀ namespace w msg,
        (reconcile_store cfg name namespace (spec None store_id) meta w).1
        ≠ Err (PermanentError msg)) ∧
     (∀ namespace w,
        makes_calls (installs_with cfg woocommerce sid) w
          (reconcile_store cfg name namespace (spec None store_id) meta w).2) ∧
     (∀ namespace w,
        makes_calls (uninstalls_with cfg woocommerce sid) w
          (on_delete cfg (spec None store_id) name namespace w).2) ∧
     (∀ w, ready w →
        provisioned woocommerce sid
          (reconcile_store cfg name (PLATFORM_NAMESPACE cfg) (spec None store_id) meta w)) ∧
     (∀ w, is_Some (w_stores w !! name) → calm 2 w →
        torn_down woocommerce sid w
          (on_delete cfg (spec None store_id) name (PLATFORM_NAMESPACE cfg) w))) ∧
  (∀ engine handler,
     ENGINE_HANDLERS cfg !! default "woocommerce" engine = Some handler →
     (∀ w, ready w →
        provisioned handler name
          (reconcile_store cfg name (PLATFORM_NAMESPACE cfg) (spec engine None) meta w)) ∧
     (∀ w, is_Some (w_stores w !! name) → calm 2 w →
        torn_down handler name w
          (on_delete cfg (spec engine None) name (PLATFORM_NAMESPACE cfg) w))) ∧
  (∀ sid req,
     Api.parse_StoreCreateReq None sid = Some req →
     Api.engine req = "woocommerce" ∧ Api.storeId req = sid) ∧
  (∀ sid,
     3 ≤ String.length sid ≤ 32 →
     forallb Api.storeId_char (String.list_ascii_of_string sid) = true →
     Api.parse_StoreCreateReq None sid
     = Some {| Api.engine := "woocommerce"; Api.storeId := sid |}).
Proof.
  intros spec ready provisioned torn_down.
  assert (ENGINE_HANDLERS cfg !! "woocommerce" = Some (woocommerce_handler cfg)) as Hw
    by apply lookup_insert_eq.
  assert (∀ engine store_id handler w,
            ENGINE_HANDLERS cfg !! default "woocommerce" engine = Some handler →
            ready w →
            provisioned handler (default name store_id)
              (reconcile_store cfg name (PLATFORM_NAMESPACE cfg) (spec engine store_id) meta w))
    as Hprov.
  { intros engine store_id handler w Hh (obj & out & err & g & Hobj & Hs & Hhelm & Hg & Hmax).
    destruct (reconcile_store_provisions cfg name (spec engine store_id) meta handler obj out err
                g w Hh Hobj Hs Hhelm Hg Hmax)
      as (w' & obj' & labels & creds & Hrun & _ & _ & _ & _ & _ & _ & _ & _ & _ & _ & Htr & _).
    exists creds.1, creds.2. rewrite Hrun. split; [reflexivity|exact Htr]. }
  assert (∀ engine store_id handler w,
            ENGINE_HANDLERS cfg !! default "woocommerce" engine = Some handler →
            is_Some (w_stores w !! name) → calm 2 w →
            torn_down handler (default name store_id) w
              (on_delete cfg (spec engine store_id) name (PLATFORM_NAMESPACE cfg) w))
    as Htear.
  { intros engine store_id handler w Hh [obj Hobj] Hcalm.
    destruct (on_delete_begins (spec engine store_id) name obj w Hobj Hcalm)
      as (body & rest & Htr & Hrel & Hns).
    cbn [sp_engine sp_storeId spec] in Htr, Hrel, Hns. rewrite Hh in Htr, Hrel.
    by exists body, rest. }
  split; [|split; [|split]].
  - intros store_id woocommerce sid.
    split.
    { intros namespace w msg Hr.
      by pose proof (transient_reconcile_store cfg name namespace (spec None store_id)
                       meta (woocommerce_handler cfg) Hw w _ Hr). }
    split.
    { intros namespace w.
      apply (reconcile_store_installs name namespace (spec None store_id) meta _ Hw). }
    split.
    { intros namespace w.
      pose proof (on_delete_uninstalls (spec None store_id) name namespace w) as H.
      cbn [sp_engine sp_storeId spec default] in H. by rewrite Hw in H. }
    split.
    { intros w Hready. by apply Hprov. }
    intros w Hex Hcalm. by apply Htear.
  - intros engine handler Hh. split.
    + intros w Hready. by apply (Hprov engine None).
    + intros w Hex Hcalm. by apply (Htear engine None).
  - intros sid req. unfold Api.parse_StoreCreateReq. simpl.
    case_match; [|done]. by intros [= <-].
  - intros sid [Hlo Hhi] Hchars. unfold Api.parse_StoreCreateReq. cbv zeta.
    change (default "woocommerce" None) with "woocommerce".
    apply Nat.leb_le in Hlo, Hhi. rewrite Hchars, Hlo, Hhi. reflexivity.
Qed.

End AbsentFields.

(** * The rest of the request layer

    Properties of the functions of [src/apps/api/main.py]: the caller's
    address, the allowed origins, the rate limit, the quotas, the
    representation of a Store, and the handlers. *)

Section Callers.

Import Api.

Lemma before_comma_idem s : before_comma (before_comma s) = before_comma s.
Proof.
  induction s as [|c r IH]; simpl; [done|].
  destruct (Ascii.eqb c ",") eqn:Hc; simpl; [done|]. by rewrite Hc, IH.
Qed.

Lemma before_comma_cons c r :
  before_comma (String c r) = String c r ↔ Ascii.eqb c "," = false ∧ before_comma r = r.
Proof.
  simpl. destruct (Ascii.eqb c ","); split.
  - done.
  - by intros [? _].
  - by intros [= ->].
  - by intros [_ ->].
Qed.

Lemma before_comma_lstrip s : before_comma s = s → before_comma (lstrip s) = lstrip s.
Proof.
  induction s as [|c r IH]; [done|].
  intros H. pose proof H as [Hc Hr]%before_comma_cons.
  simpl lstrip. destruct (isspace c); [by apply IH|done].
Qed.

Lemma before_comma_rstrip s : before_comma s = s → before_comma (rstrip s) = rstrip s.
Proof.
  induction s as [|c r IH]; [done|].
  intros [Hc Hr]%before_comma_cons. specialize (IH Hr).
  simpl rstrip. destruct (rstrip r) as [|c' r'] eqn:E.
  - destruct (isspace c); [done|]. apply before_comma_cons. by split.
  - apply before_comma_cons. by split.
Qed.

Lemma lstrip_idem s : lstrip (lstrip s) = lstrip s.
Proof.
  induction s as [|c r IH]; [done|]. simpl.
  destruct (isspace c) eqn:Hc; [done|]. simpl. by rewrite Hc.
Qed.

Lemma rstrip_idem s : rstrip (rstrip s) = rstrip s.
Proof.
  induction s as [|c r IH]; [done|]. simpl.
  destruct (rstrip r) as [|c' r'] eqn:E.
  - destruct (isspace c) eqn:Hc; [done|]. simpl. by rewrite Hc.
  - simpl. simpl in IH. by rewrite IH.
Qed.

Lemma lstrip_rstrip s : lstrip s = s → lstrip (rstrip s) = rstrip s.
Proof.
  destruct s as [|c r]; [done|]. simpl.
  destruct (isspace c) eqn:Hc.
  - intros H. exfalso.
    assert (String.length (lstrip r) ≤ String.length r) as Hlen.
    { clear. induction r as [|d r IH]; simpl; [done|]. destruct (isspace d); simpl; lia. }
    rewrite H in Hlen. simpl in Hlen. lia.
  - intros _. destruct (rstrip r); simpl; by rewrite Hc.
Qed.

Lemma strip_idem s : strip (strip s) = strip s.
Proof.
  unfold strip. rewrite (lstrip_rstrip (lstrip s)) by apply lstrip_idem.
  apply rstrip_idem.
Qed.

Lemma before_comma_strip s : before_comma s = s → before_comma (strip s) = strip s.
Proof. intros H. unfold strip. by apply before_comma_rstrip, before_comma_lstrip. Qed.

(** X16. With a non-empty [X-Forwarded-For] header, [_client_ip] is the
    first comma-separated entry of the header with the surrounding white
    space removed: it holds no comma and no leading or trailing white
    space, and neither the later entries nor the peer address of the
    connection have a say in it.  Without the header it is the peer
    address, and the text "unknown" when there is none. *)
Theorem client_ip_is_the_first_forwarded_entry request :
  (∀ xff, x_forwarded_for request = Some xff → xff ≠ "" →
     _client_ip request = strip (before_comma xff) ∧
     before_comma (_client_ip request) = _client_ip request ∧
     strip (_client_ip request) = _client_ip request) ∧
  (∀ first more host,
     before_comma first = first →
     _client_ip {| x_forwarded_for := Some (first +:+ "," +:+ more);
                   client_host := host; user_agent := user_agent request |}
     = strip first) ∧
  (Py.truthy_opt (x_forwarded_for request) = false →
   _client_ip request = Py.or_else (client_host request) "unknown").
Proof.
  split; [|split].
  - intros xff Hx Hne. unfold _client_ip. rewrite Hx. simpl.
    assert (Py.truthy xff = true) as -> by (by destruct xff).
    split; [done|]. split.
    + apply before_comma_strip, before_comma_idem.
    + apply strip_idem.
  - intros first more host Hfirst. unfold _client_ip. simpl.
    assert (Py.truthy (first +:+ "," +:+ more) = true) as ->
      by (by destruct first).
    f_equal. induction first as [|c r IH]; simpl; [done|].
    apply before_comma_cons in Hfirst as [Hc Hr]. rewrite Hc. f_equal. by apply IH.
  - intros Hx. unfold _client_ip. rewrite Hx.
    unfold Py.truthy_opt, Py.or_else. destruct (client_host request) as [h|]; [|done].
    by destruct (Py.truthy h).
Qed.

Lemma cors_origins_are_stripped env o :
  o ∈ CORS_ALLOW_ORIGINS env → o ≠ "" ∧ strip o = o.
Proof.
  unfold CORS_ALLOW_ORIGINS. intros Hin.
  apply list_elem_of_fmap in Hin as (x & -> & Hx).
  apply list_elem_of_filter in Hx as [Ht _].
  split; [|apply strip_idem].
  intros He. rewrite He in Ht. done.
Qed.

(** X17. The origins handed to the CORS middleware are never an empty
    list and never hold an empty or unstripped entry: when the variable is
    unset, and also when it is set but holds nothing except commas and
    white space, every origin is allowed. *)
Theorem allowed_origins_are_never_empty env :
  allow_origins env ≠ [] ∧
  (∀ o, o ∈ allow_origins env → o ≠ "" ∧ strip o = o) ∧
  allow_origins None = ["*"] ∧
  (CORS_ALLOW_ORIGINS env = [] → allow_origins env = ["*"]) ∧
  CORS_ALLOW_ORIGINS (Some " , ") = [].
Proof.
  split; [|split; [|split; [|split]]].
  - unfold allow_origins. by destruct (CORS_ALLOW_ORIGINS env).
  - intros o. unfold allow_origins.
    destruct (CORS_ALLOW_ORIGINS env) as [|o1 os] eqn:E.
    + intros ->%list_elem_of_singleton. by vm_compute.
    + rewrite <- E. apply cors_origins_are_stripped.
  - by vm_compute.
  - unfold allow_origins. by intros ->.
  - by vm_compute.
Qed.

End Callers.

(** ** The rate limit and the quotas *)

Section Limits.

Import Api.

Context (cfg : Config).

Lemma expire_cons now t rest :
  expire cfg now (t :: rest) =
    if negb (Qle_bool (now - t)%Q (inject_Z (RATE_WINDOW_SECONDS cfg)))
    then expire cfg now rest else t :: rest.
Proof. done. Qed.

Lemma expire_split now bucket :
  ∃ old, bucket = old ++ expire cfg now bucket ∧
         Forall (λ t, ¬ fresh cfg now t) old ∧
         (∀ t, head (expire cfg now bucket) = Some t → fresh cfg now t).
Proof.
  induction bucket as [|t rest IH].
  - exists []. by repeat split.
  - rewrite expire_cons. destruct (Qle_bool _ _) eqn:Hle; simpl.
    + exists []. split; [done|]. split; [done|].
      intros t' [= <-]. by apply Qle_bool_iff.
    + destruct IH as (old & Hb & Hold & Hhead).
      exists (t :: old). split; [simpl; by f_equal|]. split; [|done].
      constructor; [|done]. unfold fresh. rewrite <- Qle_bool_iff. by rewrite Hle.
Qed.

Lemma expire_sorted now bucket :
  Sorted Qle bucket → Forall (fresh cfg now) (expire cfg now bucket).
Proof.
  induction bucket as [|t rest IH]; [done|].
  intros Hs. rewrite expire_cons.
  destruct (Qle_bool _ _) eqn:Hle; simpl.
  - apply Qle_bool_iff in Hle.
    apply Sorted_StronglySorted in Hs; [|intros x y z; apply Qle_trans].
    apply StronglySorted_inv in Hs as [_ Hall].
    constructor; [done|].
    eapply Forall_impl; [exact Hall|]. intros t' Ht'. unfold fresh.
    eapply Qle_trans; [|exact Hle].
    unfold Qminus. apply Qplus_le_r. by apply Qopp_le_compat.
  - apply IH. by apply Sorted_inv in Hs as [? _].
Qed.

(** X18. The loop that expires a caller's recorded creates removes them
    from the front only: what is kept is a suffix of the bucket, each
    removed record is older than the window, and the first kept record is
    at most the window old (a record exactly [RATE_WINDOW_SECONDS] old
    still counts).  When the bucket is in time order, every kept record is
    within the window. *)
Theorem expired_requests_leave_from_the_front now bucket :
  ∃ old,
    bucket = old ++ expire cfg now bucket ∧
    Forall (λ t, ¬ fresh cfg now t) old ∧
    (∀ t, head (expire cfg now bucket) = Some t → fresh cfg now t) ∧
    (Sorted Qle bucket → Forall (fresh cfg now) (expire cfg now bucket)).
Proof.
  destruct (expire_split now bucket) as (old & ? & ? & ?).
  exists old. repeat split; try done. apply expire_sorted.
Qed.

(** X19. [_check_create_rate_limit] accepts a request exactly when fewer
    than [CREATE_RATE_LIMIT] recorded creates of the caller are left after
    expiry, and then records the time of this one; otherwise it raises 429
    with the message that names the caller and the limit, and records
    nothing, so a refused request does not prolong the refusal.  A bucket
    within the limit stays within it; the buckets of other callers, the
    Stores and the environment of the cluster are untouched. *)
Theorem rate_limit_counts_accepted_requests ip w :
  let now := default 0%Q (head (a_time w)) in
  let kept := expire cfg now (bucket_of ip w) in
  let run := _check_create_rate_limit cfg ip w in
  ((Z.of_nat (length kept) < CREATE_RATE_LIMIT cfg)%Z →
   run.1 = Ok tt ∧ bucket_of ip run.2 = kept ++ [now]) ∧
  ((CREATE_RATE_LIMIT cfg ≤ Z.of_nat (length kept))%Z →
   run.1 = Err (HTTPException 429
                  ("Rate limit exceeded for " +:+ ip +:+ ": "
                   +:+ pretty (CREATE_RATE_LIMIT cfg) +:+ " creates/"
                   +:+ pretty (RATE_WINDOW_SECONDS cfg) +:+ "s")) ∧
   bucket_of ip run.2 = kept) ∧
  ((Z.of_nat (length (bucket_of ip w)) ≤ CREATE_RATE_LIMIT cfg)%Z →
   (Z.of_nat (length (bucket_of ip run.2)) ≤ CREATE_RATE_LIMIT cfg)%Z) ∧
  (∀ other, other ≠ ip → bucket_of other run.2 = bucket_of other w) ∧
  a_stores run.2 = a_stores w ∧ a_env run.2 = a_env w.
Proof.
  cbv zeta. unfold _check_create_rate_limit, bind, time, set_bucket, bucket_of. cbn.
  set (now := default 0%Q (head (a_time w))).
  set (kept := expire cfg now (default [] (_ip_create_requests w !! ip))).
  assert (length kept ≤ length (default [] (_ip_create_requests w !! ip))) as Hlen.
  { subst kept. destruct (expire_split now (default [] (_ip_create_requests w !! ip)))
      as (old & Hb & _). rewrite Hb at 2. rewrite length_app. lia. }
  destruct (Z.leb_spec (CREATE_RATE_LIMIT cfg) (Z.of_nat (length kept))) as [Hfull|Hroom];
    cbn; rewrite ?lookup_insert_eq; cbn.
  - split; [lia|]. split; [done|]. split; [lia|]. split; [|done].
    intros other Hne. by rewrite lookup_insert_ne.
  - split; [done|]. split; [lia|]. split.
    + rewrite length_app. simpl. lia.
    + split; [|done]. intros other Hne. by rewrite !lookup_insert_ne.
Qed.

Lemma active_stores_idem items : active_stores (active_stores items) = active_stores items.
Proof.
  unfold active_stores. rewrite list_filter_filter. apply list_filter_iff. tauto.
Qed.

Lemma enforce_store_quotas_active items caller_ip w :
  _enforce_store_quotas cfg (active_stores items) caller_ip w =
  _enforce_store_quotas cfg items caller_ip w.
Proof.
  unfold _enforce_store_quotas.
  fold (active_stores items). fold (active_stores (active_stores items)).
  by rewrite active_stores_idem.
Qed.

(** X20. [_enforce_store_quotas] reads and changes nothing.  It counts
    the Stores without a deletion timestamp, and among them those whose
    spec names the caller's address; it passes exactly when the first count
    is below [MAX_ACTIVE_STORES] and the second below [MAX_STORES_PER_IP];
    the global quota is tested first; and Stores that are being deleted do
    not count, the answer being the same with them left out. *)
Theorem quotas_count_only_active_stores items caller_ip w :
  let active := active_stores items in
  let mine := requested_by caller_ip active in
  let run := _enforce_store_quotas cfg items caller_ip w in
  run.2 = w ∧
  (run.1 = Ok tt ↔
   (Z.of_nat (length active) < MAX_ACTIVE_STORES cfg)%Z ∧
   (Z.of_nat (length mine) < MAX_STORES_PER_IP cfg)%Z) ∧
  ((MAX_ACTIVE_STORES cfg ≤ Z.of_nat (length active))%Z →
   run.1 = Err (HTTPException 409
                  ("Global store quota reached ("
                   +:+ pretty (MAX_ACTIVE_STORES cfg) +:+ ")"))) ∧
  _enforce_store_quotas cfg active caller_ip w = run.
Proof.
  cbv zeta. rewrite enforce_store_quotas_active. unfold _enforce_store_quotas.
  fold (active_stores items).
  fold (requested_by caller_ip (active_stores items)).
  destruct (Z.leb_spec (MAX_ACTIVE_STORES cfg) (Z.of_nat (length (active_stores items))));
    [|destruct (Z.leb_spec (MAX_STORES_PER_IP cfg)
         (Z.of_nat (length (requested_by caller_ip (active_stores items)))))];
    cbn; (split; [done|]); (split; [split; [done || lia | done || lia]|]);
    (split; [done || lia | done]).
Qed.

End Limits.

(** ** Representations *)

Section Representations.

Import Api.

Context (cfg : Config).

Lemma slice_to_take {A} (n : Z) (l : list A) :
  (0 ≤ n)%Z → Py.slice_to n l = take (Z.to_nat n) l.
Proof.
  intros Hn. unfold Py.slice_to. destruct (Z.ltb_spec n 0); [lia|].
  destruct (Z.min_spec n (Z.of_nat (length l))) as [[Hlt ->]|[Hge ->]]; [done|].
  rewrite Nat2Z.id, firstn_all. symmetry. apply take_ge. lia.
Qed.

(** X21. The representation of a Store shows a prefix of the stored
    event history: with a non-negative [EVENTS_LIMIT] its first
    [EVENTS_LIMIT] records, which are the oldest ones the controller has
    kept, and the whole history when it is no longer than the limit. *)
Theorem store_resp_shows_the_oldest_events item :
  let stored := Operator.events_of (o_status item) in
  let resp := _to_store_resp cfg item in
  ((0 ≤ EVENTS_LIMIT cfg)%Z →
   r_events resp = take (Z.to_nat (EVENTS_LIMIT cfg)) stored) ∧
  r_events resp `prefix_of` stored ∧
  ((Z.of_nat (length stored) ≤ EVENTS_LIMIT cfg)%Z → r_events resp = stored).
Proof.
  cbv zeta. unfold _to_store_resp. simpl r_events.
  fold (Operator.events_of (o_status item)).
  set (stored := Operator.events_of (o_status item)).
  split; [apply slice_to_take|]. split.
  - unfold Py.slice_to. apply prefix_take.
  - intros Hlen. rewrite slice_to_take by lia. apply take_ge. lia.
Qed.

(** X22. A request body that the request layer accepts names an engine
    that the controller has a handler for (so a Store made through the
    request layer never takes the unsupported-engine path), an absent
    engine having become woocommerce; its [storeId] is the one sent, has
    3 to 32 characters, and holds lower-case letters, digits and hyphens
    only. *)
Theorem accepted_engines_are_registered (ocfg : Operator.Config) engine storeId req :
  parse_StoreCreateReq engine storeId = Some req →
  is_Some (Operator.ENGINE_HANDLERS ocfg !! Api.engine req) ∧
  Api.engine req = default "woocommerce" engine ∧
  Api.storeId req = storeId ∧
  3 ≤ String.length storeId ≤ 32 ∧
  Forall (λ c, storeId_char c = true) (String.list_ascii_of_string storeId).
Proof.
  unfold parse_StoreCreateReq. intros H.
  destruct (_ && _) eqn:Hc in H; [|done]. simplify_eq. simpl.
  apply andb_prop in Hc as [Hc Hall]. apply andb_prop in Hc as [Hc H32].
  apply andb_prop in Hc as [He H3].
  split.
  - apply orb_prop in He as [He|He]; apply String.eqb_eq in He; rewrite He;
      unfold Operator.ENGINE_HANDLERS; by simplify_map_eq.
  - split; [done|]. split; [done|]. split.
    + apply Nat.leb_le in H3, H32. lia.
    + apply Forall_forall. intros c Hc. rewrite forallb_forall in Hall.
      apply Hall. by apply list_elem_of_In.
Qed.

End Representations.

(** ** The handlers *)

Section Handlers.

Import Api.

Context (cfg : Config).

Lemma ltb_leb a b : String.ltb a b = true → String.leb a b = true.
Proof. unfold String.ltb, String.leb. by destruct (String.compare a b). Qed.

Lemma not_ltb_leb a b : String.ltb a b = false → String.leb b a = true.
Proof.
  unfold String.ltb, String.leb. rewrite (String.compare_antisym a b).
  by destruct (String.compare b a).
Qed.

Lemma leb_not_ltb a b : String.leb b a = true → String.ltb a b = false.
Proof.
  unfold String.ltb, String.leb. rewrite (String.compare_antisym a b).
  by destruct (String.compare b a).
Qed.

Lemma insert_newest_first_perm s l : insert_newest_first s l ≡ₚ s :: l.
Proof.
  induction l as [|t rest IH]; simpl; [done|].
  destruct (String.ltb _ _); [|done].
  rewrite IH. apply Permutation_swap.
Qed.

Lemma sort_newest_first_perm l : sort_newest_first l ≡ₚ l.
Proof.
  induction l as [|s l IH]; simpl; [done|].
  by rewrite insert_newest_first_perm, IH.
Qed.

Lemma insert_newest_first_sorted s l :
  newest_first l → newest_first (insert_newest_first s l).
Proof.
  unfold newest_first. induction l as [|t rest IH]; simpl.
  - intros _. by repeat constructor.
  - intros Hs. apply Sorted_inv in Hs as [Hrest Hhd].
    destruct (String.ltb _ _) eqn:Hlt.
    + constructor; [by apply IH|].
      destruct rest as [|u rest']; simpl.
      * constructor. by apply ltb_leb.
      * destruct (String.ltb (created_key s) (created_key u)).
        -- constructor. by apply HdRel_inv in Hhd.
        -- constructor. by apply ltb_leb.
    + constructor; [by constructor|]. constructor. by apply not_ltb_leb.
Qed.

Lemma sort_newest_first_sorted l : newest_first (sort_newest_first l).
Proof.
  induction l as [|s l IH]; simpl; [constructor|].
  by apply insert_newest_first_sorted.
Qed.

Lemma sort_newest_first_fixed l : newest_first l → sort_newest_first l = l.
Proof.
  unfold newest_first. induction l as [|s l IH]; simpl; [done|].
  intros Hs. apply Sorted_inv in Hs as [Hrest Hhd]. rewrite IH by done.
  destruct l as [|t l']; simpl; [done|].
  apply HdRel_inv in Hhd. by rewrite leb_not_ltb.
Qed.

Lemma list_store_objects_run w :
  quiet_next w →
  _list_store_objects w = (Ok (snd <$> map_to_list (a_stores w)), after_request w).
Proof.
  intros [H|H]; unfold _list_store_objects, try_except, bind, api; by rewrite H.
Qed.

(** X23. When the list request is served, [list_stores] answers with one
    representation per Store, ordered by [createdAt] with the newest first
    and those without a creation time last; representations with the same
    creation time stay in the order in which the cluster listed them (a
    list that is in order already is returned as it is); no Store is
    changed.  When the cluster refuses the request, the answer is a 500
    that carries the reason. *)
Theorem list_stores_is_newest_first w :
  (quiet_next w →
   ∃ stores w',
     list_stores cfg w = (Ok stores, w') ∧
     stores ≡ₚ _to_store_resp cfg <$> (snd <$> map_to_list (a_stores w)) ∧
     newest_first stores ∧
     a_stores w' = a_stores w) ∧
  (∀ stores, newest_first stores → sort_newest_first stores = stores) ∧
  (∀ status reason text rest,
     a_env w = Fails (ApiFault status reason text) :: rest →
     (list_stores cfg w).1 = Err (HTTPException 500 ("K8s error: " +:+ reason))).
Proof.
  split; [|split].
  - intros Hq. unfold list_stores.
    erewrite bind_ok by (by apply list_store_objects_run).
    eexists _, _. split; [reflexivity|].
    split; [apply sort_newest_first_perm|].
    split; [apply sort_newest_first_sorted|done].
  - apply sort_newest_first_fixed.
  - intros status reason text rest Henv.
    unfold list_stores, bind, _list_store_objects, try_except, bind, api.
    by rewrite Henv.
Qed.

Lemma get_store_or_none_quiet store_id w :
  quiet_next w →
  _get_store_or_none store_id w = (Ok (a_stores w !! store_id), after_request w).
Proof.
  intros [H|H]; unfold _get_store_or_none, try_except, bind, api; rewrite H; cbn;
    by destruct (a_stores w !! store_id).
Qed.

(** X24. When the read is served, [get_store] and [get_store_events]
    answer 404 "Not found" for a Store that does not exist, and for one
    that exists its representation, respectively the events of that
    representation under the identifier of the request; neither changes a
    Store. *)
Theorem get_store_answers_for_one_store store_id w :
  quiet_next w →
  (a_stores w !! store_id = None →
   get_store cfg store_id w = (Err (HTTPException 404 "Not found"), after_request w) ∧
   get_store_events cfg store_id w
     = (Err (HTTPException 404 "Not found"), after_request w)) ∧
  (∀ obj, a_stores w !! store_id = Some obj →
   get_store cfg store_id w = (Ok (_to_store_resp cfg obj), after_request w) ∧
   get_store_events cfg store_id w
     = (Ok {| e_storeId := store_id; e_events := r_events (_to_store_resp cfg obj) |},
        after_request w)).
Proof.
  intros Hq. unfold get_store, get_store_events.
  split; [intros Hnone | intros obj Hobj];
    (erewrite !bind_ok by (by apply get_store_or_none_quiet));
    by rewrite ?Hnone, ?Hobj.
Qed.

(** X25. When the request is served, [delete_store] of a Store that does
    not exist is not an error: it answers [deleted: False] with the reason
    NotFound and changes nothing.  For a Store that exists it answers
    [deleted: True]; a Store without finalizers is gone afterwards, and a
    read of it then answers 404. *)
Theorem delete_store_of_a_missing_store_is_no_error store_id w :
  quiet_next w →
  (a_stores w !! store_id = None →
   delete_store store_id w =
     (Ok {| d_deleted := false; d_storeId := store_id; d_reason := Some "NotFound" |},
      after_request w)) ∧
  (∀ obj, a_stores w !! store_id = Some obj →
     ∃ w', delete_store store_id w =
             (Ok {| d_deleted := true; d_storeId := store_id; d_reason := None |}, w') ∧
           (m_finalizers (o_metadata obj) = [] →
            a_stores w' = delete store_id (a_stores w) ∧
            (quiet_next w' →
             (get_store cfg store_id w').1 = Err (HTTPException 404 "Not found")))).
Proof.
  intros Hq. split.
  - intros Hnone. unfold delete_store, try_except, bind, delete_namespaced_custom_object,
      bind, api.
    destruct Hq as [H|H]; rewrite H; cbn; by rewrite Hnone.
  - intros obj Hobj.
    assert (∃ w', delete_store store_id w =
                    (Ok {| d_deleted := true; d_storeId := store_id; d_reason := None |},
                     w') ∧
                  (m_finalizers (o_metadata obj) = [] →
                   a_stores w' = delete store_id (a_stores w)))
      as (w' & Hrun & Hgone).
    { unfold delete_store, try_except, bind, delete_namespaced_custom_object, bind, api.
      destruct Hq as [H|H]; rewrite H; cbn; rewrite Hobj;
        destruct (m_finalizers (o_metadata obj)) as [|f fs];
        try destruct (m_deletionTimestamp (o_metadata obj));
        cbn; (eexists; split; [reflexivity|]); done. }
    exists w'. split; [done|]. intros Hfin. split; [by apply Hgone|].
    intros Hq'. unfold get_store.
    erewrite bind_ok by (by apply get_store_or_none_quiet).
    by rewrite (Hgone Hfin), lookup_delete_eq.
Qed.

(** X26. A create request for a [storeId] that is free, from a caller
    within the rate limit and the quotas, when the three requests to the
    cluster are served: [create_store] stores a Store under that name
    whose spec holds the requested engine, the [storeId], the caller's
    address as [_client_ip] gives it and the user agent, with no status and
    no finalizer; it answers with the representation of that Store, in
    phase Provisioning and with no events; and [get_store] then answers
    with the same representation. *)
Theorem create_store_then_get_store req request rest w :
  let caller_ip := _client_ip request in
  Api.within_rate_limit cfg caller_ip w →
  a_stores w !! storeId req = None →
  a_env w = Quiet :: Quiet :: Quiet :: rest →
  Api.within_quotas cfg (snd <$> map_to_list (a_stores w)) caller_ip →
  ∃ w' obj,
    create_store cfg req request w = (Ok (_to_store_resp cfg obj), w') ∧
    a_stores w' = <[storeId req := obj]> (a_stores w) ∧
    o_spec obj = requested_spec req request ∧
    o_status obj = ∅ ∧
    m_finalizers (o_metadata obj) = [] ∧
    r_storeId (_to_store_resp cfg obj) = storeId req ∧
    r_engine (_to_store_resp cfg obj) = engine req ∧
    r_phase (_to_store_resp cfg obj) = "Provisioning" ∧
    r_events (_to_store_resp cfg obj) = [] ∧
    (quiet_next w' →
     get_store cfg (storeId req) w' = (Ok (_to_store_resp cfg obj), after_request w')).
Proof.
  intros caller_ip Hrate Hnone Henv Hquota.
  destruct (check_create_rate_limit_run cfg caller_ip w Hrate)
    as (w1 & Hrun1 & Hst1 & Henv1 & Hsv1).
  unfold create_store. fold caller_ip.
  erewrite bind_ok by exact Hrun1.
  erewrite bind_ok
    by (apply (get_store_or_none_missing _ (Quiet :: Quiet :: rest));
        [by rewrite Henv1, Henv | by rewrite Hst1]).
  unfold _list_store_objects at 1.
  erewrite bind_ok
    by (apply try_except_ok; unfold bind, api; api_step; reflexivity).
  api_step. rewrite Hst1.
  erewrite bind_ok by apply Hquota.
  fold (requested_spec req request).
  match goal with |- context [try_except _ _ ?w0] => set (w3 := w0) end.
  set (obj := {| o_metadata :=
                   {| m_name := storeId req; m_finalizers := []; m_generation := Some 1%Z;
                      m_deletionTimestamp := None;
                      m_creationTimestamp := head (a_server_time w1) |};
                 o_spec := requested_spec req request; o_status := ∅ |}).
  set (w4 := {| a_stores := <[storeId req := obj]> (a_stores w);
                _ip_create_requests := _ip_create_requests w1;
                a_time := a_time w1; a_server_time := tail (a_server_time w1);
                a_env := rest |}).
  assert (create_namespaced_custom_object (storeId req) (requested_spec req request) w3
          = (Ok obj, w4)) as Hcreate.
  { unfold create_namespaced_custom_object, bind, api. subst w3.
    api_step. rewrite Hnone. done. }
  erewrite try_except_ok by (erewrite bind_ok by exact Hcreate; reflexivity).
  exists w4, obj. split; [done|]. split; [done|]. split; [done|]. split; [done|].
  split; [done|].
  split. { unfold _to_store_resp. simpl. unfold Py.or_else.
           by destruct (Py.truthy (storeId req)). }
  split; [reflexivity|].
  split. { unfold _to_store_resp, get_str. simpl. by rewrite lookup_empty. }
  split. { unfold _to_store_resp, Py.slice_to. simpl. rewrite lookup_empty.
           apply take_nil. }
  intros Hq. unfold get_store.
  erewrite bind_ok by (by apply get_store_or_none_quiet).
  subst w4. simpl. by rewrite lookup_insert_eq.
Qed.

Lemma cluster_error_api : throws cluster_error api.
Proof.
  intros w e. unfold api. destruct (head (a_env w)) as [[|f| |]|]; simpl; try done.
  intros [= <-]. by destruct f.
Qed.

Lemma cluster_error_handler e :
  cluster_error e → (∀ s r t, e ≠ ApiException s r t) → handler_error e.
Proof.
  destruct e as [s r t|?|?|?|?|? ?|? ?|?]; simpl; try done.
  intros _ H. by destruct (H s r t).
Qed.

Ltac in_codes := simpl; set_solver.

Lemma handler_error_k8s_error {A} e : throws handler_error (@k8s_error A e).
Proof. intros w e'. unfold k8s_error, raise. intros [= <-]. in_codes. Qed.

Lemma handler_error_get_store_or_none store_id :
  throws handler_error (_get_store_or_none store_id).
Proof.
  unfold _get_store_or_none.
  apply (throws_translated _ cluster_error).
  - apply throws_bind; [apply cluster_error_api|]. intros [] w e.
    destruct (a_stores w !! store_id); simpl; [done|]. by intros [= <-].
  - intros s r t. destruct (s =? 404)%Z; [apply throws_ret|apply handler_error_k8s_error].
  - apply cluster_error_handler.
Qed.

Lemma handler_error_list_store_objects : throws handler_error _list_store_objects.
Proof.
  unfold _list_store_objects.
  apply (throws_translated _ cluster_error).
  - apply throws_bind; [apply cluster_error_api|]. by intros [] w e.
  - intros s r t. apply handler_error_k8s_error.
  - apply cluster_error_handler.
Qed.

Lemma handler_error_check_create_rate_limit ip :
  throws handler_error (_check_create_rate_limit cfg ip).
Proof.
  intros w e. unfold _check_create_rate_limit, bind, time, set_bucket. cbn.
  destruct (_ <=? _)%Z; cbn; [|done]. intros [= <-]. in_codes.
Qed.

Lemma handler_error_enforce_store_quotas items ip :
  throws handler_error (_enforce_store_quotas cfg items ip).
Proof.
  intros w e. unfold _enforce_store_quotas.
  repeat (destruct (_ <=? _)%Z; cbn); try done; intros [= <-]; in_codes.
Qed.

Lemma cluster_error_create name spec :
  throws cluster_error (create_namespaced_custom_object name spec).
Proof.
  unfold create_namespaced_custom_object.
  apply throws_bind; [apply cluster_error_api|]. intros [] w e.
  destruct (a_stores w !! name); simpl; [|done]. by intros [= <-].
Qed.

Lemma cluster_error_delete name :
  throws cluster_error (delete_namespaced_custom_object name).
Proof.
  unfold delete_namespaced_custom_object.
  apply throws_bind; [apply cluster_error_api|]. intros [] w e.
  destruct (a_stores w !! name); simpl; [|by intros [= <-]].
  by repeat case_match.
Qed.

(** X27. No handler of the request layer lets an [ApiException] of the
    cluster client out.  Under every behaviour of the cluster, racing
    clients included, whatever [create_store], [list_stores], [get_store],
    [get_store_events] and [delete_store] raise is an [HTTPException] with
    status 404, 409, 429 or 500, or an error below HTTP that the client
    raised. *)
Theorem handlers_raise_http_errors_only :
  (∀ req request, throws handler_error (create_store cfg req request)) ∧
  throws handler_error (list_stores cfg) ∧
  (∀ store_id, throws handler_error (get_store cfg store_id)) ∧
  (∀ store_id, throws handler_error (get_store_events cfg store_id)) ∧
  (∀ store_id, throws handler_error (delete_store store_id)).
Proof.
  split; [|split; [|split; [|split]]].
  - intros req request. unfold create_store.
    apply throws_bind; [apply handler_error_check_create_rate_limit|]. intros _.
    apply throws_bind; [apply handler_error_get_store_or_none|]. intros [existing|].
    + destruct (negb _); [apply throws_raise; in_codes | apply throws_ret].
    + apply throws_bind; [apply handler_error_list_store_objects|]. intros items.
      apply throws_bind; [apply handler_error_enforce_store_quotas|]. intros _.
      apply (throws_translated _ cluster_error).
      * apply throws_bind; [apply cluster_error_create|]. intros obj. apply throws_ret.
      * intros s r t. destruct (s =? 409)%Z; [|apply handler_error_k8s_error].
        apply throws_bind; [apply handler_error_get_store_or_none|]. intros [existing|].
        -- destruct (negb _); [apply throws_raise; in_codes | apply throws_ret].
        -- apply throws_raise. in_codes.
      * apply cluster_error_handler.
  - unfold list_stores.
    apply throws_bind; [apply handler_error_list_store_objects|]. intros items.
    apply throws_ret.
  - intros store_id. unfold get_store.
    apply throws_bind; [apply handler_error_get_store_or_none|]. intros [obj|].
    + apply throws_ret.
    + apply throws_raise. in_codes.
  - intros store_id. unfold get_store_events.
    apply throws_bind; [apply handler_error_get_store_or_none|]. intros [obj|].
    + apply throws_ret.
    + apply throws_raise. in_codes.
  - intros store_id. unfold delete_store.
    apply (throws_translated _ cluster_error).
    + apply throws_bind; [apply cluster_error_delete|]. intros _. apply throws_ret.
    + intros s r t. destruct (s =? 404)%Z; [apply throws_ret|apply handler_error_k8s_error].
    + apply cluster_error_handler.
Qed.

Lemma active_stores_perm l1 l2 : l1 ≡ₚ l2 → active_stores l1 ≡ₚ active_stores l2.
Proof. intros H. unfold active_stores. by rewrite H. Qed.

Lemma enforce_store_quotas_perm items1 items2 ip w :
  items1 ≡ₚ items2 →
  _enforce_store_quotas cfg items1 ip w = _enforce_store_quotas cfg items2 ip w.
Proof.
  intros H. unfold _enforce_store_quotas.
  fold (active_stores items1). fold (active_stores items2).
  pose proof (active_stores_perm _ _ H) as Ha.
  rewrite (Permutation_length Ha).
  destruct (_ <=? _)%Z; [done|].
  assert (filter (λ it, sp_requestedBy_ip (o_spec it) = Some ip) (active_stores items1)
          ≡ₚ filter (λ it, sp_requestedBy_ip (o_spec it) = Some ip) (active_stores items2))
    as Hm by (by rewrite Ha).
  by rewrite (Permutation_length Hm).
Qed.

(** X28. A Store stops counting toward the quotas as soon as its deletion
    is requested.  For a Store that carries a finalizer, when the request
    is served: [delete_store] answers [deleted: True], the Store is still
    there with the same spec and status and now a deletion timestamp, and
    from then on [_enforce_store_quotas] answers as if the Store were
    gone. *)
Theorem a_store_being_deleted_frees_its_quota store_id obj t ts ip w :
  quiet_next w →
  a_stores w !! store_id = Some obj →
  m_finalizers (o_metadata obj) ≠ [] →
  m_deletionTimestamp (o_metadata obj) = None →
  a_server_time w = t :: ts → t ≠ "" →
  ∃ w' marked,
    delete_store store_id w =
      (Ok {| d_deleted := true; d_storeId := store_id; d_reason := None |}, w') ∧
    a_stores w' !! store_id = Some marked ∧
    m_deletionTimestamp (o_metadata marked) = Some t ∧
    o_spec marked = o_spec obj ∧ o_status marked = o_status obj ∧
    ∀ w0, _enforce_store_quotas cfg (snd <$> map_to_list (a_stores w')) ip w0 =
          _enforce_store_quotas cfg
            (snd <$> map_to_list (delete store_id (a_stores w))) ip w0.
Proof.
  intros Hq Hobj Hfin Hdel Htime Ht.
  assert (∃ w', delete_store store_id w =
                  (Ok {| d_deleted := true; d_storeId := store_id; d_reason := None |}, w') ∧
                a_stores w' =
                  <[store_id := with_deletionTimestamp (Some t) obj]> (a_stores w))
    as (w' & Hrun & Hst).
  { unfold delete_store, try_except, bind, delete_namespaced_custom_object, bind, api.
    destruct Hq as [H|H]; rewrite H; cbn; rewrite Hobj, Hdel, Htime;
      destruct (m_finalizers (o_metadata obj)) as [|f fs]; try done;
      cbn; eexists; split; reflexivity. }
  exists w', (with_deletionTimestamp (Some t) obj).
  split; [done|]. split; [by rewrite Hst, lookup_insert_eq|].
  split; [done|]. split; [done|]. split; [done|].
  intros w0. rewrite Hst, <- insert_delete_eq.
  rewrite (enforce_store_quotas_perm _
             (with_deletionTimestamp (Some t) obj
              :: (snd <$> map_to_list (delete store_id (a_stores w))))).
  2: { rewrite map_to_list_insert by apply lookup_delete_eq. done. }
  rewrite <- (enforce_store_quotas_active cfg (_ :: _)).
  rewrite <- (enforce_store_quotas_active cfg (snd <$> _)).
  f_equal. unfold active_stores. rewrite filter_cons_False; [done|].
  simpl. unfold Py.truthy. destruct t; [done|]. simpl. done.
Qed.

End Handlers.

(** ** Worked runs of the further properties *)

(** X3, a run: [acme] carries no finalizer yet. *)
Lemma add_finalizer_twice_run :
  let w := cluster (acme (Some "medusa") [] provisioning) ∅ ∅ 2 [] [] in
  ∃ w1 w2,
    add_finalizer "acme" w = (Ok tt, w1) ∧
    add_finalizer "acme" w1 = (Ok tt, w2) ∧
    w_stores w2 = w_stores w1.
Proof.
  cbv zeta.
  destruct (add_finalizer_is_idempotent "acme" (acme (Some "medusa") [] provisioning)
              (cluster (acme (Some "medusa") [] provisioning) ∅ ∅ 2 [] []))
    as (w1 & w2 & obj1 & H1 & _ & _ & _ & _ & _ & H2 & H3 & _).
  { vm_compute; reflexivity. }
  { apply calm_nil. }
  exists w1, w2. split; [exact H1|]. split; [exact H2 | exact H3].
Defined.

(** X4, a run: the finalizer is added and removed again. *)
Lemma finalizer_round_trip_run :
  let w := cluster (acme (Some "medusa") [] provisioning) ∅ ∅ 2 [] [] in
  ∃ w1 w2,
    add_finalizer "acme" w = (Ok tt, w1) ∧
    remove_finalizer "acme" w1 = (Ok tt, w2) ∧
    w_stores w2 = w_stores w.
Proof.
  cbv zeta.
  destruct (finalizer_round_trip "acme" (acme (Some "medusa") [] provisioning)
              (cluster (acme (Some "medusa") [] provisioning) ∅ ∅ 2 [] []))
    as (w1 & w2 & obj1 & H1 & _ & _ & H2 & H3).
  { vm_compute; reflexivity. }
  { simpl. apply not_elem_of_nil. }
  { apply calm_nil. }
  exists w1, w2. split; [exact H1|]. split; [exact H2 | exact H3].
Defined.

(** X6, a run: the Ready write asks for [lastError] to be cleared, and the
    stored [lastError] of the failed attempt is still there. *)
Lemma stale_last_error_run :
  let w := cluster (acme (Some "medusa") [FINALIZER] failed_once) ∅ ∅ 2 [] [] in
  ∃ w' obj',
    patch_store_status default_config "acme" (Some "Ready") (Some "Ready") (Some "up")
      [("lastError", None)] ["adminPassword"; "adminUser"] w = (Ok tt, w') ∧
    w_stores w' = <["acme" := obj']> (w_stores w) ∧
    o_status obj' !! "lastError" = Some (VStr "helm failed: timed out").
Proof.
  cbv zeta.
  destruct (status_keys_are_never_removed default_config "acme"
              (acme (Some "medusa") [FINALIZER] failed_once)
              (Some "Ready") (Some "Ready") (Some "up")
              [("lastError", None)] ["adminPassword"; "adminUser"]
              (cluster (acme (Some "medusa") [FINALIZER] failed_once) ∅ ∅ 2 [] []))
    as (w' & obj' & Hrun & Hst & _ & Hkeep).
  { vm_compute; reflexivity. }
  { apply calm_nil. }
  exists w', obj'. split; [exact Hrun|]. split; [exact Hst|].
  apply Hkeep; [vm_compute; reflexivity | done | done | done | done |].
  intros v' Hin. apply list_elem_of_singleton in Hin. discriminate.
Defined.

(** X7, a run: the creation time of the failed attempt survives. *)
Lemma created_at_run :
  let w := cluster (acme (Some "medusa") [FINALIZER] failed_once) ∅ ∅ 2 [] [] in
  ∃ w' obj',
    patch_store_status default_config "acme" (Some "Ready") (Some "Ready") (Some "up")
      [("lastError", None)] [] w = (Ok tt, w') ∧
    w_stores w' = <["acme" := obj']> (w_stores w) ∧
    o_status obj' !! "createdAt" = Some (VStr "2024-05-01T10:00:02Z").
Proof.
  cbv zeta.
  destruct (created_at_is_write_once default_config "acme"
              (acme (Some "medusa") [FINALIZER] failed_once)
              (Some "Ready") (Some "Ready") (Some "up") [("lastError", None)] []
              (cluster (acme (Some "medusa") [FINALIZER] failed_once) ∅ ∅ 2 [] []))
    as (w' & obj' & Hrun & Hst & Hcr & _).
  { vm_compute; reflexivity. }
  { apply calm_nil. }
  { simpl. intros Hin. apply list_elem_of_singleton in Hin. discriminate. }
  { apply not_elem_of_nil. }
  exists w', obj'. split; [exact Hrun|]. split; [exact Hst|].
  rewrite Hcr. vm_compute. reflexivity.
Defined.

(** X9, a run: the namespace exists and names another Store. *)
Lemma namespace_adopted_run :
  let w := cluster (acme (Some "medusa") [FINALIZER] provisioning)
             {[ "store-acme" := tampered_labels ]} ∅ 2 [] [] in
  ∃ w' labels,
    ensure_namespace "store-acme" "acme" w = (Ok tt, w') ∧
    w_namespaces w' = <["store-acme" := labels]> (w_namespaces w) ∧
    owned_by "acme" labels.
Proof.
  cbv zeta.
  destruct (ensure_namespace_establishes_ownership "store-acme" "acme"
              (cluster (acme (Some "medusa") [FINALIZER] provisioning)
                 {[ "store-acme" := tampered_labels ]} ∅ 2 [] []))
    as (w' & labels & Hrun & Hns & Hown & _).
  { apply calm_nil. }
  exists w', labels. split; [exact Hrun|]. split; [exact Hns | exact Hown].
Defined.

(** X10, a run: the namespace does not exist yet. *)
Lemma ensure_namespace_twice_run :
  let w := cluster (acme (Some "medusa") [FINALIZER] provisioning) ∅ ∅ 2 [] [] in
  ∃ w1 w2,
    ensure_namespace "store-acme" "acme" w = (Ok tt, w1) ∧
    ensure_namespace "store-acme" "acme" w1 = (Ok tt, w2) ∧
    w_namespaces w2 = w_namespaces w1.
Proof.
  cbv zeta.
  destruct (ensure_namespace_is_idempotent "store-acme" "acme"
              (cluster (acme (Some "medusa") [FINALIZER] provisioning) ∅ ∅ 2 [] []))
    as (w1 & w2 & H1 & H2 & H3 & _).
  { apply calm_nil. }
  exists w1, w2. split; [exact H1|]. split; [exact H2 | exact H3].
Defined.

(** X11, a run: a namespace that named another Store passes the check
    once it has been provisioned for [acme]. *)
Lemma provisioned_namespace_run :
  let w := cluster (acme (Some "medusa") [FINALIZER] provisioning)
             {[ "store-acme" := tampered_labels ]} ∅ 2 [] [] in
  ∃ w1 w2,
    ensure_namespace "store-acme" "acme" w = (Ok tt, w1) ∧
    _namespace_is_owned default_config "store-acme" "acme" w1 = (Ok true, w2).
Proof.
  cbv zeta.
  destruct (provisioned_namespace_passes_the_ownership_check default_config "acme"
              (cluster (acme (Some "medusa") [FINALIZER] provisioning)
                 {[ "store-acme" := tampered_labels ]} ∅ 2 [] []))
    as (w1 & w2 & H1 & H2 & _).
  { apply calm_nil. }
  exists w1, w2. split; [exact H1 | exact H2].
Defined.

(** X14, a run: [acme] is provisioned in an empty cluster. *)
Lemma provisioning_run :
  let w := cluster (acme (Some "medusa") [] ∅) ∅ ∅ 2 [] [] in
  ∃ w',
    reconcile_store default_config "acme" "store-platform" (acme_spec (Some "medusa"))
      (acme_meta []) w
    = (Ok [("namespace", "store-acme"); ("host", "acme.127.0.0.1.nip.io");
           ("releaseName", "medusa-acme")], w') ∧
    w_gate w' = 2.
Proof.
  cbv zeta.
  destruct (provisioning_succeeds default_config "acme" (acme_spec (Some "medusa"))
              (acme_meta []) (medusa_handler default_config)
              (acme (Some "medusa") [] ∅) "" "" 1
              (cluster (acme (Some "medusa") [] ∅) ∅ ∅ 2 [] []))
    as (w' & obj' & labels & creds & Hrun & _ & _ & _ & _ & _ & _ & _ & _ & _ & _ & _
        & Hgate & _).
  { vm_compute; reflexivity. }
  { vm_compute; reflexivity. }
  { unfold served. simpl. constructor. }
  { reflexivity. }
  { reflexivity. }
  { simpl. lia. }
  exists w'. split; [exact Hrun | exact Hgate].
Defined.

(** X15, a run: the cluster answers the deletion of the namespace with
    500. *)
Lemma failed_teardown_run :
  let w := cluster (acme (Some "medusa") [FINALIZER] provisioning)
             {[ "store-acme" := acme_labels ]} ∅ 2
             [None; None; None; Some internal_error] [] in
  ∃ w' obj',
    on_delete default_config (acme_spec (Some "medusa")) "acme" "store-platform" w
    = (Err (ApiException 500 "Internal Server Error"
              "(500) Reason: Internal Server Error"), w') ∧
    w_namespaces w' = {[ "store-acme" := acme_labels ]} ∧
    w_stores w' = <["acme" := obj']> (w_stores w) ∧
    FINALIZER ∉ m_finalizers (o_metadata obj').
Proof.
  cbv zeta.
  destruct (failed_teardown_still_removes_the_finalizer default_config
              (acme_spec (Some "medusa")) "acme"
              (acme (Some "medusa") [FINALIZER] provisioning) acme_labels
              internal_error []
              (cluster (acme (Some "medusa") [FINALIZER] provisioning)
                 {[ "store-acme" := acme_labels ]} ∅ 2
                 [None; None; None; Some internal_error] []))
    as (w' & obj' & Hrun & Hns & Hst & _ & Hfin).
  { vm_compute; reflexivity. }
  { vm_compute; reflexivity. }
  { split; vm_compute; reflexivity. }
  { reflexivity. }
  { intros reason text. unfold internal_error. discriminate. }
  { simpl. constructor. }
  exists w', obj'. split; [exact Hrun|]. split; [exact Hns|].
  split; [exact Hst | exact Hfin].
Defined.

(** X22, a run: a body without an engine. *)
Lemma accepted_request_run :
  is_Some (ENGINE_HANDLERS default_config !! "woocommerce").
Proof.
  destruct (accepted_engines_are_registered default_config None "acme"
              {| Api.engine := "woocommerce"; Api.storeId := "acme" |})
    as (H & _).
  { vm_compute; reflexivity. }
  exact H.
Defined.

(** X24, a run: [acme] is read. *)
Lemma get_store_of_acme_run :
  Api.get_store Api.default_config "acme" (request_layer [])
  = (Ok (Api._to_store_resp Api.default_config
           (acme (Some "medusa") [FINALIZER] provisioning)),
     Api.after_request (request_layer [])).
Proof.
  destruct (get_store_answers_for_one_store Api.default_config "acme" (request_layer []))
    as (_ & Hfound).
  { left. reflexivity. }
  destruct (Hfound (acme (Some "medusa") [FINALIZER] provisioning)) as (H & _).
  { vm_compute; reflexivity. }
  exact H.
Defined.

(** X25, a run: a Store that does not exist is deleted. *)
Lemma delete_missing_store_run :
  Api.delete_store "ghost" (request_layer [])
  = (Ok {| Api.d_deleted := false; Api.d_storeId := "ghost";
           Api.d_reason := Some "NotFound" |},
     Api.after_request (request_layer [])).
Proof.
  destruct (delete_store_of_a_missing_store_is_no_error Api.default_config "ghost"
              (request_layer []))
    as (H & _).
  { left. reflexivity. }
  apply H. vm_compute; reflexivity.
Defined.

(** X26, a run: [bravo] is created beside [acme] and read back. *)
Lemma create_then_get_run :
  ∃ w' obj,
    Api.create_store Api.default_config create_bravo from_10_0_0_7 quiet_layer
    = (Ok (Api._to_store_resp Api.default_config obj), w') ∧
    Api.a_stores w' = <["bravo" := obj]> (Api.a_stores quiet_layer) ∧
    Api.get_store Api.default_config "bravo" w'
    = (Ok (Api._to_store_resp Api.default_config obj), Api.after_request w').
Proof.
  destruct (create_store_then_get_store Api.default_config create_bravo from_10_0_0_7
              [Api.Quiet] quiet_layer)
    as (w' & obj & Hrun & Hst & _ & _ & _ & _ & _ & _ & _ & Hget).
  { unfold Api.within_rate_limit. vm_compute. reflexivity. }
  { vm_compute; reflexivity. }
  { reflexivity. }
  { intros w0. vm_compute. reflexivity. }
  exists w', obj. split; [exact Hrun|]. split; [exact Hst|].
  apply Hget.
  assert (Api.a_env w' = [Api.Quiet]) as Henv.
  { pose proof (f_equal (λ r, Api.a_env r.2) Hrun) as H. simpl in H. rewrite <- H.
    vm_compute. reflexivity. }
  right. by rewrite Henv.
Defined.

(** X28, a run: the deletion of [acme], which carries the finalizer, is
    requested. *)
Lemma deleting_store_run :
  ∃ w' marked,
    Api.delete_store "acme" quiet_layer
    = (Ok {| Api.d_deleted := true; Api.d_storeId := "acme"; Api.d_reason := None |}, w') ∧
    Api.a_stores w' !! "acme" = Some marked ∧
    m_deletionTimestamp (o_metadata marked) = Some "2024-05-02T08:00:00Z" ∧
    ∀ w0, Api._enforce_store_quotas Api.default_config
            (snd <$> map_to_list (Api.a_stores w')) "10.0.0.7" w0 = (Ok tt, w0).
Proof.
  destruct (a_store_being_deleted_frees_its_quota Api.default_config "acme"
              (acme (Some "medusa") [FINALIZER] provisioning)
              "2024-05-02T08:00:00Z" [] "10.0.0.7" quiet_layer)
    as (w' & marked & Hrun & Hst & Hdel & _ & _ & Hquota).
  { right. reflexivity. }
  { vm_compute; reflexivity. }
  { simpl. discriminate. }
  { reflexivity. }
  { reflexivity. }
  { discriminate. }
  exists w', marked. split; [exact Hrun|]. split; [exact Hst|]. split; [exact Hdel|].
  intros w0. rewrite Hquota. vm_compute. reflexivity.
Defined.

(** C10, three runs with a spec that names no engine: [acme] is
    provisioned with the woocommerce handler, its teardown uninstalls the
    woocommerce release, and a create request without an engine is one for
    woocommerce. *)
Lemma absent_engine_run :
  let spec := acme_spec None in
  let w := cluster (acme None [] ∅) ∅ ∅ 2 [] [] in
  (reconcile_store default_config "acme" "store-platform" spec (acme_meta []) w).1
    = Ok [("namespace", "store-acme"); ("host", "acme.127.0.0.1.nip.io");
          ("releaseName", "woocommerce-acme")] ∧
  RunHelm ["helm"; "uninstall"; "woocommerce-acme"; "-n"; "store-acme"] 300
    ∈ w_trace (on_delete default_config spec "acme" "store-platform" w).2 ∧
  Api.parse_StoreCreateReq None "acme"
    = Some {| Api.engine := "woocommerce"; Api.storeId := "acme" |}.
Proof.
  cbv zeta.
  destruct (absent_engine_defaults_to_woocommerce default_config "acme" (acme_meta [])
              (Some "10.0.0.7") (Some "curl"))
    as (Habsent & _ & _ & Hparse).
  destruct (Habsent (Some "acme")) as (_ & _ & _ & Hprov & Htear).
  split; [|split].
  - destruct (Hprov (cluster (acme None [] ∅) ∅ ∅ 2 [] [])) as (u & p & Hrun & _).
    { exists (acme None [] ∅), "", "", 1. split; [vm_compute; reflexivity|].
      split; [unfold served; simpl; constructor|].
      split; [reflexivity|]. split; [reflexivity|]. simpl. lia. }
    exact Hrun.
  - destruct (Htear (cluster (acme None [] ∅) ∅ ∅ 2 [] [])) as (body & rest & Htr & _).
    { exists (acme None [] ∅). vm_compute. reflexivity. }
    { apply calm_nil. }
    refine (eq_ind_r
              (λ tr, RunHelm ["helm"; "uninstall"; "woocommerce-acme"; "-n"; "store-acme"]
                       300 ∈ tr) _ Htr).
    apply elem_of_app. right. do 2 apply list_elem_of_further. apply list_elem_of_here.
  - apply Hparse; [simpl; lia | vm_compute; reflexivity].
Defined.
